(** * Container items of the rubric editor (oa_container_item.js)

    A shallow embedding of [OpenAssessment.ItemUtilities] and of the five
    container items ([RubricOption], [RubricCriterion], [TrainingExample],
    [AIExample], [AIExampleMenuItem]) over a small model of the document
    tree and of the jQuery calls the items make. *)

From stdpp Require Import base strings pretty list gmap.
From Stdlib Require Import ZArith Lia Ascii.

Local Open Scope string_scope.
Local Open Scope list_scope.
Local Open Scope nat_scope.

(** ** The document tree *)

Module Dom.

(** What an element carries besides its children.  [entered] is the text
    typed into (or the choice made in) a form control, if any; until then
    the control shows its [value] attribute. *)
Record edata := Edata {
  tag : string;
  attrs : gmap string string;
  classes : list string;
  entered : option string
}.

#[local] Unset Elimination Schemes.
Inductive node :=
| Text (s : string)
| Elem (e : edata) (kids : list node).
#[local] Set Elimination Schemes.

(** An element is named by the child indices leading to it from the root. *)
Definition path := list nat.

Fixpoint get (p : path) (n : node) : option node :=
  match p with
  | [] => Some n
  | i :: p' =>
      match n with
      | Text _ => None
      | Elem _ ks => match ks !! i with Some k => get p' k | None => None end
      end
  end.

Definition data (n : node) (p : path) : option edata :=
  match get p n with
  | Some (Elem e _) => Some e
  | _ => None
  end.

(** Every element of the tree with its path, in document order. *)
Fixpoint elems (n : node) : list (path * edata) :=
  match n with
  | Text _ => []
  | Elem e ks =>
      ([], e) ::
      (fix go (i : nat) (ks : list node) : list (path * edata) :=
         match ks with
         | [] => []
         | k :: ks' => map (prod_map (cons i) id) (elems k) ++ go (S i) ks'
         end) 0 ks
  end.

Fixpoint elems_kids (i : nat) (ks : list node) : list (path * edata) :=
  match ks with
  | [] => []
  | k :: ks' => map (prod_map (cons i) id) (elems k) ++ elems_kids (S i) ks'
  end.

(** Rewrite the node at [p]; a path that leads nowhere changes nothing. *)
Fixpoint update (f : node → node) (p : path) (n : node) : node :=
  match p with
  | [] => f n
  | i :: p' =>
      match n with
      | Text s => Text s
      | Elem e ks => Elem e (alter (update f p') i ks)
      end
  end.

Definition on_data (g : edata → edata) (n : node) : node :=
  match n with
  | Text s => Text s
  | Elem e ks => Elem (g e) ks
  end.

Definition on_kids (h : list node → list node) (n : node) : node :=
  match n with
  | Text s => Text s
  | Elem e ks => Elem e (h ks)
  end.

(** Detach the node at [p] from its parent; the root stays. *)
Fixpoint remove (p : path) (n : node) : node :=
  match p with
  | [] => n
  | i :: p' =>
      match p' with
      | [] => on_kids (delete i) n
      | _ :: _ =>
          match n with
          | Text s => Text s
          | Elem e ks => Elem e (alter (remove p') i ks)
          end
      end
  end.

(** The text an element shows: the text nodes below it, in order. *)
Fixpoint textContent (n : node) : string :=
  match n with
  | Text s => s
  | Elem _ ks =>
      (fix go (ks : list node) : string :=
         match ks with
         | [] => ""
         | k :: ks' => textContent k +:+ go ks'
         end) ks
  end.

Fixpoint prefixb (p q : path) : bool :=
  match p, q with
  | [], _ => true
  | i :: p', j :: q' => bool_decide (i = j) && prefixb p' q'
  | _ :: _, [] => false
  end.

(** [q] lies strictly below [p]. *)
Definition below (p q : path) : bool :=
  prefixb p q && negb (bool_decide (p = q)).

(** The prefixes of [p], shortest first; reversed they are [p] and its
    ancestors, nearest first. *)
Fixpoint inits (p : path) : list path :=
  [] :: match p with
        | [] => []
        | i :: p' => map (cons i) (inits p')
        end.

Definition ancestors_or_self (p : path) : list path := rev (inits p).

End Dom.

(** ** JavaScript values *)

(** The values the items pass around.  [JOther] stands for any value this
    file does not look into (a fraction, an object), by its string form. *)
Inductive jsval :=
| JUndefined
| JNull
| JBool (b : bool)
| JInt (z : Z)
| JNaN
| JStr (s : string)
| JOther (shown : string).

#[global] Instance jsval_eq_dec : EqDecision jsval.
Proof. solve_decision. Defined.

(** [String(v)], as string concatenation and [setAttribute] apply it. *)
Definition jsString (v : jsval) : string :=
  match v with
  | JUndefined => "undefined"
  | JNull => "null"
  | JBool true => "true"
  | JBool false => "false"
  | JInt z => pretty z
  | JNaN => "NaN"
  | JStr s => s
  | JOther s => s
  end.

Definition of_text (o : option string) : jsval :=
  match o with
  | Some s => JStr s
  | None => JUndefined
  end.

(** What the page provides around this file: the translation catalogue
    ([gettext], [ngettext]), the built-in [isNaN], and the conversion jQuery's
    [.data()] applies to the text of a [data-*] attribute. *)
Class Host := {
  gettext : string → string;
  ngettext : string → string → jsval → string;
  isNaN : jsval → bool;
  dataAttr : string → jsval
}.

(** ** The world the items act on: the document and the notifier *)

Record notice := Notice {
  event : string;
  payload : list (string * jsval);
  seen : Dom.node   (* the document as the subscriber finds it when called *)
}.

Record world := World {
  doc : Dom.node;
  fired : list notice
}.

Definition M (A : Type) : Type := world → A * world.

#[global] Instance M_ret : MRet M := λ A a w, (a, w).
#[global] Instance M_bind : MBind M := λ A B f m w, let (a, w') := m w in f a w'.

Definition gets {A} (f : Dom.node → A) : M A := λ w, (f (doc w), w).
Definition modify (f : Dom.node → Dom.node) : M unit :=
  λ w, (tt, World (f (doc w)) (fired w)).

(** [$.each(l, f)] and [.each(f)]. *)
Fixpoint forEach {A} (f : A → M unit) (l : list A) : M unit :=
  match l with
  | [] => mret tt
  | x :: l' => f x ≫= λ _, forEach f l'
  end.

(** [.each] whose callback updates a variable of the enclosing function. *)
Fixpoint foldEach {A B} (f : B → A → M B) (b : B) (l : list A) : M B :=
  match l with
  | [] => mret b
  | x :: l' => f b x ≫= λ b', foldEach f b' l'
  end.

Fixpoint mapEach {A B} (f : A → M B) (l : list A) : M (list B) :=
  match l with
  | [] => mret []
  | x :: l' => f x ≫= λ y, mapEach f l' ≫= λ ys, mret (y :: ys)
  end.

(** Consumed from the external Notifier: synchronous, fire-and-forget. *)
Module Notifier.
Definition notificationFired (name : string) (data : list (string * jsval)) : M unit :=
  λ w, (tt, World (doc w) (fired w ++ [Notice name data (doc w)])).
End Notifier.

(** ** The jQuery calls the items make *)

Module JQ.
Import Dom.

(** A jQuery object: the paths of the elements it holds. *)
Definition jq := list path.

(** The selectors this file writes.  [Attr a v] is the test [[a='v']] on the
    attribute text, [And] a compound selector such as [.c[a='v']]. *)
Inductive selector :=
| Any
| Tag (t : string)
| Class (c : string)
| Id (i : string)
| Attr (a v : string)
| And (s1 s2 : selector).

Fixpoint matches (s : selector) (e : edata) : bool :=
  match s with
  | Any => true
  | Tag t => bool_decide (tag e = t)
  | Class c => bool_decide (c ∈ classes e)
  | Id i => bool_decide (attrs e !! "id" = Some i)
  | Attr a v => bool_decide (attrs e !! a = Some v)
  | And s1 s2 => matches s1 e && matches s2 e
  end.

Definition matches_at (d : node) (s : selector) (p : path) : bool :=
  match data d p with
  | Some e => matches s e
  | None => false
  end.

(** [$(s, ctx)] and [ctx.find(s)]: the elements strictly below an element
    of [ctx] that match [s], in document order. *)
Definition find (d : node) (ctx : jq) (s : selector) : jq :=
  map fst
    (List.filter (λ pe, matches s (snd pe) && existsb (λ c, below c (fst pe)) ctx)
       (elems d)).

(** [.parent()]; the root element has no parent element. *)
Definition parent (ctx : jq) : jq :=
  remove_dups
    (omap (λ p, match p with [] => None | _ :: _ => Some (removelast p) end) ctx).

(** [.closest(s)]: for each element, the nearest of itself and its
    ancestors that matches. *)
Definition closest (d : node) (ctx : jq) (s : selector) : jq :=
  remove_dups
    (omap (λ p, head (List.filter (matches_at d s) (ancestors_or_self p))) ctx).

(** [$(s)]: every element of the document that matches. *)
Definition query (d : node) (s : selector) : jq :=
  map fst (List.filter (λ pe, matches s (snd pe)) (elems d)).

Definition first (ctx : jq) : jq :=
  match ctx with
  | [] => []
  | p :: _ => [p]
  end.

(** [.attr(a)]: of the first element; [None] is [undefined]. *)
Definition attr (d : node) (ctx : jq) (a : string) : option string :=
  p ← head ctx; e ← data d p; attrs e !! a.

(** [.data(key)] reads the attribute [data-key] through the host's
    conversion (as on the first read of a key; later reads of the same key
    are served from jQuery's cache, which is not modelled). *)
Definition data_ {host : Host} (d : node) (ctx : jq) (key : string) : jsval :=
  match attr d ctx ("data-" +:+ key) with
  | Some s => dataAttr s
  | None => JUndefined
  end.

Definition is_control (t : string) : bool :=
  bool_decide (t ∈ ["input"; "select"; "textarea"; "option"; "button"]).

(** The [value] property; elements that are no form controls have none. *)
Definition prop_value (e : edata) : option string :=
  if is_control (tag e)
  then Some (default (default "" (attrs e !! "value")) (entered e))
  else None.

(** [.prop('value')] of the first element. *)
Definition prop (d : node) (ctx : jq) : option string :=
  p ← head ctx; e ← data d p; prop_value e.

Fixpoint strip_cr (s : string) : string :=
  match s with
  | EmptyString => EmptyString
  | String c s' =>
      if bool_decide (c = "013"%char) then strip_cr s' else String c (strip_cr s')
  end.

(** [.val()]: [undefined] on an empty object, the empty string on an element
    without a value, else the value with carriage returns dropped. *)
Definition val (d : node) (ctx : jq) : option string :=
  p ← head ctx; e ← data d p;
  Some (match prop_value e with Some v => strip_cr v | None => "" end).

Definition hasClass (d : node) (ctx : jq) (c : string) : bool :=
  existsb (matches_at d (Class c)) ctx.

(** Apply [g] to the data of every element of [ctx]. *)
Definition each_data (g : edata → edata) (ctx : jq) (d : node) : node :=
  foldl (λ d p, update (on_data g) p d) d ctx.

Definition add_class (c : string) (e : edata) : edata :=
  if bool_decide (c ∈ classes e) then e
  else Edata (tag e) (attrs e) (classes e ++ [c]) (entered e).

Definition remove_class (c : string) (e : edata) : edata :=
  Edata (tag e) (attrs e) (List.filter (λ x, negb (bool_decide (x = c))) (classes e))
    (entered e).

Definition put_attr (a v : string) (e : edata) : edata :=
  Edata (tag e) (<[a := v]> (attrs e)) (classes e) (entered e).

Definition drop_attr (a : string) (e : edata) : edata :=
  Edata (tag e) (delete a (attrs e)) (classes e) (entered e).

Definition put_value (v : string) (e : edata) : edata :=
  if is_control (tag e) then Edata (tag e) (attrs e) (classes e) (Some v) else e.

Definition addClass (c : string) (ctx : jq) : M unit := modify (each_data (add_class c) ctx).
Definition removeClass (c : string) (ctx : jq) : M unit :=
  modify (each_data (remove_class c) ctx).

(** [.attr(a, v)]: [undefined] sets nothing, [null] removes the attribute,
    anything else is written in its string form. *)
Definition setAttr (a : string) (v : jsval) (ctx : jq) : M unit :=
  match v with
  | JUndefined => mret tt
  | JNull => modify (each_data (drop_attr a) ctx)
  | _ => modify (each_data (put_attr a (jsString v)) ctx)
  end.

(** [.val(v)] with a defined [v]. *)
Definition setVal (v : string) (ctx : jq) : M unit := modify (each_data (put_value v) ctx).

(** [.text(s)]: the children of each element give way to one text node;
    [.text(undefined)] only reads. *)
Definition setText (s : option string) (ctx : jq) : M unit :=
  match s with
  | Some s => modify (λ d, foldl (λ d p, update (on_kids (λ _, [Text s])) p d) d ctx)
  | None => mret tt
  end.

(** [.remove()]: the elements leave the document, the last one first, so
    that the paths of the others still lead to them. *)
Definition remove (ctx : jq) : M unit :=
  modify (λ d, foldr Dom.remove d ctx).

End JQ.

(** Objects and arrays of values, as [getFieldValues] returns them. *)
#[local] Unset Elimination Schemes.
Inductive json :=
| JV (v : jsval)
| JArr (items : list json)
| JObj (fields : list (string * json)).
#[local] Set Elimination Schemes.

(** [o.key] on an object literal built in this file. *)
Definition field (o : json) (key : string) : jsval :=
  match o with
  | JObj fs =>
      match List.find (λ kv, bool_decide (fst kv = key)) fs with
      | Some (_, JV v) => v
      | Some (_, _) => JOther "[object]"
      | None => JUndefined
      end
  | _ => JUndefined
  end.

Definition highlighted : string := "openassessment_highlighted_field".

(** ** Form fields (defined outside oa_container_item.js) *)

Module Fields.

(** Modelled from the spec: [OpenAssessment.Fields.stringField], the
    string field accessor of section 4.2 (defined outside
    oa_container_item.js):
    with a value it overwrites the backing field, and either way it returns
    what the field then holds.  No validation. *)
Definition stringField (sel : JQ.jq) (value : option string) : M (option string) :=
  (match value with
   | Some v => JQ.setVal v sel
   | None => mret tt
   end) ≫= λ _, gets (λ d, JQ.val d sel).

End Fields.

Module IntField.

Record t := Make {
  input : JQ.jq;
  min : Z;
  max : Z
}.

Definition digit (c : ascii) : option Z :=
  let n := nat_of_ascii c in
  if (48 <=? n)%nat && (n <=? 57)%nat then Some (Z.of_nat (n - 48)) else None.

Fixpoint digits (s : string) (acc : Z) : option Z :=
  match s with
  | EmptyString => Some acc
  | String c s' => match digit c with
                   | Some k => digits s' (10 * acc + k)%Z
                   | None => None
                   end
  end.

(** Modelled from the spec: the number a backing text denotes (section 4.2,
    "may be NaN if backing value is non-numeric"): decimal digits with an
    optional minus sign; any other text is not a number. *)
Definition parse (s : string) : jsval :=
  match s with
  | EmptyString => JNaN
  | String "-" EmptyString => JNaN
  | String "-" s' => match digits s' 0 with Some z => JInt (- z) | None => JNaN end
  | _ => match digits s 0 with Some z => JInt z | None => JNaN end
  end.

(** Modelled from the spec: [OpenAssessment.IntField] of section 4.2
    (defined outside oa_container_item.js). *)
Definition get (f : t) : M jsval :=
  gets (λ d, match JQ.val d (input f) with
             | Some s => parse s
             | None => JNaN
             end).

Definition set (f : t) (v : jsval) : M unit := JQ.setVal (jsString v) (input f).

Definition in_range (f : t) (v : jsval) : bool :=
  match v with
  | JInt z => (min f <=? z)%Z && (z <=? max f)%Z
  | _ => false
  end.

(** Modelled from the spec: "true iff parsed value lies in a configured
    inclusive [min, max] range; on failure, marks the field visually and
    records an error". *)
Definition validate (f : t) : M bool :=
  value ← get f;
  let isValid := in_range f value in
  (if isValid then mret tt else JQ.addClass highlighted (input f)) ≫= λ _,
  mret isValid.

(** Modelled from the spec: "clearValidationErrors() resets that mark". *)
Definition clearValidationErrors (f : t) : M unit :=
  JQ.removeClass highlighted (input f).

(** Modelled from the spec: the recorded error, present while the field is
    marked.  The items only test whether the list is empty. *)
Definition validationErrors (f : t) : M (list string) :=
  gets (λ d, if JQ.hasClass d (input f) highlighted
             then ["The field is invalid."] else []).

End IntField.

(** ** The item capability contract and the container *)

(** Exposed to the Container: what every item kind implements. *)
Class ContainerItem (T : Type) := {
  item_new : JQ.jq → M T;
  item_addEventListeners : T → M unit;
  item_getFieldValues : T → M json;
  item_addHandler : T → M unit;
  item_removeHandler : T → M unit;
  item_updateHandler : T → M unit;
  item_validate : T → M bool;
  item_validationErrors : T → M (list string);
  item_clearValidationErrors : T → M unit
}.

Module Container.

Record t := Make {
  containerElement : JQ.jq;     (* [.get(0)]: one element at most *)
  templateElement : JQ.jq;
  containerItemClass : string
}.

(** Modelled from the spec: [getAllItems() -> ordered sequence of Item]
    (section 6; [OpenAssessment.Container] is defined outside
    oa_container_item.js): one item per
    element of the item class inside the container element, in order. *)
Definition getAllItems `{ContainerItem T} (c : t) : M (list T) :=
  els ← gets (λ d, JQ.find d (containerElement c) (JQ.Class (containerItemClass c)));
  mapEach (λ p, item_new [p]) els.

(** Modelled from the spec: [getItemValues() -> ordered sequence of
    field-value objects]. *)
Definition getItemValues `{ContainerItem T} (c : t) : M (list json) :=
  items ← getAllItems (T := T) c;
  mapEach item_getFieldValues items.

Definition stamp_item (cls : string) (n : Dom.node) : Dom.node :=
  Dom.on_data (λ e, JQ.add_class cls (JQ.drop_attr "id" e)) n.

(** Modelled from the spec: [add()] (sections 3 and 6): a copy of the
    template becomes the last child of the container element, the item is
    constructed on it, and its [addEventListeners] and [addHandler] hooks
    run once, after the insertion. *)
Definition add `{ContainerItem T} (c : t) : M unit :=
  d ← gets id;
  match head (containerElement c), head (templateElement c) with
  | Some p, Some q =>
      match Dom.get p d, Dom.get q d with
      | Some (Dom.Elem _ ks), Some tpl =>
          modify (Dom.update (Dom.on_kids (λ ks, ks ++ [stamp_item (containerItemClass c) tpl])) p) ≫= λ _,
          item ← item_new (T := T) [p ++ [length ks]];
          item_addEventListeners item ≫= λ _,
          item_addHandler item
      | _, _ => mret tt
      end
  | _, _ => mret tt
  end.

End Container.

(** ** ItemUtilities *)

Module ItemUtilities.

(** The loop of [createUniqueName]; [fuel] is the number of turns the
    condition [index <= selector.length] still allows. *)
Fixpoint createUniqueName_loop (d : Dom.node) (selector : JQ.jq) (nameAttribute : string)
    (fuel index : nat) : string :=
  match fuel with
  | 0 => pretty index
  | S fuel' =>
      if (length (JQ.find d (JQ.parent selector) (JQ.Attr nameAttribute (pretty index))) =? 0)%nat
      then pretty index
      else createUniqueName_loop d selector nameAttribute fuel' (S index)
  end.

Definition createUniqueName (selector : JQ.jq) (nameAttribute : string) : M string :=
  gets (λ d, createUniqueName_loop d selector nameAttribute (S (length selector)) 0).

Section with_host.
Context {host : Host}.

Definition refreshOptionString (element : JQ.jq) : M unit :=
  points ← gets (λ d, JQ.attr d element "data-points");
  label ← gets (λ d, JQ.attr d element "data-label");
  name ← gets (λ d, JQ.val d element);
  let label := if bool_decide (label = Some "") then Some (gettext "Unnamed Option") else label in
  let singularString := jsString (of_text label) +:+ " - " +:+ jsString (of_text points) +:+ " point" in
  let multipleString := jsString (of_text label) +:+ " - " +:+ jsString (of_text points) +:+ " points" in
  let finalLabel :=
    if bool_decide (name = Some "") then Some (gettext "Not Selected")
    else if isNaN (of_text points) then label
    else Some (ngettext singularString multipleString (of_text points)) in
  JQ.setText finalLabel element.

End with_host.

Definition addClassToAllButOne (element : JQ.jq) (whoToAddTo dontAddToMe : JQ.selector)
    (className : string) : M unit :=
  all ← gets (λ d, JQ.find d element whoToAddTo);
  forEach (λ p, JQ.addClass className [p]) all ≫= λ _,
  one ← gets (λ d, JQ.find d element dontAddToMe);
  JQ.removeClass className one.

End ItemUtilities.

(** ** RubricOption *)

Module RubricOption.

Record t := Make {
  element : JQ.jq;
  pointsField : IntField.t
}.

Definition new (element : JQ.jq) : M t :=
  input ← gets (λ d, JQ.find d element (JQ.Class "openassessment_criterion_option_points"));
  mret (Make element (IntField.Make input 0 999)).

(** The focus-out listener it installs calls [updateHandler] later; installing
    it touches neither the document nor the notifier. *)
Definition addEventListeners (o : t) : M unit := mret tt.

Definition label (o : t) (label : option string) : M (option string) :=
  sel ← gets (λ d, JQ.find d (element o) (JQ.Class "openassessment_criterion_option_label"));
  Fields.stringField sel label.

Definition points (o : t) (points : jsval) : M jsval :=
  (if bool_decide (points = JUndefined) then mret tt
   else IntField.set (pointsField o) points) ≫= λ _,
  IntField.get (pointsField o).

Definition explanation (o : t) (explanation : option string) : M (option string) :=
  sel ← gets (λ d, JQ.find d (element o) (JQ.Class "openassessment_criterion_option_explanation"));
  Fields.stringField sel explanation.

Definition getFieldValues (o : t) : M json :=
  l ← label o None;
  p ← points o JUndefined;
  e ← explanation o None;
  sel ← gets (λ d, JQ.find d (element o) (JQ.Class "openassessment_criterion_option_name"));
  nameString ← Fields.stringField sel None;
  mret (JObj ([("label", JV (of_text l)); ("points", JV p); ("explanation", JV (of_text e))]
              ++ if bool_decide (nameString = Some "") then []
                 else [("name", JV (of_text nameString))])).

Section with_host.
Context {host : Host}.

Definition addHandler (o : t) : M unit :=
  criterionElement ← gets (λ d, JQ.closest d (element o) (JQ.Class "openassessment_criterion"));
  criterionName ← gets (λ d, JQ.data_ d criterionElement "criterion");
  criterionLabel ← gets (λ d, JQ.val d (JQ.find d criterionElement (JQ.Class "openassessment_criterion_label")));
  options ← gets (λ d, JQ.find d (JQ.parent (element o)) (JQ.Class "openassessment_criterion_option"));
  name ← ItemUtilities.createUniqueName options "data-option";
  JQ.setAttr "data-criterion" criterionName (element o) ≫= λ _,
  JQ.setAttr "data-option" (JStr name) (element o) ≫= λ _,
  idField ← gets (λ d, JQ.find d (element o) (JQ.Class "openassessment_criterion_option_name"));
  JQ.setAttr "value" (JStr name) idField ≫= λ _,
  fields ← getFieldValues o;
  Notifier.notificationFired "optionAdd"
    [("criterionName", criterionName);
     ("criterionLabel", of_text criterionLabel);
     ("name", JStr name);
     ("label", field fields "label");
     ("points", field fields "points")].

Definition removeHandler (o : t) : M unit :=
  criterionName ← gets (λ d, JQ.data_ d (element o) "criterion");
  optionName ← gets (λ d, JQ.data_ d (element o) "option");
  Notifier.notificationFired "optionRemove"
    [("criterionName", criterionName); ("name", optionName)].

Definition updateHandler (o : t) : M unit :=
  fields ← getFieldValues o;
  criterionName ← gets (λ d, JQ.data_ d (element o) "criterion");
  optionName ← gets (λ d, JQ.data_ d (element o) "option");
  let optionLabel := field fields "label" in
  let optionPoints := field fields "points" in
  Notifier.notificationFired "optionUpdated"
    [("criterionName", criterionName); ("name", optionName);
     ("label", optionLabel); ("points", optionPoints)].

End with_host.

Definition validate (o : t) : M bool := IntField.validate (pointsField o).

Definition validationErrors (o : t) : M (list string) :=
  errs ← IntField.validationErrors (pointsField o);
  let hasError := (0 <? length errs)%nat in
  mret (if hasError then ["Option points are invalid"] else []).

Definition clearValidationErrors (o : t) : M unit :=
  IntField.clearValidationErrors (pointsField o).

#[global] Instance item {host : Host} : ContainerItem t := {
  item_new := new;
  item_addEventListeners := addEventListeners;
  item_getFieldValues := getFieldValues;
  item_addHandler := addHandler;
  item_removeHandler := removeHandler;
  item_updateHandler := updateHandler;
  item_validate := validate;
  item_validationErrors := validationErrors;
  item_clearValidationErrors := clearValidationErrors
}.

End RubricOption.

(** ** RubricCriterion *)

Module RubricCriterion.

Record t := Make {
  element : JQ.jq;
  labelSel : JQ.jq;
  promptSel : JQ.jq;
  optionContainer : Container.t
}.

Definition new (element : JQ.jq) : M t :=
  labelSel ← gets (λ d, JQ.find d element (JQ.Class "openassessment_criterion_label"));
  promptSel ← gets (λ d, JQ.find d element (JQ.Class "openassessment_criterion_prompt"));
  list ← gets (λ d, JQ.first (JQ.find d element (JQ.Class "openassessment_criterion_option_list")));
  template ← gets (λ d, JQ.first (JQ.query d (JQ.Id "openassessment_option_template")));
  mret (Make element labelSel promptSel
          (Container.Make list template "openassessment_criterion_option")).

Definition label (c : t) (label : option string) : M (option string) :=
  Fields.stringField (labelSel c) label.

Definition prompt (c : t) (prompt : option string) : M (option string) :=
  Fields.stringField (promptSel c) prompt.

Definition feedback (c : t) : M (option string) :=
  gets (λ d, JQ.val d (JQ.find d (element c) (JQ.Class "openassessment_criterion_feedback"))).

Section with_host.
Context {host : Host}.

Definition getFieldValues (c : t) : M json :=
  l ← label c None;
  p ← prompt c None;
  f ← feedback c;
  opts ← Container.getItemValues (T := RubricOption.t) (optionContainer c);
  sel ← gets (λ d, JQ.find d (element c) (JQ.Class "openassessment_criterion_name"));
  nameString ← Fields.stringField sel None;
  mret (JObj ([("label", JV (of_text l)); ("prompt", JV (of_text p));
               ("feedback", JV (of_text f)); ("options", JArr opts)]
              ++ if bool_decide (nameString = Some "") then []
                 else [("name", JV (of_text nameString))])).

Definition addOption (c : t) : M unit :=
  Container.add (T := RubricOption.t) (optionContainer c).

(** Installs the listeners of the option container and its own focus-out
    listener; neither touches the document or the notifier. *)
Definition addEventListeners (c : t) : M unit := mret tt.

Definition addHandler (c : t) : M unit :=
  criteria ← gets (λ d, JQ.find d (JQ.parent (element c)) (JQ.Class "openassessment_criterion"));
  name ← ItemUtilities.createUniqueName criteria "data-criterion";
  JQ.setAttr "data-criterion" (JStr name) (element c) ≫= λ _,
  idField ← gets (λ d, JQ.find d (element c) (JQ.Class "openassessment_criterion_name"));
  JQ.setAttr "value" (JStr name) idField.

Definition removeHandler (c : t) : M unit :=
  criterionName ← gets (λ d, JQ.data_ d (element c) "criterion");
  Notifier.notificationFired "criterionRemove" [("criterionName", criterionName)].

Definition updateHandler (c : t) : M unit :=
  fields ← getFieldValues c;
  let criterionName := field fields "name" in
  let criterionLabel := field fields "label" in
  Notifier.notificationFired "criterionUpdated"
    [("criterionName", criterionName); ("criterionLabel", criterionLabel)].

Definition validate (c : t) : M bool :=
  p ← prompt c None;
  let isValid := negb (bool_decide (p = Some "")) in
  (if isValid then mret tt else JQ.addClass highlighted (promptSel c)) ≫= λ _,
  items ← Container.getAllItems (T := RubricOption.t) (optionContainer c);
  foldEach (λ isValid o, v ← RubricOption.validate o; mret (v && isValid)) isValid items.

Definition validationErrors (c : t) : M (list string) :=
  gets (λ d, JQ.hasClass d (promptSel c) highlighted) ≫= λ marked : bool,
  let errors : list string := if marked then ["Criterion prompt is invalid."] else [] in
  items ← Container.getAllItems (T := RubricOption.t) (optionContainer c);
  foldEach (λ errors o, errs ← RubricOption.validationErrors o; mret (errors ++ errs))
    errors items.

Definition clearValidationErrors (c : t) : M unit :=
  JQ.removeClass highlighted (promptSel c) ≫= λ _,
  items ← Container.getAllItems (T := RubricOption.t) (optionContainer c);
  forEach RubricOption.clearValidationErrors items.

#[global] Instance item : ContainerItem t := {
  item_new := new;
  item_addEventListeners := addEventListeners;
  item_getFieldValues := getFieldValues;
  item_addHandler := addHandler;
  item_removeHandler := removeHandler;
  item_updateHandler := updateHandler;
  item_validate := validate;
  item_validationErrors := validationErrors;
  item_clearValidationErrors := clearValidationErrors
}.

End with_host.

End RubricCriterion.

(** ** TrainingExample *)

Module TrainingExample.

Record t := Make {
  element : JQ.jq;
  criteria : JQ.jq;
  answer : JQ.jq
}.

Definition new (element : JQ.jq) : M t :=
  criteria ← gets (λ d, JQ.find d element (JQ.Class "openassessment_training_example_criterion_option"));
  answer ← gets (λ d, JQ.first (JQ.find d element (JQ.Class "openassessment_training_example_essay")));
  mret (Make element criteria answer).

Definition addEventListeners (x : t) : M unit := mret tt.
Definition removeHandler (x : t) : M unit := mret tt.
Definition updateHandler (x : t) : M unit := mret tt.

Definition validate (x : t) : M bool :=
  foldEach (λ isValid p,
      v ← gets (λ d, JQ.prop d [p]);
      let isOptionValid := negb (bool_decide (v = Some "")) in
      (if isOptionValid then mret tt else JQ.addClass highlighted [p]) ≫= λ _,
      mret (isOptionValid && isValid))
    true (criteria x).

Definition validationErrors (x : t) : M (list string) :=
  foldEach (λ errors p,
      gets (λ d, JQ.hasClass d [p] highlighted) ≫= λ hasError : bool,
      mret (if hasError then errors ++ ["Student training example is invalid."] else errors))
    [] (criteria x).

Definition clearValidationErrors (x : t) : M unit :=
  forEach (λ p, JQ.removeClass highlighted [p]) (criteria x).

Section with_host.
Context {host : Host}.

Definition getFieldValues (x : t) : M json :=
  optionsSelected ← mapEach (λ p,
      c ← gets (λ d, JQ.data_ d [p] "criterion");
      o ← gets (λ d, JQ.prop d [p]);
      mret (JObj [("criterion", JV c); ("option", JV (of_text o))]))
    (criteria x);
  a ← gets (λ d, JQ.prop d (answer x));
  mret (JObj [("answer", JV (of_text a)); ("options_selected", JArr optionsSelected)]).

Definition addHandler (x : t) : M unit :=
  dropdowns ← gets (λ d, JQ.find d (element x) (JQ.Class "openassessment_training_example_criterion_option"));
  forEach (λ p,
      opts ← gets (λ d, JQ.find d [p] (JQ.Tag "option"));
      forEach (λ q, ItemUtilities.refreshOptionString [q]) opts)
    dropdowns.

#[global] Instance item : ContainerItem t := {
  item_new := new;
  item_addEventListeners := addEventListeners;
  item_getFieldValues := getFieldValues;
  item_addHandler := addHandler;
  item_removeHandler := removeHandler;
  item_updateHandler := updateHandler;
  item_validate := validate;
  item_validationErrors := validationErrors;
  item_clearValidationErrors := clearValidationErrors
}.

End with_host.

End TrainingExample.

(** ** AIExample *)

Module AIExample.

Record t := Make {
  element : JQ.jq;
  labelSel : JQ.jq;
  answer : JQ.jq;
  criteria : JQ.jq
}.

Definition new (element : JQ.jq) : M t :=
  JQ.addClass "is--hidden" element ≫= λ _,
  labelSel ← gets (λ d, JQ.first (JQ.find d (JQ.find d element (JQ.Class "openassessment_ai_example_label_field")) (JQ.Tag "input")));
  answer ← gets (λ d, JQ.first (JQ.find d element (JQ.Class "openassessment_ai_example_essay")));
  criteria ← gets (λ d, JQ.find d element (JQ.Class "openassessment_ai_example_criterion_option"));
  mret (Make element labelSel answer criteria).

(** Installs the focus-out listener of the label field. *)
Definition addEventListeners (x : t) : M unit := mret tt.

Definition updateHandler (x : t) : M unit :=
  id ← gets (λ d, JQ.attr d (element x) "data-example");
  let sel := JQ.And (JQ.Class "openassessment_ai_example_menu_item")
                    (JQ.Attr "data-example" (jsString (of_text id))) in
  scope ← gets (λ d, JQ.closest d (element x) (JQ.Id "openassessment_ai_editor_menu_and_editor"));
  heading ← gets (λ d, JQ.first (JQ.find d (JQ.find d scope sel) (JQ.Tag "h2")));
  text ← gets (λ d, JQ.val d (labelSel x));
  JQ.setText text heading.

Definition validate (x : t) : M bool :=
  foldEach (λ isValid p,
      v ← gets (λ d, JQ.prop d [p]);
      let isOptionValid := negb (bool_decide (v = Some "")) in
      (if isOptionValid then mret tt else JQ.addClass highlighted [p]) ≫= λ _,
      mret (isOptionValid && isValid))
    true (criteria x).

Definition validationErrors (x : t) : M (list string) :=
  foldEach (λ errors p,
      gets (λ d, JQ.hasClass d [p] highlighted) ≫= λ hasError : bool,
      mret (if hasError then errors ++ ["An Example Based Assessment Example is invalid."]
            else errors))
    [] (criteria x).

Definition clearValidationErrors (x : t) : M unit :=
  forEach (λ p, JQ.removeClass highlighted [p]) (criteria x).

Definition removeHandler (x : t) : M unit := mret tt.

Section with_host.
Context {host : Host}.

Definition getFieldValues (x : t) : M json :=
  optionsSelected ← mapEach (λ p,
      c ← gets (λ d, JQ.data_ d [p] "criterion");
      o ← gets (λ d, JQ.prop d [p]);
      mret (JObj [("criterion", JV c); ("option", JV (of_text o))]))
    (criteria x);
  a ← gets (λ d, JQ.prop d (answer x));
  l ← gets (λ d, JQ.prop d (labelSel x));
  mret (JObj [("answer", JV (of_text a)); ("label", JV (of_text l));
              ("options_selected", JArr optionsSelected)]).

Definition addHandler (x : t) : M unit :=
  dropdowns ← gets (λ d, JQ.find d (element x) (JQ.Class "openassessment_ai_example_criterion_option"));
  forEach (λ p,
      opts ← gets (λ d, JQ.find d [p] (JQ.Tag "option"));
      forEach (λ q, ItemUtilities.refreshOptionString [q]) opts)
    dropdowns ≫= λ _,
  name ← ItemUtilities.createUniqueName (element x) "data-example";
  JQ.setAttr "data-example" (JStr name) (element x) ≫= λ _,
  addEventListeners x.

#[global] Instance item : ContainerItem t := {
  item_new := new;
  item_addEventListeners := addEventListeners;
  item_getFieldValues := getFieldValues;
  item_addHandler := addHandler;
  item_removeHandler := removeHandler;
  item_updateHandler := updateHandler;
  item_validate := validate;
  item_validationErrors := validationErrors;
  item_clearValidationErrors := clearValidationErrors
}.

End with_host.

End AIExample.

(** ** AIExampleMenuItem *)

Module AIExampleMenuItem.

Record t := Make {
  element : JQ.jq;
  labelSel : JQ.jq;
  menuAndEditor : JQ.jq
}.

Definition new (element : JQ.jq) : M t :=
  labelSel ← gets (λ d, JQ.find d element (JQ.Class "openassessment_ai_example_label_field"));
  menuAndEditor ← gets (λ d, JQ.closest d element (JQ.Id "openassessment_ai_editor_menu_and_editor"));
  mret (Make element labelSel menuAndEditor).

(** The click listener: [exampleName] is the [data-example] the item had
    when the listener was installed. *)
Definition click (exampleName : option string) (x : t) : M unit :=
  ItemUtilities.addClassToAllButOne (menuAndEditor x)
    (JQ.Class "openassessment_ai_editor_single_visibility")
    (JQ.And (JQ.Class "openassessment_ai_example")
            (JQ.Attr "data-example" (jsString (of_text exampleName))))
    "is--hidden" ≫= λ _,
  ItemUtilities.addClassToAllButOne (menuAndEditor x)
    (JQ.Class "openassessment_ai_menu_single_visibility")
    (JQ.And (JQ.Class "openassessment_ai_example_menu_item")
            (JQ.Attr "data-example" (jsString (of_text exampleName))))
    "is--faded".

(** Installs [click]; installing it touches neither the document nor the
    notifier. *)
Definition addEventListeners (x : t) : M unit := mret tt.

Definition removeHandler (x : t) : M unit :=
  id ← gets (λ d, JQ.attr d (element x) "data-example");
  pairedExample ← gets (λ d, JQ.find d (menuAndEditor x)
    (JQ.And (JQ.Class "openassessment_ai_example")
            (JQ.Attr "data-example" (jsString (of_text id)))));
  lastExample ← gets (λ d,
    (length (JQ.find d (JQ.parent pairedExample) (JQ.Class "openassessment_ai_example")) =? 1)%nat);
  currentlySelected ← gets (λ d, negb (JQ.hasClass d pairedExample "is--hidden"));
  (if lastExample || currentlySelected
   then background ← gets (λ d, JQ.find d (JQ.parent pairedExample)
                                 (JQ.Id "openassessment_ai_example_editor_background"));
        JQ.removeClass "is--hidden" background
   else mret tt) ≫= λ _,
  JQ.remove pairedExample.

Definition addHandler (x : t) : M unit :=
  name ← ItemUtilities.createUniqueName (element x) "data-example";
  JQ.setAttr "data-example" (JStr name) (element x) ≫= λ _,
  addEventListeners x.

Definition getFieldValues (x : t) : M json := mret (JV JUndefined).
Definition updateHandler (x : t) : M unit := mret tt.
Definition validate (x : t) : M bool := mret true.
Definition validationErrors (x : t) : M (list string) := mret [].
Definition clearValidationErrors (x : t) : M unit := mret tt.

#[global] Instance item : ContainerItem t := {
  item_new := new;
  item_addEventListeners := addEventListeners;
  item_getFieldValues := getFieldValues;
  item_addHandler := addHandler;
  item_removeHandler := removeHandler;
  item_updateHandler := updateHandler;
  item_validate := validate;
  item_validationErrors := validationErrors;
  item_clearValidationErrors := clearValidationErrors
}.

End AIExampleMenuItem.

(** * Vocabulary of the properties *)

Import Dom JQ.

(** Induction on documents: a property of every node that holds of text and
    passes from the children of an element to the element. *)
Section node_induction.
Variable P : node → Prop.
Hypothesis P_text : ∀ s, P (Text s).
Hypothesis P_elem : ∀ e ks, Forall P ks → P (Elem e ks).

Fixpoint node_ind (n : node) : P n :=
  match n with
  | Text s => P_text s
  | Elem e ks =>
      P_elem e ks
        ((fix go (ks : list node) : Forall P ks :=
            match ks with
            | [] => Forall_nil_2 P
            | k :: ks' => Forall_cons_2 P k ks' (node_ind k) (go ks')
            end) ks)
  end.
End node_induction.

(** What rewriting the data at [p], or at every path of [S], does to one
    listed element. *)
Definition at_path (g : edata → edata) (p : path) (pe : path * edata) : path * edata :=
  (pe.1, if bool_decide (pe.1 = p) then g pe.2 else pe.2).

Definition at_set (g : edata → edata) (S : jq) (pe : path * edata) : path * edata :=
  (pe.1, if bool_decide (pe.1 ∈ S) then g pe.2 else pe.2).

(** Writes that change nothing when repeated. *)
Class Idem (g : edata → edata) := idem : ∀ e, g (g e) = g e.

(** Selectors that do not test the class [c]. *)
Fixpoint blind_to (c : string) (s : selector) : bool :=
  match s with
  | Class c' => negb (bool_decide (c' = c))
  | And s1 s2 => blind_to c s1 && blind_to c s2
  | _ => true
  end.

(** The text shown by the element at [p]. *)
Definition shown (d : node) (p : path) : option string := textContent <$> get p d.

(** ** Validation marks *)

(** The dropdown at [p] has the empty value. *)
Definition unselected (d : node) (p : path) : bool := bool_decide (JQ.prop d [p] = Some "").

(** The element at [p] carries the highlight. *)
Definition marked (d : node) (p : path) : bool := JQ.hasClass d [p] highlighted.

Definition mark (S : jq) (d : node) : node := each_data (add_class highlighted) S d.
Definition unmark (S : jq) (d : node) : node := each_data (remove_class highlighted) S d.

(** No element of [S] carries the highlight. *)
Definition clean (S : jq) (d : node) : Prop := ∀ p, p ∈ S → marked d p = false.

Definition TrainingExample_message : string := "Student training example is invalid.".
Definition RubricOption_message : string := "Option points are invalid".
Definition RubricCriterion_promptMessage : string := "Criterion prompt is invalid.".

(** What an integer field holds, and whether that is in range. *)
Definition IntField_value (d : node) (f : IntField.t) : jsval :=
  match JQ.val d (IntField.input f) with
  | Some s => IntField.parse s
  | None => JNaN
  end.

Definition IntField_valid (d : node) (f : IntField.t) : bool :=
  IntField.in_range f (IntField_value d f).

(** The option item the container builds on the element at [p]. *)
Definition RubricOption_at (d : node) (p : path) : RubricOption.t :=
  RubricOption.Make [p]
    (IntField.Make (find d [p] (Class "openassessment_criterion_option_points")) 0 999).

Definition RubricOption_field (o : RubricOption.t) : jq :=
  IntField.input (RubricOption.pointsField o).

Definition RubricOption_valid (d : node) (o : RubricOption.t) : bool :=
  IntField_valid d (RubricOption.pointsField o).

Definition RubricOption_errors (d : node) (o : RubricOption.t) : list string :=
  if JQ.hasClass d (IntField.input (RubricOption.pointsField o)) highlighted
  then [RubricOption_message] else [].

(** The option items of a criterion, as its container hands them out. *)
Definition RubricCriterion_options (d : node) (c : RubricCriterion.t) : list RubricOption.t :=
  map (RubricOption_at d)
    (find d (Container.containerElement (RubricCriterion.optionContainer c))
       (Class (Container.containerItemClass (RubricCriterion.optionContainer c)))).

Definition RubricCriterion_promptOk (d : node) (c : RubricCriterion.t) : bool :=
  negb (bool_decide (JQ.val d (RubricCriterion.promptSel c) = Some "")).

(** The constructor keeps the options under a class other than the
    highlight. *)
Definition RubricCriterion_plain (c : RubricCriterion.t) : Prop :=
  Container.containerItemClass (RubricCriterion.optionContainer c) ≠ highlighted.

(** ** Names *)

(** Some sibling carries the name [k] in the attribute [a]. *)
Definition used (d : node) (sel : jq) (a : string) (k : nat) : Prop :=
  ∃ s, s ∈ sel ∧ JQ.attr d [s] a = Some (pretty k).

(** [sel] is a sibling set for the attribute [a]: its elements have a
    parent, and every value of [a] found under a parent of theirs is the
    value of one of them. *)
Definition sibling_set (d : node) (sel : jq) (a : string) : bool :=
  forallb (λ s, negb (bool_decide (s = []))) sel
  && forallb (λ pe, match attrs pe.2 !! a with
                    | Some v => negb (existsb (λ c, below c pe.1) (parent sel))
                                || existsb (λ s, bool_decide (JQ.attr d [s] a = Some v)) sel
                    | None => true
                    end) (elems d).

(** ** Notifications *)

(** [m] fires nothing. *)
Definition quiet {A} (m : M A) : Prop := ∀ w, fired (m w).2 = fired w.

(** [m] changes nothing. *)
Definition pure {A} (m : M A) : Prop := ∀ w, (m w).2 = w.

(** Whatever [m] fires finds the document as [m] leaves it: [m] is done
    with the document before it notifies. *)
Definition settled {A} (m : M A) : Prop :=
  ∀ w, ∃ ns, fired (m w).2 = fired w ++ ns ∧ ∀ n, n ∈ ns → seen n = doc (m w).2.

Definition payload_field (n : notice) (key : string) : option jsval :=
  snd <$> List.find (λ kv, bool_decide (kv.1 = key)) (payload n).

(** The document after [.attr(a, v)] on [S]. *)
Definition write_attr (a : string) (v : jsval) (S : jq) (d : node) : node :=
  match v with
  | JUndefined => d
  | JNull => each_data (drop_attr a) S d
  | _ => each_data (put_attr a (jsString v)) S d
  end.

(** The name [RubricOption.addHandler] generates in [d], and the document
    it leaves. *)
Definition optionName (o : RubricOption.t) (d : node) : string :=
  ItemUtilities.createUniqueName_loop d
    (find d (parent (RubricOption.element o)) (Class "openassessment_criterion_option"))
    "data-option"
    (S (length (find d (parent (RubricOption.element o)) (Class "openassessment_criterion_option"))))
    0.

Definition stamped {host : Host} (o : RubricOption.t) (d : node) : node :=
  let scope := closest d (RubricOption.element o) (Class "openassessment_criterion") in
  let d1 := write_attr "data-criterion" (data_ d scope "criterion") (RubricOption.element o) d in
  let d2 := each_data (put_attr "data-option" (optionName o d)) (RubricOption.element o) d1 in
  each_data (put_attr "value" (optionName o d))
    (find d2 (RubricOption.element o) (Class "openassessment_criterion_option_name")) d2.

(** ** What a method leaves alone *)

(** [e'] is [e] up to the classes listed in [cs]. *)
Definition same_but_classes (cs : list string) (e e' : edata) : Prop :=
  tag e' = tag e ∧ attrs e' = attrs e ∧ entered e' = entered e
  ∧ ∀ c, c ∉ cs → c ∈ classes e' ↔ c ∈ classes e.

(** [m] changes the data of no element but those strictly below an element
    of [S]. *)
Definition confined {A} (S : jq) (m : M A) : Prop :=
  ∀ w q, (∀ e, e ∈ S → below e q = false) → data (doc (m w).2) q = data (doc w) q.

(** ** The document after a write *)

(** The document with the data of every element rewritten by a function of
    its path: the form every sequence of class and attribute writes takes. *)
Fixpoint map_data (f : path → edata → edata) (n : node) : node :=
  match n with
  | Text s => Text s
  | Elem e ks =>
      Elem (f [] e)
        ((fix go (i : nat) (ks : list node) : list node :=
            match ks with
            | [] => []
            | k :: ks' => map_data (λ q, f (i :: q)) k :: go (S i) ks'
            end) 0 ks)
  end.

(** The same over a list of children, the first of them at index [i]. *)
Fixpoint map_data_kids (f : path → edata → edata) (i : nat) (ks : list node) : list node :=
  match ks with
  | [] => []
  | k :: ks' => map_data (λ q, f (i :: q)) k :: map_data_kids f (S i) ks'
  end.

(** Where the element now at [q] was before the [i]-th child of the element
    at [par] left: the children after it have each moved up one place. *)
Fixpoint origin (par : path) (i : nat) (q : path) : path :=
  match par, q with
  | _, [] => []
  | [], j :: r => (if i <=? j then S j else j) :: r
  | k :: par', j :: q' => if bool_decide (k = j) then j :: origin par' i q' else q
  end.

(** ** Names in use *)

(** Some element below a parent of the selection carries the name [k] in
    the attribute [a]: what the loop of [createUniqueName] tests. *)
Definition taken (d : node) (sel : jq) (a : string) (k : nat) : bool :=
  negb (length (find d (parent sel) (Attr a (pretty k))) =? 0).

(** No two elements of [sel] carry the same value of the attribute [a]. *)
Definition distinct_names (d : node) (sel : jq) (a : string) : Prop :=
  ∀ s s' v, s ∈ sel → s' ∈ sel →
            JQ.attr d [s] a = Some v → JQ.attr d [s'] a = Some v → s = s'.

(** ** The field values of the examples *)

Definition AIExample_message : string := "An Example Based Assessment Example is invalid.".

(** The [options_selected] array of the object [getFieldValues] returns. *)
Definition options_selected (o : json) : list json :=
  match o with
  | JObj fs =>
      match List.find (λ kv, bool_decide (fst kv = "options_selected")) fs with
      | Some (_, JArr l) => l
      | _ => []
      end
  | _ => []
  end.

(** What [getFieldValues] reports for the dropdown at [p]. *)
Definition selection {host : Host} (d : node) (p : path) : json :=
  JObj [("criterion", JV (data_ d [p] "criterion")); ("option", JV (of_text (JQ.prop d [p])))].

(** * Sample pages *)

(** A page in English without a translation catalogue. *)
Definition english : Host := {|
  gettext := id;
  ngettext one many n := if bool_decide (jsString n = "1") then one else many;
  isNaN v := match v with
             | JInt _ | JNull | JBool _ => false
             | JStr s => bool_decide (IntField.parse s = JNaN)
             | _ => true
             end;
  dataAttr := JStr
|}.

Definition html (t : string) (cls : list string) (props : list (string * string))
    (kids : list node) : node :=
  Elem (Edata t (list_to_map props) cls None) kids.

(** A form control holding [typed]. *)
Definition html_field (t : string) (cls : list string) (props : list (string * string))
    (typed : string) (kids : list node) : node :=
  Elem (Edata t (list_to_map props) cls (Some typed)) kids.

Definition named (a : string) (name : option string) : list (string * string) :=
  match name with
  | Some n => [(a, n)]
  | None => []
  end.

(** The example editor: a menu and the examples it leads to.  The fourth
    pair has just been inserted and is not named yet. *)
Definition menu_item (name : option string) (label : string) : node :=
  html "li" ["openassessment_ai_example_menu_item"] (named "data-example" name)
    [html "h2" [] [] [Text label]].

Definition ai_example (name : option string) (label : string) : node :=
  html "div" ["openassessment_ai_example"] (named "data-example" name)
    [html "div" ["openassessment_ai_example_label_field"] []
       [html_field "input" [] [] label []]].

Definition ai_editor : node :=
  html "div" [] [("id", "openassessment_ai_editor_menu_and_editor")]
    [html "ul" [] []
       [menu_item (Some "0") "First"; menu_item (Some "1") "Second";
        menu_item (Some "2") "Third"; menu_item None ""];
     html "div" [] []
       [ai_example (Some "0") "First"; ai_example (Some "1") "Second";
        ai_example (Some "2") "Foo"; ai_example None ""]].

(** A rubric with one criterion, whose prompt is empty, and three options:
    two named ones and one just inserted. *)
Definition rubric_option (name : option string) (points : string) : node :=
  html "li" ["openassessment_criterion_option"] (named "data-option" name)
    [html "input" ["openassessment_criterion_option_name"] (named "value" name) [];
     html_field "input" ["openassessment_criterion_option_label"] [] "Good" [];
     html_field "input" ["openassessment_criterion_option_points"] [] points [];
     html_field "textarea" ["openassessment_criterion_option_explanation"] [] "" []].

Definition rubric : node :=
  html "ul" [] []
    [html "li" ["openassessment_criterion"] [("data-criterion", "0")]
       [html "input" ["openassessment_criterion_name"] [("value", "0")] [];
        html_field "input" ["openassessment_criterion_label"] [] "Ideas" [];
        html_field "textarea" ["openassessment_criterion_prompt"] [] "" [];
        html "ul" ["openassessment_criterion_option_list"] []
          [rubric_option (Some "0") "1000"; rubric_option (Some "2") "5";
           rubric_option None "0"]]].

(** A training example with two dropdowns, the first still unselected. *)
Definition dropdown (criterion chosen : string) : node :=
  html_field "select" ["openassessment_training_example_criterion_option"]
    [("data-criterion", criterion)] chosen
    [html "option" [] [("value", "")] [Text ""];
     html "option" [] [("value", "3"); ("data-points", "5"); ("data-label", "")] [Text ""]].

Definition training_example : node :=
  html "div" ["openassessment_training_example"] []
    [html_field "textarea" ["openassessment_training_example_essay"] [] "An essay." [];
     dropdown "0" ""; dropdown "1" "3"].

(** An editor without examples yet, the example container, and the
    template it copies. *)
Definition empty_editor : node :=
  html "div" [] [("id", "openassessment_ai_editor_menu_and_editor")]
    [html "ul" [] [] [];
     html "div" [] [] [];
     ai_example None ""].

Definition example_container : Container.t :=
  Container.Make [[1]] [[2]] "openassessment_ai_example".

Definition add_example : M unit :=
  Container.add (T := AIExample.t) (H := AIExample.item (host := english)) example_container.

(** The example editor as the learner sees it: a menu of tabs, and below
    the background screen the panels of the examples, of which one is
    shown. *)
Definition tab (name : string) (faded : bool) : node :=
  html "li"
    (["openassessment_ai_example_menu_item"; "openassessment_ai_menu_single_visibility"]
       ++ if faded then ["is--faded"] else [])
    [("data-example", name)] [html "h2" [] [] [Text name]].

Definition panel (name : string) (hidden : bool) : node :=
  html "div"
    (["openassessment_ai_example"; "openassessment_ai_editor_single_visibility"]
       ++ if hidden then ["is--hidden"] else [])
    [("data-example", name)] [].

Definition ai_screen : node :=
  html "div" [] [("id", "openassessment_ai_editor_menu_and_editor")]
    [html "ul" [] [] [tab "0" false; tab "1" true];
     html "div" [] []
       [html "div" ["openassessment_ai_editor_single_visibility"; "is--hidden"]
          [("id", "openassessment_ai_example_editor_background")] [];
        panel "0" false; panel "1" true]].

(** A rubric of two named criteria and a third just inserted. *)
Definition rubric_criterion (name : option string) (label : string) : node :=
  html "li" ["openassessment_criterion"] (named "data-criterion" name)
    [html "input" ["openassessment_criterion_name"] (named "value" name) [];
     html_field "input" ["openassessment_criterion_label"] [] label [];
     html_field "textarea" ["openassessment_criterion_prompt"] [] "" [];
     html "ul" ["openassessment_criterion_option_list"] [] []].

Definition criteria_list : node :=
  html "ul" [] [] [rubric_criterion (Some "0") "Ideas"; rubric_criterion (Some "1") "Content";
     rubric_criterion None ""].

(** A page with a heading above the sample training example. *)
Definition training_page : node :=
  html "div" [] [] [html "h1" [] [] [Text "Examples"]; training_example].

(** * Facts *)

(** ** Lists and strings *)

Lemma filter_filter_same {A} (f : A → bool) l :
  List.filter f (List.filter f l) = List.filter f l.
Proof.
  induction l as [|a l IH]; simpl; [done|].
  destruct (f a) eqn:Hf; simpl; rewrite ?Hf, IH; done.
Qed.

Lemma forallb_negb_false {A} (f : A → bool) l :
  forallb (λ a, negb (f a)) l = false ↔ ∃ a, a ∈ l ∧ f a = true.
Proof.
  induction l as [|a l IH]; simpl.
  - split; [done|]. by intros (? & ?%elem_of_nil & _).
  - rewrite andb_false_iff, IH, negb_false_iff. split.
    + intros [?|(b & ? & ?)]; [exists a|exists b]; split; try done; by constructor.
    + intros (b & [->|?]%elem_of_cons & ?); [by left|right; eauto].
Qed.

Lemma filter_nil_iff {A} (f : A → bool) l :
  List.filter f l = [] ↔ ∀ a, a ∈ l → f a = false.
Proof.
  induction l as [|a l IH]; simpl.
  - split; [|done]. by intros _ ? ?%elem_of_nil.
  - destruct (f a) eqn:Ha.
    + split; [done|]. intros H. specialize (H a). rewrite Ha in H.
      discriminate H. by left.
    + rewrite IH. split.
      * intros H b [->|?]%elem_of_cons; auto.
      * intros H b ?. apply H. by right.
Qed.

Lemma flat_map_nil {A B} (f : A → list B) l :
  (∀ a, a ∈ l → f a = []) → flat_map f l = [].
Proof.
  induction l as [|a l IH]; intros Hf; simpl; [done|].
  rewrite Hf, IH; [done| |by left]. intros. apply Hf. by right.
Qed.

Lemma string_app_empty s : s +:+ "" = s.
Proof.
  induction s as [|c s IH]; [done|].
  change (String c (s +:+ "") = String c s). by rewrite IH.
Qed.

(** ** The document tree *)

Lemma elems_Elem e ks : elems (Elem e ks) = ([], e) :: elems_kids 0 ks.
Proof.
  reflexivity.
Qed.

Lemma elem_of_elems_kids o ks p e :
  (p, e) ∈ elems_kids o ks ↔
  ∃ i k p', p = (o + i) :: p' ∧ ks !! i = Some k ∧ (p', e) ∈ elems k.
Proof.
  revert o. induction ks as [|k ks IH]; intros o; simpl.
  - split; [by intros ?%elem_of_nil|]. by intros (i & k & p' & _ & ? & _).
  - rewrite elem_of_app, IH, list_elem_of_fmap. split.
    + intros [([q e'] & [= -> ->] & Hin)|(i & k' & p' & -> & Hk & Hin)].
      * exists 0, k, q. by rewrite Nat.add_0_r.
      * exists (S i), k', p'. split_and!; [f_equal; lia|done..].
    + intros ([|i] & k' & p' & -> & Hk & Hin); simpl in Hk.
      * left. simplify_eq. exists (p', e). by rewrite Nat.add_0_r.
      * right. exists i, k', p'. split_and!; [f_equal; lia|done..].
Qed.

(** The elements listed are the elements of the tree. *)
Lemma elem_of_elems n p e : (p, e) ∈ elems n ↔ data n p = Some e.
Proof.
  revert p. induction n as [s|e0 ks IH] using node_ind; intros p.
  - unfold data. destruct p; simpl; split; try done; by intros ?%elem_of_nil.
  - rewrite elems_Elem, elem_of_cons, elem_of_elems_kids. unfold data.
    destruct p as [|i p]; simpl.
    + split; [by intros [[= ->]|(?&?&?&?&_)]|]. intros [= ->]. by left.
    + split.
      * intros [?|(j & k & p' & [= -> ->] & Hk & Hin)]; [done|].
        rewrite Hk. rewrite Forall_forall in IH.
        apply (IH k) in Hin; [|by eapply list_elem_of_lookup_2, Hk].
        exact Hin.
      * destruct (ks !! i) as [k|] eqn:Hk; [|done]. intros Hd. right.
        exists i, k, p. split_and!; [done..|].
        rewrite Forall_forall in IH. apply IH; [|done].
        by eapply list_elem_of_lookup_2, Hk.
Qed.

Lemma data_update g p n q :
  data (update (on_data g) p n) q
  = if bool_decide (q = p) then g <$> data n q else data n q.
Proof.
  unfold data. revert n q. induction p as [|i p IH]; intros n q; simpl.
  - case_bool_decide as Hq; subst.
    + by destruct n.
    + destruct q as [|j q]; [done|]. by destruct n.
  - destruct n as [s|e ks]; simpl.
    + case_bool_decide; [|done]. by subst.
    + destruct q as [|j q]; simpl; [by repeat case_bool_decide|].
      destruct (decide (j = i)) as [->|Hji].
      * rewrite list_lookup_alter_eq. destruct (ks !! i) as [k|]; simpl.
        -- rewrite IH. repeat case_bool_decide; simplify_eq; done.
        -- by case_bool_decide.
      * rewrite list_lookup_alter_ne by done.
        case_bool_decide; simplify_eq; done.
Qed.

Lemma map_at_path_other g p l :
  (∀ pe, pe ∈ l → pe.1 ≠ p) → map (at_path g p) l = l.
Proof.
  induction l as [|pe l IH]; intros Hl; simpl; [done|].
  rewrite IH by (intros; apply Hl; by right). f_equal.
  destruct pe as [q e]. unfold at_path; simpl.
  rewrite bool_decide_eq_false_2; [done|]. apply (Hl (q, e)). by left.
Qed.

Lemma elems_kids_update g p' ks :
  Forall (λ k, ∀ p, elems (update (on_data g) p k) = map (at_path g p) (elems k)) ks →
  ∀ o i, elems_kids o (alter (update (on_data g) p') i ks)
         = map (at_path g ((o + i) :: p')) (elems_kids o ks).
Proof.
  induction 1 as [|k ks Hk _ IH]; intros o i; [done|].
  destruct i as [|i]; simpl; rewrite map_app.
  - rewrite Hk, Nat.add_0_r, !map_map. f_equal.
    + apply map_ext. intros [q e]. unfold at_path; simpl.
      f_equal. repeat case_bool_decide; simplify_eq; done.
    + symmetry. apply map_at_path_other. intros [q e] Hin.
      apply elem_of_elems_kids in Hin as (j & ? & ? & -> & _). simpl.
      intros [= ?]. lia.
  - f_equal.
    + symmetry. apply map_at_path_other. intros [q e] Hin.
      apply list_elem_of_fmap in Hin as ([q' e'] & [= -> ->] & _). simpl.
      intros [= ?]. lia.
    + change (list_alter ?f ?i ?l) with (alter f i l). rewrite IH. by replace (S o + i) with (o + S i) by lia.
Qed.

Lemma elems_update g p n :
  elems (update (on_data g) p n) = map (at_path g p) (elems n).
Proof.
  revert p. induction n as [s|e ks IH] using node_ind; intros p.
  - by destruct p.
  - destruct p as [|i p]; simpl update; rewrite !elems_Elem; simpl.
    + f_equal. symmetry. apply map_at_path_other. intros [q e'] Hin.
      by apply elem_of_elems_kids in Hin as (j & ? & ? & -> & _).
    + f_equal. by rewrite (elems_kids_update g p ks IH 0 i).
Qed.

Lemma get_update_same f p n : get p (update f p n) = f <$> get p n.
Proof.
  revert n. induction p as [|i p IH]; intros n; [done|].
  destruct n as [s|e ks]; simpl; [done|].
  rewrite list_lookup_alter_eq. destruct (ks !! i); simpl; [apply IH|done].
Qed.

Lemma get_update_diverge f p n q :
  prefixb p q = false → prefixb q p = false → get q (update f p n) = get q n.
Proof.
  revert n q. induction p as [|i p IH]; intros n q Hpq Hqp; [done|].
  destruct q as [|j q]; [done|]. destruct n as [s|e ks]; simpl in *; [done|].
  destruct (decide (i = j)) as [->|Hij].
  - rewrite bool_decide_eq_true_2 in Hpq, Hqp by done. simpl in *.
    rewrite list_lookup_alter_eq. destruct (ks !! j); simpl; [by apply IH|done].
  - by rewrite list_lookup_alter_ne.
Qed.

Lemma data_update_outside f p n q :
  prefixb p q = false → data (update f p n) q = data n q.
Proof.
  unfold data. revert n q. induction p as [|i p IH]; intros n q Hpq; [done|].
  destruct n as [s|e ks]; [done|]. destruct q as [|j q]; simpl in *; [done|].
  destruct (decide (i = j)) as [->|Hij].
  - rewrite bool_decide_eq_true_2 in Hpq by done. simpl in *.
    rewrite list_lookup_alter_eq. destruct (ks !! j); simpl; [by apply IH|done].
  - by rewrite list_lookup_alter_ne.
Qed.

(** ** Paths *)

Lemma prefixb_trans p q r : prefixb p q = true → prefixb q r = true → prefixb p r = true.
Proof.
  revert q r. induction p as [|i p IH]; intros [|j q] [|k r]; simpl; try done.
  intros [Hij Hpq]%andb_true_iff [Hjk Hqr]%andb_true_iff.
  apply bool_decide_eq_true_1 in Hij, Hjk. subst.
  rewrite bool_decide_eq_true_2 by done. simpl. by eapply IH.
Qed.

(** Two ancestors of one element lie on one line. *)
Lemma prefixb_comparable p q r :
  prefixb p r = true → prefixb q r = true → prefixb p q = true ∨ prefixb q p = true.
Proof.
  revert q r. induction p as [|i p IH]; intros [|j q] [|k r]; simpl; try done; eauto.
  intros [Hik Hpr]%andb_true_iff [Hjk Hqr]%andb_true_iff.
  apply bool_decide_eq_true_1 in Hik, Hjk. subst.
  rewrite !bool_decide_eq_true_2 by done. simpl. by eapply IH.
Qed.

Lemma below_prefixb p q : below p q = true → prefixb p q = true.
Proof. by intros [? _]%andb_true_iff. Qed.

Lemma prefixb_removelast (p : path) : prefixb (removelast p) p = true.
Proof.
  induction p as [|i [|j p] IH]; simpl in *; [done..|].
  by rewrite bool_decide_eq_true_2.
Qed.

Lemma removelast_ne (p : path) : p ≠ [] → removelast p ≠ p.
Proof.
  intros Hp Heq. apply (f_equal length) in Heq.
  destruct p as [|i p] using rev_ind; [done|].
  rewrite removelast_last, length_app in Heq. simpl in Heq. lia.
Qed.

Lemma below_removelast (p : path) : p ≠ [] → below (removelast p) p = true.
Proof.
  intros Hp. unfold below. rewrite prefixb_removelast. simpl.
  apply negb_true_iff, bool_decide_eq_false_2. by apply removelast_ne.
Qed.

(** ** Writes to the data of elements *)

#[global] Instance add_class_idem c : Idem (add_class c).
Proof.
  intros e. unfold add_class. destruct (bool_decide (c ∈ classes e)) eqn:Hc; simpl.
  - by rewrite Hc.
  - rewrite bool_decide_eq_true_2; [done|]. set_solver.
Qed.

#[global] Instance remove_class_idem c : Idem (remove_class c).
Proof. intros e. unfold remove_class; simpl. by rewrite filter_filter_same. Qed.

#[global] Instance put_attr_idem a v : Idem (put_attr a v).
Proof. intros e. unfold put_attr; simpl. by rewrite insert_insert_eq. Qed.

#[global] Instance drop_attr_idem a : Idem (drop_attr a).
Proof. intros e. unfold drop_attr; simpl. by rewrite delete_delete_eq. Qed.

#[global] Instance put_value_idem v : Idem (put_value v).
Proof.
  intros e. unfold put_value. destruct (is_control (tag e)) eqn:Hc; simpl; [|by rewrite Hc].
  by rewrite Hc.
Qed.

Lemma each_data_app g S1 S2 d :
  each_data g (S1 ++ S2) d = each_data g S2 (each_data g S1 d).
Proof. unfold each_data. by rewrite foldl_app. Qed.

Lemma elems_each_data g `{!Idem g} S d :
  elems (each_data g S d) = map (at_set g S) (elems d).
Proof.
  revert d. induction S as [|p S IH]; intros d.
  - simpl. symmetry. rewrite <-(map_id (elems d)) at 2. apply map_ext.
    intros [q e]. unfold at_set; simpl. done.
  - change (each_data g (p :: S) d) with (each_data g S (update (on_data g) p d)).
    rewrite IH, elems_update, map_map. apply map_ext. intros [q e].
    unfold at_set, at_path; simpl. f_equal.
    repeat case_bool_decide; simplify_eq; try done; try set_solver; by rewrite idem.
Qed.

Lemma data_each_data g `{!Idem g} S d q :
  data (each_data g S d) q = if bool_decide (q ∈ S) then g <$> data d q else data d q.
Proof.
  revert d. induction S as [|p S IH]; intros d.
  - simpl. by rewrite ?bool_decide_eq_false_2 by set_solver.
  - change (each_data g (p :: S) d) with (each_data g S (update (on_data g) p d)).
    rewrite IH, data_update.
    repeat case_bool_decide; simplify_eq; try done; try set_solver.
    destruct (data d p); simpl; [|done]. by rewrite idem.
Qed.

Lemma matches_at_each_data g `{!Idem g} S d s q :
  matches_at (each_data g S d) s q
  = match data d q with
    | Some e => matches s (if bool_decide (q ∈ S) then g e else e)
    | None => false
    end.
Proof.
  unfold matches_at. rewrite data_each_data by done.
  case_bool_decide; by destruct (data d q).
Qed.

Lemma matches_add_class_same c e : matches (Class c) (add_class c e) = true.
Proof.
  unfold add_class. case_bool_decide as Hc; simpl.
  - by rewrite bool_decide_eq_true_2.
  - rewrite bool_decide_eq_true_2; [done|]. set_solver.
Qed.

Lemma matches_remove_class_same c e : matches (Class c) (remove_class c e) = false.
Proof.
  simpl. apply bool_decide_eq_false_2. intros Hin.
  apply list_elem_of_In, filter_In in Hin as [_ Hc].
  by rewrite bool_decide_eq_true_2 in Hc.
Qed.

Lemma matches_add_class c s e :
  blind_to c s = true → matches s (add_class c e) = matches s e.
Proof.
  unfold add_class. destruct (bool_decide (c ∈ classes e)) eqn:Hc; [done|].
  induction s; simpl; intros Hb; try done.
  - apply negb_true_iff, bool_decide_eq_false_1 in Hb.
    apply bool_decide_ext. set_solver.
  - apply andb_true_iff in Hb as [??]. by rewrite IHs1, IHs2.
Qed.

Lemma matches_remove_class c s e :
  blind_to c s = true → matches s (remove_class c e) = matches s e.
Proof.
  induction s; simpl; intros Hb; try done.
  - apply negb_true_iff, bool_decide_eq_false_1 in Hb.
    apply bool_decide_ext. rewrite !list_elem_of_In, filter_In.
    rewrite negb_true_iff, bool_decide_eq_false. naive_solver.
  - apply andb_true_iff in Hb as [??]. by rewrite IHs1, IHs2.
Qed.

Lemma matches_put_value s v e : matches s (put_value v e) = matches s e.
Proof.
  unfold put_value. destruct (is_control (tag e)); [|done].
  induction s; simpl; try done. by rewrite IHs1, IHs2.
Qed.

Lemma prop_value_add_class c e : prop_value (add_class c e) = prop_value e.
Proof. unfold add_class. by case_bool_decide. Qed.

Lemma prop_value_put_value v e :
  is_Some (prop_value e) → prop_value (put_value v e) = Some v.
Proof.
  unfold prop_value, put_value. destruct (is_control (tag e)) eqn:Hc; simpl.
  - by rewrite Hc.
  - by intros [? ?].
Qed.

(** ** What the jQuery calls return *)

Lemma attr_singleton d s a :
  JQ.attr d [s] a = data d s ≫= λ e, attrs e !! a.
Proof. done. Qed.

Lemma elem_of_find d ctx s q :
  q ∈ find d ctx s ↔ matches_at d s q = true ∧ ∃ c, c ∈ ctx ∧ below c q = true.
Proof.
  unfold find, matches_at. rewrite list_elem_of_fmap. split.
  - intros ([q' e] & -> & Hin). apply list_elem_of_In, filter_In in Hin as [Hin Hb].
    apply list_elem_of_In, elem_of_elems in Hin. simpl in *. rewrite Hin.
    apply andb_true_iff in Hb as [Hm Hc]. split; [done|].
    apply existsb_exists in Hc as (c & Hc & ?). exists c. by rewrite list_elem_of_In.
  - intros [Hm (c & Hc & Hb)]. destruct (data d q) as [e|] eqn:Hd; [|done].
    exists (q, e). split; [done|]. apply list_elem_of_In, filter_In. split.
    + by apply list_elem_of_In, elem_of_elems.
    + simpl. rewrite Hm. simpl. apply existsb_exists. exists c. by rewrite <-list_elem_of_In.
Qed.

Lemma find_nil d s : find d [] s = [].
Proof.
  unfold find. induction (elems d) as [|pe l IH]; simpl; [done|].
  by rewrite andb_false_r.
Qed.

Lemma find_below d ctx s q : q ∈ find d ctx s → ∃ c, c ∈ ctx ∧ below c q = true.
Proof. by intros [_ ?]%elem_of_find. Qed.

Lemma elem_of_find_data d ctx s p : p ∈ find d ctx s → is_Some (data d p).
Proof.
  intros [Hm _]%elem_of_find. unfold matches_at in Hm. destruct (data d p); [eauto|done].
Qed.

Lemma find_ctx_ext d ctx1 ctx2 s :
  (∀ c, c ∈ ctx1 ↔ c ∈ ctx2) → find d ctx1 s = find d ctx2 s.
Proof.
  intros Hctx. unfold find. f_equal. apply filter_ext. intros [q e]. simpl. f_equal.
  apply eq_true_iff_eq. rewrite !existsb_exists.
  setoid_rewrite <-list_elem_of_In. by setoid_rewrite Hctx.
Qed.

Lemma elem_of_find_And d ctx c a v q :
  q ∈ find d ctx (And (Class c) (Attr a v))
  ↔ q ∈ find d ctx (Class c) ∧ JQ.attr d [q] a = Some v.
Proof.
  rewrite !elem_of_find, attr_singleton. unfold matches_at.
  destruct (data d q) as [e|]; simpl; [|naive_solver].
  rewrite andb_true_iff, !bool_decide_eq_true. naive_solver.
Qed.

(** A change of data that a selector does not see leaves [find] as it was. *)
Lemma find_each_data g `{!Idem g} S d ctx s :
  (∀ e, matches s (g e) = matches s e) →
  find (each_data g S d) ctx s = find d ctx s.
Proof.
  intros Hg. unfold find. rewrite elems_each_data by done.
  induction (elems d) as [|[q e] l IH]; simpl; [done|].
  replace (matches s (if bool_decide (q ∈ S) then g e else e)) with (matches s e)
    by (case_bool_decide; by rewrite ?Hg).
  destruct (matches s e && existsb (λ c, below c q) ctx); simpl; by rewrite IH.
Qed.

Lemma elem_of_parent (sel : jq) s : s ≠ [] → s ∈ sel → removelast s ∈ parent sel.
Proof.
  intros Hs Hin. unfold parent. apply elem_of_remove_dups, list_elem_of_omap.
  exists s. split; [done|]. by destruct s.
Qed.

#[global] Arguments JQ.hasClass : simpl never.
#[global] Arguments JQ.prop : simpl never.
#[global] Arguments JQ.val : simpl never.
#[global] Arguments JQ.attr : simpl never.
#[global] Arguments JQ.find : simpl never.
#[global] Arguments JQ.parent : simpl never.
#[global] Arguments JQ.closest : simpl never.
#[global] Arguments JQ.each_data : simpl never.

Lemma prop_each_class g S d ctx :
  Idem g → (∀ e, prop_value (g e) = prop_value e) →
  JQ.prop (each_data g S d) ctx = JQ.prop d ctx.
Proof.
  intros ? Hg. unfold JQ.prop. destruct ctx as [|p ctx]; simpl; [done|].
  rewrite data_each_data by done. case_bool_decide; [|done].
  destruct (data d p); simpl; [|done]. by rewrite Hg.
Qed.

Lemma val_each_class g S d ctx :
  Idem g → (∀ e, prop_value (g e) = prop_value e) →
  JQ.val (each_data g S d) ctx = JQ.val d ctx.
Proof.
  intros ? Hg. unfold JQ.val. destruct ctx as [|p ctx]; simpl; [done|].
  rewrite data_each_data by done. case_bool_decide; [|done].
  destruct (data d p); simpl; [|done]. by rewrite Hg.
Qed.

Lemma val_setVal d ctx v :
  is_Some (JQ.prop d ctx) → JQ.val (each_data (put_value v) ctx d) ctx = Some (strip_cr v).
Proof.
  unfold JQ.prop, JQ.val. destruct ctx as [|p ctx]; simpl; [by intros [? ?]|].
  rewrite data_each_data by apply _. rewrite bool_decide_eq_true_2 by by left.
  destruct (data d p) as [e|]; simpl; [|by intros [? ?]].
  intros He. by rewrite prop_value_put_value.
Qed.

Lemma prop_setVal v d p q :
  JQ.prop (each_data (put_value v) [p] d) [q]
  = if bool_decide (q = p) then data d p ≫= λ e, prop_value (put_value v e)
    else JQ.prop d [q].
Proof.
  unfold JQ.prop; simpl. rewrite data_each_data by apply _.
  case_bool_decide as Hq.
  - apply list_elem_of_singleton in Hq as ->. rewrite bool_decide_eq_true_2 by done.
    by destruct (data d p).
  - rewrite bool_decide_eq_false_2; [done|]. intros ->. apply Hq. by left.
Qed.

Lemma val_empty_head d ctx :
  JQ.val d ctx = Some "" → ∃ p, head ctx = Some p ∧ is_Some (data d p).
Proof.
  unfold JQ.val. destruct ctx as [|p ctx]; simpl; [done|].
  destruct (data d p) eqn:Hd; [|done]. eauto.
Qed.

Lemma attr_put_same a v S d p :
  p ∈ S → is_Some (data d p) → JQ.attr (each_data (put_attr a v) S d) [p] a = Some v.
Proof.
  intros Hp [e He]. rewrite attr_singleton, data_each_data by apply _.
  rewrite bool_decide_eq_true_2, He by done. simpl. apply lookup_insert_eq.
Qed.

Lemma attr_put_other a b v S d p :
  a ≠ b → JQ.attr (each_data (put_attr a v) S d) [p] b = JQ.attr d [p] b.
Proof.
  intros Hab. rewrite !attr_singleton, data_each_data by apply _.
  case_bool_decide; [|done]. destruct (data d p); simpl; [|done].
  by apply lookup_insert_ne.
Qed.

Lemma find_write_attr a v S d ctx c :
  find (write_attr a v S d) ctx (Class c) = find d ctx (Class c).
Proof. destruct v; simpl; try done; by apply find_each_data; [apply _|]. Qed.

Lemma data_write_attr_is_Some a v S d q :
  is_Some (data d q) → is_Some (data (write_attr a v S d) q).
Proof.
  intros [e He]. destruct v; simpl; rewrite ?data_each_data by apply _;
    rewrite ?He; try case_bool_decide; simpl; eauto.
Qed.

Lemma shown_setText s p d :
  is_Some (data d p) → shown (update (on_kids (λ _, [Text s])) p d) p = Some s.
Proof.
  unfold shown, data. rewrite get_update_same.
  destruct (get p d) as [[?|e ks]|]; simpl; try by intros [? ?].
  intros _. by rewrite string_app_empty.
Qed.

(** ** Marks *)

Lemma mark_app S1 S2 d : mark (S1 ++ S2) d = mark S2 (mark S1 d).
Proof. apply each_data_app. Qed.

Lemma unmark_app S1 S2 d : unmark (S1 ++ S2) d = unmark S2 (unmark S1 d).
Proof. apply each_data_app. Qed.

Lemma val_mark S d ctx : JQ.val (mark S d) ctx = JQ.val d ctx.
Proof. apply val_each_class; [apply _|apply prop_value_add_class]. Qed.

Lemma find_mark S d ctx s :
  blind_to highlighted s = true → find (mark S d) ctx s = find d ctx s.
Proof. intros. apply find_each_data; [apply _|]. intros. by apply matches_add_class. Qed.

Lemma find_unmark S d ctx s :
  blind_to highlighted s = true → find (unmark S d) ctx s = find d ctx s.
Proof. intros. apply find_each_data; [apply _|]. intros. by apply matches_remove_class. Qed.

Lemma unselected_mark S d p : unselected (mark S d) p = unselected d p.
Proof.
  unfold unselected, mark. rewrite prop_each_class; [done|apply _|].
  apply prop_value_add_class.
Qed.

Lemma unselected_data d p : unselected d p = true → is_Some (data d p).
Proof.
  unfold unselected, JQ.prop. intros H%bool_decide_eq_true_1. simpl in H.
  destruct (data d p); [eauto|done].
Qed.

Lemma marked_mark S d p :
  marked (mark S d) p = marked d p || (bool_decide (p ∈ S) && bool_decide (is_Some (data d p))).
Proof.
  unfold marked, mark, hasClass; simpl. rewrite !orb_false_r.
  rewrite matches_at_each_data by apply _. unfold matches_at.
  destruct (data d p) as [e|] eqn:He; [|by rewrite andb_false_r].
  rewrite (bool_decide_eq_true_2 (is_Some _)) by eauto. rewrite andb_true_r.
  case_bool_decide; [|by rewrite orb_false_r].
  rewrite matches_add_class_same. by rewrite orb_true_r.
Qed.

Lemma marked_unmark S d p :
  marked (unmark S d) p = marked d p && negb (bool_decide (p ∈ S)).
Proof.
  unfold marked, unmark, hasClass; simpl. rewrite !orb_false_r.
  rewrite matches_at_each_data by apply _. unfold matches_at.
  destruct (data d p) as [e|] eqn:He; [|done].
  case_bool_decide; simpl; [|by rewrite andb_true_r].
  rewrite andb_false_r. apply matches_remove_class_same.
Qed.

Lemma marked_mark_mono S d p : marked d p = true → marked (mark S d) p = true.
Proof. intros Hm. by rewrite marked_mark, Hm. Qed.

Lemma marked_setVal v S d q : marked (each_data (put_value v) S d) q = marked d q.
Proof.
  unfold marked, JQ.hasClass; simpl. rewrite matches_at_each_data by apply _.
  unfold matches_at. destruct (data d q); [|done].
  case_bool_decide; by rewrite ?matches_put_value.
Qed.

Lemma hasClass_marked d ctx :
  JQ.hasClass d ctx highlighted = existsb (marked d) ctx.
Proof.
  unfold marked, JQ.hasClass. induction ctx as [|p ctx IH]; simpl; [done|].
  by rewrite IH, orb_false_r.
Qed.

Lemma hasClass_mark_mono S d ctx :
  JQ.hasClass d ctx highlighted = true → JQ.hasClass (mark S d) ctx highlighted = true.
Proof.
  rewrite !hasClass_marked. intros (p & ? & ?)%existsb_exists.
  apply existsb_exists. exists p. split; [done|]. by apply marked_mark_mono.
Qed.

Lemma clean_unmark S d : clean S (unmark S d).
Proof.
  intros p Hp. rewrite marked_unmark, bool_decide_eq_true_2 by done.
  by rewrite andb_false_r.
Qed.

Lemma clean_app S1 S2 d : clean (S1 ++ S2) d ↔ clean S1 d ∧ clean S2 d.
Proof. unfold clean. setoid_rewrite elem_of_app. naive_solver. Qed.

Lemma clean_hasClass S d : clean S d → JQ.hasClass d S highlighted = false.
Proof.
  intros Hc. rewrite hasClass_marked. apply not_true_is_false.
  intros (p & Hp & Hm)%existsb_exists. apply list_elem_of_In in Hp.
  by rewrite Hc in Hm.
Qed.

Lemma clean_filter S d : clean S d → List.filter (marked d) S = [].
Proof. intros Hc. by apply filter_nil_iff. Qed.

Lemma clean_flat_map {A} (f : A → jq) l d :
  clean (flat_map f l) d ↔ ∀ a, a ∈ l → clean (f a) d.
Proof.
  unfold clean. split.
  - intros Hc a Ha p Hp. apply Hc. apply list_elem_of_In, in_flat_map.
    exists a. by rewrite <-!list_elem_of_In.
  - intros Hc p (a & Ha & Hp)%list_elem_of_In%in_flat_map.
    apply (Hc a); by apply list_elem_of_In.
Qed.

(** ** Tactics *)

(** Decide a closed statement by evaluation. *)
Ltac evaluate := apply (bool_decide_unpack _); vm_compute; exact I.

(** Split membership in a closed list into its cases. *)
Ltac cases H :=
  vm_compute in H; repeat (apply elem_of_cons in H as [->|H]);
  [..|by apply elem_of_nil in H].

(** Unfold the state monad. *)
Ltac run := unfold mbind, M_bind, mret, M_ret, gets, modify in *; simpl in *.

(** ** Loops in the state monad *)

Lemma forEach_each_data g l w :
  forEach (λ p, modify (each_data g [p])) l w = (tt, World (each_data g l (doc w)) (fired w)).
Proof.
  revert w. induction l as [|p l IH]; intros [d f]; [done|].
  simpl. run. by rewrite IH.
Qed.

(** A loop that, element by element, tests [ok] and marks what fails. *)
Lemma foldEach_mark {A} (step : bool → A → M bool) (ok : A → bool) (marks : A → jq) d f :
  (∀ a b S, step b a (World (mark S d) f)
            = (ok a && b, World (mark (S ++ (if ok a then [] else marks a)) d) f)) →
  ∀ l b S, foldEach step b l (World (mark S d) f)
           = (forallb ok l && b,
              World (mark (S ++ flat_map (λ a, if ok a then [] else marks a) l) d) f).
Proof.
  intros Hstep. induction l as [|a l IH]; intros b S.
  - simpl. run. by rewrite app_nil_r.
  - simpl. run. rewrite Hstep, IH. rewrite <-app_assoc.
    by rewrite andb_assoc, (andb_comm (forallb ok l)).
Qed.

Lemma foldEach_collect {A} (step : list string → A → M (list string))
    (errs : A → list string) w :
  (∀ errors a, step errors a w = (errors ++ errs a, w)) →
  ∀ l errors, foldEach step errors l w = (errors ++ flat_map errs l, w).
Proof.
  intros Hstep. induction l as [|a l IH]; intros errors.
  - simpl. run. by rewrite app_nil_r.
  - simpl. run. rewrite Hstep, IH. by rewrite <-app_assoc.
Qed.

Lemma forEach_unmark {A} (marks : A → jq) l w :
  forEach (λ a, JQ.removeClass highlighted (marks a)) l w
  = (tt, World (unmark (flat_map marks l) (doc w)) (fired w)).
Proof.
  revert w. induction l as [|a l IH]; intros [d f]; [done|].
  simpl. run. unfold JQ.removeClass. run. rewrite IH. simpl.
  by rewrite unmark_app.
Qed.

Lemma setAttr_run a v S w :
  setAttr a v S w = (tt, World (write_attr a v S (doc w)) (fired w)).
Proof. destruct w, v; done. Qed.

Lemma setText_one s p w :
  setText (Some s) [p] w = (tt, World (update (on_kids (λ _, [Text s])) p (doc w)) (fired w)).
Proof. done. Qed.

(** ** Methods that change or fire nothing *)

Lemma pure_quiet {A} (m : M A) : pure m → quiet m.
Proof. intros Hm w. by rewrite Hm. Qed.

Lemma quiet_settled {A} (m : M A) : quiet m → settled m.
Proof. intros Hm w. exists []. rewrite app_nil_r. split; [done|]. by intros ? ?%elem_of_nil. Qed.

Lemma quiet_bind {A B} (m : M A) (k : A → M B) :
  quiet m → (∀ a, quiet (k a)) → quiet (m ≫= k).
Proof.
  intros Hm Hk w. unfold mbind, M_bind. specialize (Hm w).
  destruct (m w) as [a w1]. rewrite Hk. exact Hm.
Qed.

Lemma pure_bind {A B} (m : M A) (k : A → M B) :
  pure m → (∀ a, pure (k a)) → pure (m ≫= k).
Proof.
  intros Hm Hk w. unfold mbind, M_bind. specialize (Hm w).
  destruct (m w) as [a w1]. rewrite Hk. exact Hm.
Qed.

Lemma pure_mret {A} (a : A) : pure (mret a).
Proof. done. Qed.

Lemma pure_gets {A} (f : node → A) : pure (gets f).
Proof. done. Qed.

Lemma quiet_modify f : quiet (modify f).
Proof. done. Qed.

Lemma quiet_forEach {A} (f : A → M unit) l : (∀ a, quiet (f a)) → quiet (forEach f l).
Proof.
  intros Hf. induction l as [|a l IH]; [done|]. simpl.
  apply quiet_bind; [apply Hf|]. by intros _.
Qed.

Lemma pure_mapEach {A B} (f : A → M B) l : (∀ a, pure (f a)) → pure (mapEach f l).
Proof.
  intros Hf. induction l as [|a l IH]; [done|]. simpl.
  apply pure_bind; [apply Hf|]. intros b. apply pure_bind; [apply IH|]. intros. apply pure_mret.
Qed.

Lemma quiet_setAttr a v S : quiet (setAttr a v S).
Proof. by destruct v. Qed.

Lemma quiet_setText s S : quiet (setText s S).
Proof. by destruct s. Qed.

Lemma pure_stringField sel : pure (Fields.stringField sel None).
Proof. done. Qed.

Lemma pure_createUniqueName sel a : pure (ItemUtilities.createUniqueName sel a).
Proof. done. Qed.

#[global] Hint Resolve pure_mret pure_gets pure_stringField pure_createUniqueName
  quiet_modify quiet_setAttr quiet_setText : items.

(** Solve [pure] and [quiet] goals along the binds of a method. *)
Ltac effects :=
  repeat first
    [ progress intros
    | solve [eauto with items]
    | solve [apply pure_quiet; eauto with items]
    | apply pure_bind | apply pure_mapEach
    | apply quiet_bind | apply quiet_forEach ].

Lemma settled_bind {A B} (m : M A) (k : A → M B) :
  quiet m → (∀ a, settled (k a)) → settled (m ≫= k).
Proof.
  intros Hm Hk w. unfold mbind, M_bind. specialize (Hm w).
  destruct (m w) as [a w1]. simpl in Hm. rewrite <-Hm. apply Hk.
Qed.

Lemma settled_notificationFired name data : settled (Notifier.notificationFired name data).
Proof.
  intros w. eexists. split; [done|]. by intros n ->%list_elem_of_singleton.
Qed.

(** Walk a handler down to its notification. *)
Ltac handler :=
  repeat (apply settled_bind; [effects|intros]);
  first [apply settled_notificationFired | apply quiet_settled; effects].

(** * Names: [createUniqueName] *)

Section name_generator.
Context (d : node) (sel : jq) (a : string).
Hypothesis Hsib : sibling_set d sel a = true.

Lemma used_found k :
  used d sel a k → find d (parent sel) (Attr a (pretty k)) ≠ [].
Proof.
  intros (s & Hs & Ha) Hnil. apply andb_true_iff in Hsib as [Hroot _].
  rewrite forallb_forall in Hroot. specialize (Hroot s).
  rewrite <-list_elem_of_In, negb_true_iff, bool_decide_eq_false in Hroot.
  specialize (Hroot Hs).
  assert (s ∈ find d (parent sel) (Attr a (pretty k))) as Hin.
  { apply elem_of_find. rewrite attr_singleton in Ha. unfold matches_at.
    destruct (data d s) as [e|]; [|done]. simpl in *. split.
    - by apply bool_decide_eq_true_2.
    - exists (removelast s). split; [by apply elem_of_parent|by apply below_removelast]. }
  rewrite Hnil in Hin. by apply elem_of_nil in Hin.
Qed.

Lemma found_used k :
  find d (parent sel) (Attr a (pretty k)) ≠ [] → used d sel a k.
Proof.
  intros Hne. destruct (find d (parent sel) (Attr a (pretty k))) as [|q l] eqn:Hf; [done|].
  assert (q ∈ find d (parent sel) (Attr a (pretty k))) as Hq by (rewrite Hf; by left).
  apply elem_of_find in Hq as [Hm (c & Hc & Hb)]. unfold matches_at in Hm.
  destruct (data d q) as [e|] eqn:Hd; [|done]. simpl in Hm.
  apply bool_decide_eq_true_1 in Hm.
  apply andb_true_iff in Hsib as [_ Hcov]. rewrite forallb_forall in Hcov.
  specialize (Hcov (q, e)). simpl in Hcov. rewrite Hm in Hcov.
  rewrite <-list_elem_of_In, elem_of_elems in Hcov. specialize (Hcov Hd).
  apply orb_true_iff in Hcov as [Hno|Hyes].
  - apply negb_true_iff in Hno. apply not_true_iff_false in Hno. destruct Hno.
    apply existsb_exists. exists c. by rewrite <-list_elem_of_In.
  - apply existsb_exists in Hyes as (s & Hs & Ha).
    exists s. rewrite list_elem_of_In. by apply bool_decide_eq_true_1 in Ha.
Qed.

(** Not all of the names [0 .. length sel] can be taken by [sel]. *)
Lemma names_run_out : ¬ ∀ j : nat, j ≤ length sel → used d sel a j.
Proof.
  intros Hall.
  assert (NoDup (map (λ j : nat, Some (pretty j)) (seq 0 (S (length sel))))) as Hnd.
  { apply NoDup_fmap_2; [|apply NoDup_seq]. intros i j [= Hij]. by apply (inj pretty). }
  apply NoDup_ListNoDup in Hnd.
  apply (NoDup_incl_length (l' := map (λ s, JQ.attr d [s] a) sel)) in Hnd.
  - rewrite !length_map, length_seq in Hnd. lia.
  - intros o (j & <- & Hj)%in_map_iff. apply in_seq in Hj.
    destruct (Hall j) as (s & Hs & Ha); [lia|].
    apply in_map_iff. exists s. by rewrite <-list_elem_of_In.
Qed.

Lemma createUniqueName_loop_spec fuel index :
  ∃ k : nat, ItemUtilities.createUniqueName_loop d sel a fuel index = pretty k
       ∧ index ≤ k ≤ index + fuel
       ∧ (∀ j : nat, index ≤ j < k → used d sel a j)
       ∧ (k < index + fuel → ¬ used d sel a k).
Proof.
  revert index. induction fuel as [|fuel IH]; intros index; simpl.
  - exists index. split_and!; [done|lia..].
  - destruct (length _ =? 0) eqn:Hlen.
    + apply Nat.eqb_eq, length_zero_iff_nil in Hlen.
      exists index. split_and!; [done|lia|lia|lia|].
      intros _ Hu. by apply used_found in Hu.
    + apply Nat.eqb_neq in Hlen.
      destruct (IH (S index)) as (k & Hk & Hle & Hbelow & Hfree).
      exists k. split_and!; [done|lia|lia| |].
      * intros j Hj. destruct (decide (j = index)) as [->|?]; [|apply Hbelow; lia].
        apply found_used. intros Hnil. by rewrite Hnil in Hlen.
      * intros ?. apply Hfree. lia.
Qed.

Lemma createUniqueName_least :
  ∃ k : nat, ItemUtilities.createUniqueName_loop d sel a (S (length sel)) 0 = pretty k
       ∧ k ≤ length sel
       ∧ ¬ used d sel a k
       ∧ ∀ j : nat, j < k → used d sel a j.
Proof.
  destruct (createUniqueName_loop_spec (S (length sel)) 0) as (k & Hk & Hle & Hbelow & Hfree).
  assert (k ≤ length sel) as Hk'.
  { destruct (decide (k ≤ length sel)); [done|]. destruct names_run_out.
    intros j Hj. apply Hbelow. lia. }
  exists k. split_and!; [done|done| |].
  - apply Hfree. lia.
  - intros j Hj. apply Hbelow. lia.
Qed.

End name_generator.

(** C1.  When the selector holds a sibling set for the attribute,
    [createUniqueName] returns, as a decimal string, the smallest natural
    number that no sibling carries as the value of the attribute.  In
    particular, for [N] siblings: when they carry every number below [N]
    except a gap [g], it returns [g]; when they carry every number below
    [N], it returns [N]. *)
Theorem createUniqueName_smallest_unused (sel : jq) (a : string) (w : world) :
  sibling_set (doc w) sel a = true →
  let name := (ItemUtilities.createUniqueName sel a w).1 in
  (∃ k : nat, name = pretty k ∧ ¬ used (doc w) sel a k ∧ ∀ j : nat, j < k → used (doc w) sel a j)
  ∧ (∀ g : nat, g < length sel → ¬ used (doc w) sel a g →
       (∀ j : nat, j < length sel → j ≠ g → used (doc w) sel a j) → name = pretty g)
  ∧ ((∀ j : nat, j < length sel → used (doc w) sel a j) → name = pretty (length sel)).
Proof.
  intros Hsib name.
  destruct (createUniqueName_least (doc w) sel a Hsib) as (k & Hk & Hle & Hfree & Hbelow).
  change name with (ItemUtilities.createUniqueName_loop (doc w) sel a (S (length sel)) 0).
  rewrite Hk. split_and!.
  - exists k. by split_and!.
  - intros g Hg Hgfree Hothers. f_equal.
    destruct (decide (k = g)) as [|Hne]; [done|].
    destruct (decide (g < k)); [by destruct Hgfree; apply Hbelow|].
    destruct Hfree. apply Hothers; lia.
  - intros Hall. f_equal.
    destruct (decide (k = length sel)); [done|]. destruct Hfree. apply Hall. lia.
Qed.

(** The options of the sample rubric carry 0 and 2: the name is 1. *)
Lemma createUniqueName_smallest_unused_witness :
  let sel := [[0; 3; 0]; [0; 3; 1]; [0; 3; 2]] in
  sibling_set rubric sel "data-option" = true
  ∧ ∃ k : nat,
      (ItemUtilities.createUniqueName sel "data-option" (World rubric [])).1 = pretty k
      ∧ ¬ used rubric sel "data-option" k
      ∧ ∀ j : nat, j < k → used rubric sel "data-option" j.
Proof.
  intros sel. assert (sibling_set rubric sel "data-option" = true) as Hsib by evaluate.
  split; [exact Hsib|].
  exact (proj1 (createUniqueName_smallest_unused sel "data-option" (World rubric []) Hsib)).
Defined.

(** ** The names of AI examples *)

(** C2, at the failing input.  The sample editor holds examples named 0, 1
    and 2 and a fourth just inserted.  [AIExample.addHandler] hands only the
    new element to the name generator, whose loop then stops after the
    indices 0 and 1: the fourth example is named 2 as well, and two
    examples of one sibling set share an identifier. *)
Theorem AIExample_addHandler_name_clash :
  let w' := ((AIExample.new [[1; 3]] ≫= AIExample.addHandler (host := english))
               (World ai_editor [])).2 in
  JQ.attr ai_editor [[1; 2]] "data-example" = Some "2"
  ∧ JQ.attr ai_editor [[1; 3]] "data-example" = None
  ∧ JQ.attr (doc w') [[1; 2]] "data-example" = Some "2"
  ∧ JQ.attr (doc w') [[1; 3]] "data-example" = Some "2".
Proof. by vm_compute. Qed.

(** The menu items are named by the same call and clash in the same way. *)
Lemma AIExampleMenuItem_addHandler_name_clash :
  let w' := ((AIExampleMenuItem.new [[0; 3]] ≫= AIExampleMenuItem.addHandler)
               (World ai_editor [])).2 in
  JQ.attr (doc w') [[0; 2]] "data-example" = Some "2"
  ∧ JQ.attr (doc w') [[0; 3]] "data-example" = Some "2".
Proof. by vm_compute. Qed.

(** Four additions to an empty editor through the container name the
    examples 0, 1, 2 and 2. *)
Lemma AIExample_four_additions :
  let w := ((add_example ≫= λ _, add_example ≫= λ _, add_example ≫= λ _, add_example)
              (World empty_editor [])).2 in
  map (λ i, JQ.attr (doc w) [[1; i]] "data-example") [0; 1; 2; 3]
  = [Some "0"; Some "1"; Some "2"; Some "2"].
Proof. by vm_compute. Qed.

(** The options of a criterion hand the whole sibling set to the generator;
    the name an option receives is then carried by none of its siblings. *)
Lemma RubricOption_name_fresh (o : RubricOption.t) (d : node) :
  let options := find d (parent (RubricOption.element o))
                   (Class "openassessment_criterion_option") in
  sibling_set d options "data-option" = true →
  ∀ s, s ∈ options → JQ.attr d [s] "data-option" ≠ Some (optionName o d).
Proof.
  intros options Hsib s Hs Ha.
  destruct (createUniqueName_least d options "data-option" Hsib) as (k & Hk & _ & Hfree & _).
  apply Hfree. exists s. split; [done|]. rewrite Ha. unfold optionName. fold options.
  by rewrite Hk.
Qed.


(** * Validation *)

(** ** IntField and RubricOption *)

Lemma IntField_value_mark S d f : IntField_value (mark S d) f = IntField_value d f.
Proof. unfold IntField_value. by rewrite val_mark. Qed.

Lemma IntField_validate_run f w :
  IntField.validate f w
  = (IntField_valid (doc w) f,
     World (mark (if IntField_valid (doc w) f then [] else IntField.input f) (doc w)) (fired w)).
Proof.
  destruct w as [d fr]. unfold IntField.validate, IntField.get. run.
  fold (IntField_value d f). fold (IntField_valid d f).
  destruct (IntField_valid d f); [done|]. unfold JQ.addClass. by run.
Qed.

Lemma RubricOption_validate_run o w :
  RubricOption.validate o w
  = (RubricOption_valid (doc w) o,
     World (mark (if RubricOption_valid (doc w) o then [] else RubricOption_field o) (doc w))
       (fired w)).
Proof. apply IntField_validate_run. Qed.

Lemma RubricOption_validationErrors_run o w :
  RubricOption.validationErrors o w = (RubricOption_errors (doc w) o, w).
Proof.
  unfold RubricOption.validationErrors, IntField.validationErrors, RubricOption_errors. run.
  by destruct (JQ.hasClass _ _ _).
Qed.

Lemma RubricOption_clearValidationErrors_run o w :
  RubricOption.clearValidationErrors o w
  = (tt, World (unmark (RubricOption_field o) (doc w)) (fired w)).
Proof. done. Qed.

Lemma RubricOption_at_mark S d p : RubricOption_at (mark S d) p = RubricOption_at d p.
Proof. unfold RubricOption_at. by rewrite find_mark. Qed.

Lemma RubricOption_at_unmark S d p : RubricOption_at (unmark S d) p = RubricOption_at d p.
Proof. unfold RubricOption_at. by rewrite find_unmark. Qed.

Lemma RubricOption_points_get o w :
  RubricOption.points o JUndefined w = (IntField_value (doc w) (RubricOption.pointsField o), w).
Proof. done. Qed.

Lemma RubricOption_points_set o z w :
  RubricOption.points o (JInt z) w
  = (IntField_value (each_data (put_value (pretty z)) (IntField.input (RubricOption.pointsField o)) (doc w))
       (RubricOption.pointsField o),
     World (each_data (put_value (pretty z)) (IntField.input (RubricOption.pointsField o)) (doc w))
       (fired w)).
Proof. done. Qed.

Lemma in_range_new el w0 v :
  IntField.in_range (RubricOption.pointsField (RubricOption.new el w0).1) v = true
  ↔ ∃ z, v = JInt z ∧ (0 ≤ z ≤ 999)%Z.
Proof.
  destruct v; simpl; try (split; [done|by intros (? & ? & ?)]).
  rewrite andb_true_iff, !Z.leb_le. split; [eauto|]. by intros (? & [= <-] & ?).
Qed.

Lemma RubricOption_failed_errors o w :
  is_Some (JQ.val (doc w) (IntField.input (RubricOption.pointsField o))) →
  (RubricOption.validate o w).1 = false →
  (RubricOption.validationErrors o (RubricOption.validate o w).2).1 = [RubricOption_message].
Proof.
  intros Hf. rewrite RubricOption_validationErrors_run, RubricOption_validate_run.
  simpl. intros Hv. rewrite Hv.
  unfold RubricOption_errors, RubricOption_field.
  assert (JQ.hasClass (mark (IntField.input (RubricOption.pointsField o)) (doc w))
            (IntField.input (RubricOption.pointsField o)) highlighted = true) as ->; [|done].
  rewrite hasClass_marked. unfold JQ.val in Hf.
  destruct (IntField.input (RubricOption.pointsField o)) as [|p ctx]; simpl in *; [by destruct Hf|].
  rewrite marked_mark. rewrite !bool_decide_eq_true_2; [by rewrite orb_true_r|..|by left].
  destruct (data (doc w) p); [eauto|by destruct Hf].
Qed.

Lemma RubricOption_clean_errors o d :
  clean (RubricOption_field o) d → RubricOption_errors d o = [].
Proof.
  intros Hc%clean_hasClass. unfold RubricOption_field in Hc.
  unfold RubricOption_errors. by rewrite Hc.
Qed.

Lemma RubricOption_clear_errors o w :
  (RubricOption.validationErrors o (RubricOption.clearValidationErrors o w).2).1 = [].
Proof.
  rewrite RubricOption_clearValidationErrors_run, RubricOption_validationErrors_run.
  simpl. apply RubricOption_clean_errors, clean_unmark.
Qed.

(** C4.  For an Option as its constructor builds it (points field with
    bounds 0 and 999), in any document: [validate] returns true exactly when
    [points()] is an integer between 0 and 999 inclusive.  When the points
    field is a form control, setting the points to 0 or to 999 makes
    [validate] return true, and setting them to -1 or to 1000 makes it
    return false, after which [validationErrors] is the one-element list
    ["Option points are invalid"].  After any failed [validate] of an option
    whose points field is in the document, [validationErrors] is that
    one-element list; after a successful [validate] of an option that
    reported no error before, it is the empty list. *)
Theorem RubricOption_validate_range (el : jq) (w0 w : world) :
  let o := (RubricOption.new el w0).1 in
  let field := IntField.input (RubricOption.pointsField o) in
  ((RubricOption.validate o w).1 = true
     ↔ ∃ z, (RubricOption.points o JUndefined w).1 = JInt z ∧ (0 ≤ z ≤ 999)%Z)
  ∧ (is_Some (JQ.prop (doc w) field) →
       (∀ z, z ∈ [0; 999]%Z →
          (RubricOption.validate o (RubricOption.points o (JInt z) w).2).1 = true)
       ∧ (∀ z, z ∈ [-1; 1000]%Z →
          let w1 := (RubricOption.points o (JInt z) w).2 in
          (RubricOption.validate o w1).1 = false
          ∧ (RubricOption.validationErrors o (RubricOption.validate o w1).2).1
            = ["Option points are invalid"]))
  ∧ (is_Some (JQ.val (doc w) field) → (RubricOption.validate o w).1 = false →
       (RubricOption.validationErrors o (RubricOption.validate o w).2).1
       = ["Option points are invalid"])
  ∧ ((RubricOption.validationErrors o w).1 = [] → (RubricOption.validate o w).1 = true →
       (RubricOption.validationErrors o (RubricOption.validate o w).2).1 = []).
Proof.
  intros o field.
  assert (∀ z w, is_Some (JQ.prop (doc w) field) →
    (RubricOption.validate o (RubricOption.points o (JInt z) w).2).1
    = IntField.in_range (RubricOption.pointsField o) (IntField.parse (strip_cr (pretty z)))) as Hset.
  { intros z w1 Hf. rewrite RubricOption_points_set, RubricOption_validate_run. simpl.
    unfold RubricOption_valid, IntField_valid, IntField_value.
    fold field. by rewrite val_setVal. }
  assert (∀ z w, is_Some (JQ.prop (doc w) field) →
    is_Some (JQ.val (doc (RubricOption.points o (JInt z) w).2) field)) as Hkeep.
  { intros z w1 Hf. rewrite RubricOption_points_set. simpl. fold field.
    rewrite val_setVal by done. eauto. }
  split_and!.
  - rewrite RubricOption_validate_run, RubricOption_points_get. simpl.
    apply in_range_new.
  - intros Hf. split.
    + intros z Hz. rewrite Hset by done.
      apply elem_of_cons in Hz as [->|Hz]; [done|].
      apply elem_of_cons in Hz as [->|Hz]; [done|]. by apply elem_of_nil in Hz.
    + intros z Hz w1.
      assert ((RubricOption.validate o w1).1 = false) as Hv.
      { subst w1. rewrite Hset by done.
        apply elem_of_cons in Hz as [->|Hz]; [done|].
        apply elem_of_cons in Hz as [->|Hz]; [done|]. by apply elem_of_nil in Hz. }
      split; [done|]. apply RubricOption_failed_errors; [|done]. by apply Hkeep.
  - apply RubricOption_failed_errors.
  - rewrite !RubricOption_validationErrors_run, RubricOption_validate_run.
    simpl. by intros He ->.
Qed.

(** The second option of the sample rubric, set to 999 and to 1000. *)
Lemma RubricOption_validate_range_witness :
  let w := World rubric [] in
  let o := (RubricOption.new [[0; 3; 1]] w).1 in
  is_Some (JQ.prop rubric (IntField.input (RubricOption.pointsField o)))
  ∧ (RubricOption.validate o (RubricOption.points o (JInt 999) w).2).1 = true
  ∧ (RubricOption.validate o (RubricOption.points o (JInt 1000) w).2).1 = false.
Proof.
  intros w o.
  assert (is_Some (JQ.prop (doc w) (IntField.input (RubricOption.pointsField o)))) as Hfield
    by evaluate.
  split; [exact Hfield|].
  destruct (RubricOption_validate_range [[0; 3; 1]] w w) as (_ & Hbounds & _).
  destruct (Hbounds Hfield) as [Hin Hout]. split.
  - apply Hin. evaluate.
  - apply Hout. evaluate.
Defined.

(** ** RubricCriterion *)

Section criterion.
Context {host : Host}.

Lemma mapEach_new l w :
  mapEach (λ p, RubricOption.new [p]) l w = (map (RubricOption_at (doc w)) l, w).
Proof.
  induction l as [|p l IH]; [done|]. simpl. run. by rewrite IH.
Qed.

Lemma RubricCriterion_getAllItems_run c w :
  Container.getAllItems (T := RubricOption.t) (RubricCriterion.optionContainer c) w
  = (RubricCriterion_options (doc w) c, w).
Proof. unfold Container.getAllItems. run. apply mapEach_new. Qed.

Lemma RubricCriterion_options_mark S d c :
  RubricCriterion_plain c → RubricCriterion_options (mark S d) c = RubricCriterion_options d c.
Proof.
  intros Hc. unfold RubricCriterion_options. rewrite find_mark.
  - apply map_ext. intros. apply RubricOption_at_mark.
  - simpl. by rewrite bool_decide_eq_false_2.
Qed.

Lemma RubricCriterion_options_unmark S d c :
  RubricCriterion_plain c → RubricCriterion_options (unmark S d) c = RubricCriterion_options d c.
Proof.
  intros Hc. unfold RubricCriterion_options. rewrite find_unmark.
  - apply map_ext. intros. apply RubricOption_at_unmark.
  - simpl. by rewrite bool_decide_eq_false_2.
Qed.

Lemma RubricCriterion_validate_loop d f S b l :
  foldEach (λ isValid o, v ← RubricOption.validate o; mret (v && isValid)) b l
    (World (mark S d) f)
  = (forallb (RubricOption_valid d) l && b,
     World (mark (S ++ flat_map (λ o, if RubricOption_valid d o then [] else RubricOption_field o) l) d) f).
Proof.
  apply (foldEach_mark _ (RubricOption_valid d) RubricOption_field).
  intros o b' S'. run. rewrite RubricOption_validate_run. simpl.
  unfold RubricOption_valid, IntField_valid.
  rewrite IntField_value_mark. by rewrite mark_app.
Qed.

Lemma RubricCriterion_validate_run c w :
  RubricCriterion_plain c →
  RubricCriterion.validate c w
  = (forallb (RubricOption_valid (doc w)) (RubricCriterion_options (doc w) c)
     && RubricCriterion_promptOk (doc w) c,
     World (mark ((if RubricCriterion_promptOk (doc w) c then [] else RubricCriterion.promptSel c)
                  ++ flat_map (λ o, if RubricOption_valid (doc w) o then [] else RubricOption_field o)
                       (RubricCriterion_options (doc w) c)) (doc w)) (fired w)).
Proof.
  intros Hc. destruct w as [d f].
  unfold RubricCriterion.validate, RubricCriterion.prompt, Fields.stringField. run.
  fold (RubricCriterion_promptOk d c). destruct (RubricCriterion_promptOk d c) eqn:Hp.
  - rewrite RubricCriterion_getAllItems_run. simpl. apply (RubricCriterion_validate_loop d f []).
  - unfold addClass. run. rewrite RubricCriterion_getAllItems_run. simpl.
    fold (mark (RubricCriterion.promptSel c) d). rewrite RubricCriterion_options_mark by done.
    apply RubricCriterion_validate_loop.
Qed.

Lemma RubricCriterion_validationErrors_run c w :
  RubricCriterion.validationErrors c w
  = ((if JQ.hasClass (doc w) (RubricCriterion.promptSel c) highlighted
      then [RubricCriterion_promptMessage] else [])
     ++ flat_map (RubricOption_errors (doc w)) (RubricCriterion_options (doc w) c), w).
Proof.
  unfold RubricCriterion.validationErrors. run. rewrite RubricCriterion_getAllItems_run.
  apply (foldEach_collect _ (RubricOption_errors (doc w))).
  intros errors o. unfold RubricOption_errors, RubricOption_message.
  by destruct (JQ.hasClass _ _ _).
Qed.

Lemma RubricCriterion_clearValidationErrors_run c w :
  RubricCriterion_plain c →
  RubricCriterion.clearValidationErrors c w
  = (tt, World (unmark (RubricCriterion.promptSel c
                        ++ flat_map RubricOption_field (RubricCriterion_options (doc w) c)) (doc w))
       (fired w)).
Proof.
  intros Hc. destruct w as [d f]. unfold RubricCriterion.clearValidationErrors, JQ.removeClass. run.
  rewrite RubricCriterion_getAllItems_run. simpl.
  rewrite (forEach_unmark RubricOption_field). simpl.
  fold (unmark (RubricCriterion.promptSel c) d). rewrite RubricCriterion_options_unmark by done.
  by rewrite unmark_app.
Qed.

End criterion.

Lemma RubricCriterion_prompt_run c w :
  RubricCriterion.prompt c None w = (JQ.val (doc w) (RubricCriterion.promptSel c), w).
Proof. done. Qed.

Lemma RubricCriterion_new_plain el w : RubricCriterion_plain (RubricCriterion.new el w).1.
Proof. done. Qed.

Lemma RubricCriterion_clean_errors {host : Host} c w :
  clean (RubricCriterion.promptSel c
         ++ flat_map RubricOption_field (RubricCriterion_options (doc w) c)) (doc w) →
  (RubricCriterion.validationErrors c w).1 = [].
Proof.
  intros [Hp Ho]%clean_app. rewrite RubricCriterion_validationErrors_run. simpl.
  rewrite (clean_hasClass _ _ Hp). simpl. apply flat_map_nil.
  intros o Hin. apply RubricOption_clean_errors. by apply (proj1 (clean_flat_map _ _ _) Ho).
Qed.

Lemma RubricCriterion_clear_errors {host : Host} c w :
  RubricCriterion_plain c →
  (RubricCriterion.validationErrors c (RubricCriterion.clearValidationErrors c w).2).1 = [].
Proof.
  intros Hc. rewrite RubricCriterion_clearValidationErrors_run by done. simpl.
  apply RubricCriterion_clean_errors. simpl.
  rewrite RubricCriterion_options_unmark by done. apply clean_unmark.
Qed.

(** C3.  For a Criterion as its constructor builds it, in any document:
    [validate] returns true exactly when the prompt read from the prompt
    field is not the empty string and [validate] of every option item of its
    container returns true.  Every option is validated, whatever came
    before it: each option that fails has all of its points field marked
    when [validate] returns.  When the prompt is empty, [validate] returns
    false, the prompt field is marked, and [validationErrors] called next
    includes "Criterion prompt is invalid.". *)
Theorem RubricCriterion_validate_spec {host : Host} (el : jq) (w0 w : world) :
  let c := (RubricCriterion.new el w0).1 in
  let opts := (Container.getAllItems (T := RubricOption.t) (RubricCriterion.optionContainer c) w).1 in
  let w' := (RubricCriterion.validate c w).2 in
  ((RubricCriterion.validate c w).1 = true
     ↔ (RubricCriterion.prompt c None w).1 ≠ Some ""
       ∧ ∀ o, o ∈ opts → (RubricOption.validate o w).1 = true)
  ∧ (∀ o, o ∈ opts → (RubricOption.validate o w).1 = false →
       ∀ p, p ∈ IntField.input (RubricOption.pointsField o) → marked (doc w') p = true)
  ∧ ((RubricCriterion.prompt c None w).1 = Some "" →
       (RubricCriterion.validate c w).1 = false
       ∧ JQ.hasClass (doc w') (RubricCriterion.promptSel c) highlighted = true
       ∧ "Criterion prompt is invalid." ∈ (RubricCriterion.validationErrors c w').1).
Proof.
  intros c opts w'.
  assert (RubricCriterion_plain c) as Hc by apply RubricCriterion_new_plain.
  clearbody c.
  subst opts w'. rewrite RubricCriterion_getAllItems_run, RubricCriterion_prompt_run.
  rewrite RubricCriterion_validate_run by done. simpl.
  setoid_rewrite RubricOption_validate_run. simpl.
  unfold RubricCriterion_promptOk.
  split_and!.
  - rewrite andb_true_iff, forallb_forall, negb_true_iff, bool_decide_eq_false.
    setoid_rewrite <-list_elem_of_In. tauto.
  - intros o Ho Hv p Hp. rewrite marked_mark. apply orb_true_iff. right.
    apply andb_true_iff. split; apply bool_decide_eq_true_2.
    + apply elem_of_app. right. apply list_elem_of_In, in_flat_map. exists o.
      rewrite <-!list_elem_of_In. split; [done|]. by rewrite Hv.
    + apply list_elem_of_fmap in Ho as (q & -> & _). by apply elem_of_find_data in Hp.
  - intros Hp. rewrite Hp. rewrite bool_decide_eq_true_2 by done. simpl.
    rewrite andb_false_r. split; [done|].
    assert (JQ.hasClass
      (mark (RubricCriterion.promptSel c ++
          flat_map (λ o, if RubricOption_valid (doc w) o then []
                         else RubricOption_field o)
            (RubricCriterion_options (doc w) c)) (doc w))
      (RubricCriterion.promptSel c) highlighted = true) as Hmarked.
    { rewrite hasClass_marked. apply val_empty_head in Hp as (p & Hhd & Hd).
      apply existsb_exists. exists p.
      assert (p ∈ RubricCriterion.promptSel c) as Hin.
      { destruct (RubricCriterion.promptSel c); simplify_eq/=. by left. }
      split; [by apply list_elem_of_In|]. rewrite marked_mark.
      rewrite !bool_decide_eq_true_2; [by rewrite orb_true_r|done|].
      apply elem_of_app. by left. }
    split; [done|].
    rewrite RubricCriterion_validationErrors_run. simpl. rewrite Hmarked.
    simpl. by left.
Qed.

(** The sample criterion has an empty prompt. *)
Lemma RubricCriterion_validate_spec_witness :
  let w := World rubric [] in
  let c := (RubricCriterion.new [[0]] w).1 in
  (RubricCriterion.prompt c None w).1 = Some ""
  ∧ (RubricCriterion.validate (host := english) c w).1 = false
  ∧ "Criterion prompt is invalid."
    ∈ (RubricCriterion.validationErrors (host := english) c
         (RubricCriterion.validate (host := english) c w).2).1.
Proof.
  intros w c.
  assert ((RubricCriterion.prompt c None w).1 = Some "") as Hprompt by evaluate.
  split; [exact Hprompt|].
  destruct (RubricCriterion_validate_spec (host := english) [[0]] w w) as (_ & _ & Hempty).
  destruct (Hempty Hprompt) as (Hfalse & _ & Hmessage). by split.
Defined.

(** ** TrainingExample *)

Lemma TrainingExample_validate_run x w :
  TrainingExample.validate x w
  = (forallb (λ p, negb (unselected (doc w) p)) (TrainingExample.criteria x),
     World (mark (List.filter (unselected (doc w)) (TrainingExample.criteria x)) (doc w)) (fired w)).
Proof.
  unfold TrainingExample.validate. destruct w as [d f]. simpl.
  cut (∀ l b S,
    foldEach (λ isValid p,
      v ← gets (λ d, JQ.prop d [p]);
      let isOptionValid := negb (bool_decide (v = Some "")) in
      (if isOptionValid then mret tt else JQ.addClass highlighted [p]) ≫= λ _,
      mret (isOptionValid && isValid)) b l (World (mark S d) f)
    = (forallb (λ p, negb (unselected d p)) l && b,
       World (mark (S ++ List.filter (unselected d) l) d) f)).
  { intros Hcut. change (World d f) with (World (mark [] d) f) at 1.
    rewrite Hcut. by rewrite andb_true_r. }
  induction l as [|p l IH]; intros b S.
  - simpl. run. by rewrite app_nil_r.
  - simpl. run. fold (unselected (mark S d) p). rewrite unselected_mark.
    destruct (unselected d p) eqn:Hp; simpl.
    + unfold JQ.addClass. run.
      change (update (on_data (add_class highlighted)) p (mark S d))
        with (each_data (add_class highlighted) [p] (mark S d)).
      unfold mark at 1 2. rewrite <-each_data_app. fold (mark (S ++ [p]) d).
      rewrite IH. unfold mark. by rewrite andb_false_r, <-app_assoc.
    + rewrite IH. done.
Qed.

Lemma TrainingExample_validationErrors_run x w :
  TrainingExample.validationErrors x w
  = (map (λ _, TrainingExample_message) (List.filter (marked (doc w)) (TrainingExample.criteria x)), w).
Proof.
  unfold TrainingExample.validationErrors.
  cut (∀ l errors,
    foldEach (λ errors p,
      gets (λ d, JQ.hasClass d [p] highlighted) ≫= λ hasError : bool,
      mret (if hasError then errors ++ [TrainingExample_message] else errors)) errors l w
    = (errors ++ map (λ _, TrainingExample_message) (List.filter (marked (doc w)) l), w)).
  { intros Hcut. apply (Hcut (TrainingExample.criteria x) []). }
  induction l as [|p l IH]; intros errors.
  - simpl. run. by rewrite app_nil_r.
  - simpl. run. fold (marked (doc w) p). destruct (marked (doc w) p); simpl.
    + rewrite IH. by rewrite <-app_assoc.
    + by rewrite IH.
Qed.

Lemma TrainingExample_clearValidationErrors_run x w :
  TrainingExample.clearValidationErrors x w = (tt, World (unmark (TrainingExample.criteria x) (doc w)) (fired w)).
Proof. unfold TrainingExample.clearValidationErrors. apply forEach_each_data. Qed.

Lemma TrainingExample_validate_false x w :
  (TrainingExample.validate x w).1 = false
  ↔ ∃ p, p ∈ TrainingExample.criteria x ∧ JQ.prop (doc w) [p] = Some "".
Proof.
  rewrite TrainingExample_validate_run. simpl.
  rewrite forallb_negb_false. unfold unselected.
  by setoid_rewrite bool_decide_eq_true.
Qed.

Lemma TrainingExample_validate_marked x w p :
  marked (doc (TrainingExample.validate x w).2) p
  = marked (doc w) p
    || (bool_decide (p ∈ TrainingExample.criteria x) && unselected (doc w) p).
Proof.
  rewrite TrainingExample_validate_run. simpl.
  rewrite marked_mark. f_equal.
  destruct (unselected (doc w) p) eqn:Hp.
  - rewrite andb_true_r. rewrite (bool_decide_eq_true_2 (is_Some _)), andb_true_r
      by by apply unselected_data.
    apply bool_decide_ext. rewrite list_elem_of_In, filter_In, <-list_elem_of_In. tauto.
  - rewrite andb_false_r. rewrite bool_decide_eq_false_2; [done|].
    rewrite list_elem_of_In, filter_In. rewrite Hp. by intros [_ ?].
Qed.

Lemma TrainingExample_clear_errors x w :
  (TrainingExample.validationErrors x (TrainingExample.clearValidationErrors x w).2).1 = [].
Proof.
  rewrite TrainingExample_clearValidationErrors_run, TrainingExample_validationErrors_run.
  simpl. by rewrite clean_filter by apply clean_unmark.
Qed.

(** C5.  [TrainingExample.validate] returns false exactly when one of the
    example's dropdowns has the empty value.  It marks exactly the failing
    dropdowns: afterwards an element is marked when it was marked before or
    is a dropdown of the example with the empty value.  [validationErrors]
    returns one message per marked dropdown, whatever the document; so for
    an example none of whose dropdowns is marked yet and exactly one of
    whose dropdowns is unselected, it returns exactly one message after
    [validate]. *)
Theorem TrainingExample_validate_marks (x : TrainingExample.t) (w : world) :
  let d := doc w in
  let w' := (TrainingExample.validate x w).2 in
  ((TrainingExample.validate x w).1 = false
     ↔ ∃ p, p ∈ TrainingExample.criteria x ∧ JQ.prop d [p] = Some "")
  ∧ (∀ p, marked (doc w') p
          = marked d p || (bool_decide (p ∈ TrainingExample.criteria x) && unselected d p))
  ∧ (∀ w'', length (TrainingExample.validationErrors x w'').1
            = length (List.filter (marked (doc w'')) (TrainingExample.criteria x)))
  ∧ ((∀ p, p ∈ TrainingExample.criteria x → marked d p = false) →
     length (List.filter (unselected d) (TrainingExample.criteria x)) = 1 →
     (TrainingExample.validationErrors x w').1 = [TrainingExample_message]).
Proof.
  intros d w'. subst d w'. split_and!.
  - apply TrainingExample_validate_false.
  - apply TrainingExample_validate_marked.
  - intros w''. rewrite TrainingExample_validationErrors_run. simpl.
    by rewrite length_map.
  - intros Hclean Hone. rewrite TrainingExample_validationErrors_run. simpl.
    rewrite (filter_ext_in _ (unselected (doc w))).
    + destruct (List.filter _ _) as [|p [|??]]; simpl in *; by try lia.
    + intros p Hp%list_elem_of_In.
      rewrite TrainingExample_validate_marked, Hclean by done. simpl.
      by rewrite bool_decide_eq_true_2.
Qed.

(** The sample training example has one unselected dropdown and no marks: one message. *)
Lemma TrainingExample_validate_marks_witness :
  let w := World training_example [] in
  let x := TrainingExample.Make [[]] [[1]; [2]] [[0]] in
  length (List.filter (unselected training_example) (TrainingExample.criteria x)) = 1
  ∧ (TrainingExample.validationErrors x (TrainingExample.validate x w).2).1
    = [TrainingExample_message].
Proof.
  intros w x.
  assert (length (List.filter (unselected (doc w)) (TrainingExample.criteria x)) = 1) as Hone
    by evaluate.
  split; [exact Hone|].
  destruct (TrainingExample_validate_marks x w) as (_ & _ & _ & Hscenario).
  apply Hscenario; [|exact Hone].
  intros p Hp. cases Hp; by vm_compute.
Defined.

(** ** Clearing the marks, and marks that stay *)

(** C9.  For an Option, a Criterion and a TrainingExample alike, calling
    [clearValidationErrors] leaves [validationErrors] empty, and so does
    calling it a second time. *)
Theorem clearValidationErrors_idempotent {host : Host} :
  (∀ (o : RubricOption.t) (w : world),
     let w1 := (RubricOption.clearValidationErrors o w).2 in
     let w2 := (RubricOption.clearValidationErrors o w1).2 in
     (RubricOption.validationErrors o w1).1 = [] ∧ (RubricOption.validationErrors o w2).1 = [])
  ∧ (∀ (el : jq) (w0 w : world),
     let c := (RubricCriterion.new el w0).1 in
     let w1 := (RubricCriterion.clearValidationErrors c w).2 in
     let w2 := (RubricCriterion.clearValidationErrors c w1).2 in
     (RubricCriterion.validationErrors c w1).1 = [] ∧ (RubricCriterion.validationErrors c w2).1 = [])
  ∧ (∀ (x : TrainingExample.t) (w : world),
     let w1 := (TrainingExample.clearValidationErrors x w).2 in
     let w2 := (TrainingExample.clearValidationErrors x w1).2 in
     (TrainingExample.validationErrors x w1).1 = [] ∧ (TrainingExample.validationErrors x w2).1 = []).
Proof.
  split_and!.
  - intros o w w1 w2. split; apply RubricOption_clear_errors.
  - intros el w0 w c w1 w2.
    split; apply RubricCriterion_clear_errors, RubricCriterion_new_plain.
  - intros x w w1 w2. split; apply TrainingExample_clear_errors.
Qed.

(** C10.  [validate] only adds marks: an element marked before [validate]
    of an Option, a Criterion or a TrainingExample is marked after it.  So
    marks go stale.  For a TrainingExample whose only unselected dropdown is
    [p]: [validate] returns false; once a value [v] has been chosen in [p],
    [validate] returns true, and yet [validationErrors] still reports an
    error, until [clearValidationErrors] empties it.  For a Criterion whose
    prompt field is marked: when [validate] returns true,
    [validationErrors] still includes the prompt message, until
    [clearValidationErrors] empties it. *)
Theorem validate_keeps_marks {host : Host} :
  (∀ (o : RubricOption.t) (w : world) (p : path),
     marked (doc w) p = true → marked (doc (RubricOption.validate o w).2) p = true)
  ∧ (∀ (el : jq) (w0 w : world) (p : path),
     let c := (RubricCriterion.new el w0).1 in
     marked (doc w) p = true → marked (doc (RubricCriterion.validate c w).2) p = true)
  ∧ (∀ (x : TrainingExample.t) (w : world) (p : path),
     marked (doc w) p = true → marked (doc (TrainingExample.validate x w).2) p = true)
  ∧ (∀ (x : TrainingExample.t) (w : world) (p : path) (v : string),
     p ∈ TrainingExample.criteria x →
     JQ.prop (doc w) [p] = Some "" →
     (∀ q, q ∈ TrainingExample.criteria x → q ≠ p → JQ.prop (doc w) [q] ≠ Some "") →
     v ≠ "" →
     let w1 := (TrainingExample.validate x w).2 in
     let w2 := (JQ.setVal v [p] w1).2 in
     let w3 := (TrainingExample.validate x w2).2 in
     (TrainingExample.validate x w).1 = false
     ∧ (TrainingExample.validate x w2).1 = true
     ∧ (TrainingExample.validationErrors x w3).1 ≠ []
     ∧ (TrainingExample.validationErrors x (TrainingExample.clearValidationErrors x w3).2).1 = [])
  ∧ (∀ (el : jq) (w0 w : world),
     let c := (RubricCriterion.new el w0).1 in
     let w1 := (RubricCriterion.validate c w).2 in
     JQ.hasClass (doc w) (RubricCriterion.promptSel c) highlighted = true →
     (RubricCriterion.validate c w).1 = true →
     "Criterion prompt is invalid." ∈ (RubricCriterion.validationErrors c w1).1
     ∧ (RubricCriterion.validationErrors c (RubricCriterion.clearValidationErrors c w1).2).1 = []).
Proof.
  split_and!.
  - intros o w p. rewrite RubricOption_validate_run. simpl. apply marked_mark_mono.
  - intros el w0 w p c. rewrite RubricCriterion_validate_run by done. simpl.
    apply marked_mark_mono.
  - intros x w p. rewrite TrainingExample_validate_run. simpl. apply marked_mark_mono.
  - intros x w p v Hp Hempty Hothers Hv w1 w2 w3.
    assert (unselected (doc w) p = true) as Hu by by apply bool_decide_eq_true_2.
    assert ((TrainingExample.validate x w).1 = false) as H1.
    { apply TrainingExample_validate_false. eauto. }
    assert (marked (doc w1) p = true) as Hm1.
    { subst w1. rewrite TrainingExample_validate_marked.
      by rewrite Hu, bool_decide_eq_true_2, orb_true_r. }
    assert (doc w2 = each_data (put_value v) [p] (doc w1)) as Hw2 by done.
    clearbody w2.
    assert (∀ q, q ∈ TrainingExample.criteria x → unselected (doc w2) q = false) as Hsel.
    { intros q Hq. unfold unselected. apply bool_decide_eq_false_2.
      rewrite Hw2, prop_setVal. case_bool_decide as Hqp.
      - subst q w1. rewrite TrainingExample_validate_run. simpl.
        unfold mark. rewrite data_each_data by apply _.
        destruct (unselected_data _ _ Hu) as [e He]. rewrite He.
        assert (is_Some (prop_value e)) as Hc.
        { unfold JQ.prop in Hempty. simpl in Hempty. rewrite He in Hempty. simpl in Hempty.
          rewrite Hempty. eauto. }
        case_bool_decide; simpl; rewrite prop_value_put_value;
          rewrite ?prop_value_add_class; try done; congruence.
      - subst w1. rewrite TrainingExample_validate_run. simpl.
        fold (mark (List.filter (unselected (doc w)) (TrainingExample.criteria x)) (doc w)).
        pose proof (unselected_mark (List.filter (unselected (doc w)) (TrainingExample.criteria x))
                      (doc w) q) as Hq'.
        unfold unselected in Hq'. intros Hbad.
        rewrite bool_decide_eq_true_2 in Hq' by done. symmetry in Hq'.
        apply bool_decide_eq_true_1 in Hq'. by apply (Hothers q). }
    assert ((TrainingExample.validate x w2).1 = true) as H2.
    { apply not_false_is_true. intros Hf.
      apply TrainingExample_validate_false in Hf as (q & Hq & Hqe).
      specialize (Hsel q Hq). unfold unselected in Hsel.
      by rewrite bool_decide_eq_true_2 in Hsel. }
    assert (marked (doc w3) p = true) as Hm3.
    { subst w3. rewrite TrainingExample_validate_run. simpl.
      apply marked_mark_mono. by rewrite Hw2, marked_setVal. }
    split_and!; [done|done| |].
    + rewrite TrainingExample_validationErrors_run. simpl.
      intros Hnil%map_eq_nil. apply filter_nil_iff with (a := p) in Hnil; [|done].
      congruence.
    + apply TrainingExample_clear_errors.
  - intros el w0 w c w1 Hmarked Hvalid.
    assert (RubricCriterion_plain c) as Hc by apply RubricCriterion_new_plain.
    clearbody c. split.
    + subst w1. rewrite RubricCriterion_validate_run by done.
      rewrite RubricCriterion_validationErrors_run. simpl.
      rewrite hasClass_mark_mono by done. by left.
    + by apply RubricCriterion_clear_errors.
Qed.

(** The sample training example: validated, corrected, validated again. *)
Lemma validate_keeps_marks_witness :
  let w := World training_example [] in
  let x := TrainingExample.Make [[]] [[1]; [2]] [[0]] in
  let w2 := (JQ.setVal "3" [[1]] (TrainingExample.validate x w).2).2 in
  JQ.prop training_example [[1]] = Some ""
  ∧ (TrainingExample.validate x w).1 = false
  ∧ (TrainingExample.validate x w2).1 = true
  ∧ (TrainingExample.validationErrors x (TrainingExample.validate x w2).2).1 ≠ [].
Proof.
  intros w x w2.
  assert (JQ.prop (doc w) [[1]] = Some "") as Hempty by evaluate.
  split; [exact Hempty|].
  destruct (validate_keeps_marks (host := english)) as (_ & _ & _ & Hstory & _).
  destruct (Hstory x w [1] "3") as (H1 & H2 & H3 & _).
  - evaluate.
  - exact Hempty.
  - intros q Hq Hne. cases Hq; [done|]. by vm_compute.
  - done.
  - by split_and!.
Defined.

(** * Notifications *)

Lemma RubricOption_points_pure o : pure (RubricOption.points o JUndefined).
Proof. done. Qed.

#[global] Hint Resolve RubricOption_points_pure : items.

Lemma RubricOption_getFieldValues_pure o : pure (RubricOption.getFieldValues o).
Proof.
  unfold RubricOption.getFieldValues, RubricOption.label, RubricOption.explanation. effects.
Qed.

#[global] Hint Resolve RubricOption_getFieldValues_pure : items.

Lemma RubricCriterion_getFieldValues_pure {host : Host} c : pure (RubricCriterion.getFieldValues c).
Proof.
  unfold RubricCriterion.getFieldValues, RubricCriterion.label, RubricCriterion.prompt,
    RubricCriterion.feedback, Container.getItemValues, Container.getAllItems.
  effects.
Qed.

#[global] Hint Resolve RubricCriterion_getFieldValues_pure : items.

Section handlers.
Context {host : Host}.

Lemma RubricOption_addHandler_settled o : settled (RubricOption.addHandler o).
Proof. unfold RubricOption.addHandler. handler. Qed.

Lemma RubricOption_removeHandler_settled o : settled (RubricOption.removeHandler o).
Proof. unfold RubricOption.removeHandler. handler. Qed.

Lemma RubricOption_updateHandler_settled o : settled (RubricOption.updateHandler o).
Proof. unfold RubricOption.updateHandler. handler. Qed.

Lemma RubricCriterion_addHandler_settled c : settled (RubricCriterion.addHandler c).
Proof. unfold RubricCriterion.addHandler. handler. Qed.

Lemma RubricCriterion_removeHandler_settled c : settled (RubricCriterion.removeHandler c).
Proof. unfold RubricCriterion.removeHandler. handler. Qed.

Lemma RubricCriterion_updateHandler_settled c : settled (RubricCriterion.updateHandler c).
Proof. unfold RubricCriterion.updateHandler. handler. Qed.

Lemma refreshOptionString_quiet el : quiet (ItemUtilities.refreshOptionString el).
Proof. unfold ItemUtilities.refreshOptionString. effects. Qed.

#[local] Hint Resolve refreshOptionString_quiet : items.

Lemma TrainingExample_addHandler_settled x : settled (TrainingExample.addHandler x).
Proof. unfold TrainingExample.addHandler. handler. Qed.

Lemma AIExample_addHandler_settled x : settled (AIExample.addHandler x).
Proof. unfold AIExample.addHandler, AIExample.addEventListeners. handler. Qed.

Lemma AIExample_updateHandler_settled x : settled (AIExample.updateHandler x).
Proof. unfold AIExample.updateHandler. handler. Qed.

Lemma AIExampleMenuItem_addHandler_settled x : settled (AIExampleMenuItem.addHandler x).
Proof. unfold AIExampleMenuItem.addHandler, AIExampleMenuItem.addEventListeners. handler. Qed.

Lemma AIExampleMenuItem_removeHandler_settled x : settled (AIExampleMenuItem.removeHandler x).
Proof.
  unfold AIExampleMenuItem.removeHandler. apply quiet_settled.
  do 4 (apply quiet_bind; [effects|intros]).
  apply quiet_bind; [|intros; apply quiet_modify].
  destruct (_ || _); effects. apply quiet_modify.
Qed.

End handlers.

Section addHandler.
Context {host : Host}.

Lemma RubricOption_addHandler_run o w :
  ∃ n, RubricOption.addHandler o w = (tt, World (stamped o (doc w)) (fired w ++ [n]))
       ∧ event n = "optionAdd"
       ∧ payload_field n "name" = Some (JStr (optionName o (doc w)))
       ∧ seen n = stamped o (doc w).
Proof.
  destruct w as [d f]. unfold RubricOption.addHandler.
  unfold mbind at 1 2 3 4 5 6 7 8 9 10, M_bind, gets, ItemUtilities.createUniqueName.
  cbn beta iota delta [doc fired]. unfold gets. cbn beta iota delta [doc fired].
  rewrite setAttr_run. cbn beta iota delta [doc fired].
  rewrite setAttr_run. cbn beta iota delta [doc fired].
  rewrite setAttr_run. cbn beta iota delta [doc fired].
  fold (optionName o d). change (write_attr "data-option" (JStr ?n) ?S ?x)
    with (each_data (put_attr "data-option" n) S x).
  change (write_attr "value" (JStr ?n) ?S ?x) with (each_data (put_attr "value" n) S x).
  fold (stamped o d).
  pose proof (RubricOption_getFieldValues_pure o (World (stamped o d) f)) as Hpure.
  destruct (RubricOption.getFieldValues o _) as [fields w1]. simpl in Hpure. subst w1.
  eexists. split; [reflexivity|]. done.
Qed.

Lemma stamped_option o d p :
  p ∈ RubricOption.element o → is_Some (data d p) →
  JQ.attr (stamped o d) [p] "data-option" = Some (optionName o d).
Proof.
  intros Hp Hd. unfold stamped. rewrite attr_put_other by done.
  apply attr_put_same; [done|]. by apply data_write_attr_is_Some.
Qed.

Lemma stamped_identity o d p :
  p ∈ find d (RubricOption.element o) (Class "openassessment_criterion_option_name") →
  JQ.attr (stamped o d) [p] "value" = Some (optionName o d).
Proof.
  intros Hp. unfold stamped. apply attr_put_same.
  - rewrite find_each_data, find_write_attr; [done|apply _|done].
  - apply elem_of_find_data in Hp as [e He].
    rewrite data_each_data by apply _.
    destruct (data_write_attr_is_Some "data-criterion"
      (data_ d (closest d (RubricOption.element o) (Class "openassessment_criterion")) "criterion")
      (RubricOption.element o) d p) as [e' He']; [eauto|].
    rewrite He'. case_bool_decide; simpl; eauto.
Qed.

End addHandler.

(** C6.  [RubricOption.addHandler] fires exactly one notification,
    "optionAdd"; its "name" field is the name just generated for the option;
    the subscriber finds the document as the handler leaves it, in which
    every element of the option carries that name as [data-option] and
    every identity field of the option carries it as [value].  More
    generally, whatever a handler of any of the five items fires finds the
    document as that handler leaves it: the item has finished changing it
    before it notifies. *)
Theorem notifications_after_mutation {host : Host} :
  (∀ (o : RubricOption.t) (w : world),
     let options := find (doc w) (parent (RubricOption.element o))
                      (Class "openassessment_criterion_option") in
     let name := (ItemUtilities.createUniqueName options "data-option" w).1 in
     let w' := (RubricOption.addHandler o w).2 in
     (∃ n, fired w' = fired w ++ [n]
           ∧ event n = "optionAdd"
           ∧ payload_field n "name" = Some (JStr name)
           ∧ seen n = doc w')
     ∧ (∀ p, p ∈ RubricOption.element o → is_Some (data (doc w) p) →
          JQ.attr (doc w') [p] "data-option" = Some name)
     ∧ (∀ p, p ∈ find (doc w) (RubricOption.element o)
                   (Class "openassessment_criterion_option_name") →
          JQ.attr (doc w') [p] "value" = Some name))
  ∧ (∀ o : RubricOption.t,
       settled (RubricOption.addHandler o) ∧ settled (RubricOption.removeHandler o)
       ∧ settled (RubricOption.updateHandler o))
  ∧ (∀ c : RubricCriterion.t,
       settled (RubricCriterion.addHandler c) ∧ settled (RubricCriterion.removeHandler c)
       ∧ settled (RubricCriterion.updateHandler c))
  ∧ (∀ x : TrainingExample.t,
       settled (TrainingExample.addHandler x) ∧ settled (TrainingExample.removeHandler x)
       ∧ settled (TrainingExample.updateHandler x))
  ∧ (∀ x : AIExample.t,
       settled (AIExample.addHandler x) ∧ settled (AIExample.removeHandler x)
       ∧ settled (AIExample.updateHandler x))
  ∧ (∀ x : AIExampleMenuItem.t,
       settled (AIExampleMenuItem.addHandler x) ∧ settled (AIExampleMenuItem.removeHandler x)
       ∧ settled (AIExampleMenuItem.updateHandler x)).
Proof.
  split_and!.
  - intros o w options name w'.
    destruct (RubricOption_addHandler_run o w) as (n & Hrun & Hev & Hname & Hseen).
    subst w'. rewrite Hrun. simpl. split_and!.
    + by exists n.
    + intros p. apply stamped_option.
    + intros p. apply stamped_identity.
  - intros o. split_and!; [apply RubricOption_addHandler_settled
      |apply RubricOption_removeHandler_settled|apply RubricOption_updateHandler_settled].
  - intros c. split_and!; [apply RubricCriterion_addHandler_settled
      |apply RubricCriterion_removeHandler_settled|apply RubricCriterion_updateHandler_settled].
  - intros x. split_and!; [apply TrainingExample_addHandler_settled|by apply quiet_settled..].
  - intros x. split_and!; [apply AIExample_addHandler_settled|by apply quiet_settled
      |apply AIExample_updateHandler_settled].
  - intros x. split_and!; [apply AIExampleMenuItem_addHandler_settled
      |apply AIExampleMenuItem_removeHandler_settled|by apply quiet_settled].
Qed.

(** The option just inserted in the sample rubric is stamped with the name 1. *)
Lemma notifications_after_mutation_witness :
  let w := World rubric [] in
  let o := (RubricOption.new [[0; 3; 2]] w).1 in
  JQ.attr (doc (RubricOption.addHandler (host := english) o w).2) [[0; 3; 2]] "data-option"
  = Some "1".
Proof.
  intros w o.
  destruct (notifications_after_mutation (host := english)) as (Hadd & _).
  destruct (Hadd o w) as (_ & Hstamp & _).
  etrans; [apply (Hstamp [0; 3; 2]); evaluate|]. evaluate.
Defined.

(** * Label propagation: [AIExample.updateHandler] *)

Section updateHandler.
Context (x : AIExample.t) (w : world) (s : string).
Let d := doc w.
Let id := jsString (of_text (JQ.attr d (AIExample.element x) "data-example")).
Let scope := closest d (AIExample.element x) (Id "openassessment_ai_editor_menu_and_editor").
Let menu := find d scope (Class "openassessment_ai_example_menu_item").
Hypothesis Hlabel : JQ.val d (AIExample.labelSel x) = Some s.

Let items := find d scope
  (And (Class "openassessment_ai_example_menu_item") (Attr "data-example" id)).

Lemma updateHandler_run :
  AIExample.updateHandler x w = setText (Some s) (first (find d items (Tag "h2"))) w.
Proof. unfold AIExample.updateHandler. run. fold d. by rewrite Hlabel. Qed.

Lemma updateHandler_no_match :
  (∀ m, m ∈ menu → JQ.attr d [m] "data-example" ≠ Some id) →
  (AIExample.updateHandler x w).2 = w.
Proof.
  intros Hno. rewrite updateHandler_run.
  assert (items = []) as ->.
  { destruct items as [|m l] eqn:Hi; [done|].
    assert (m ∈ items) as [Hm Ha]%elem_of_find_And by (rewrite Hi; by left).
    by destruct (Hno m). }
  rewrite find_nil. by destruct w.
Qed.

Lemma updateHandler_heading m h :
  m ∈ menu → JQ.attr d [m] "data-example" = Some id →
  (∀ m', m' ∈ menu → JQ.attr d [m'] "data-example" = Some id → m' = m) →
  head (find d [m] (Tag "h2")) = Some h →
  AIExample.updateHandler x w
  = (tt, World (update (on_kids (λ _, [Text s])) h d) (fired w)).
Proof.
  intros Hm Ha Huniq Hh. rewrite updateHandler_run.
  rewrite (find_ctx_ext d items [m]).
  - destruct (find d [m] (Tag "h2")) as [|h' l]; simplify_eq/=. done.
  - intros c. unfold items. rewrite elem_of_find_And, list_elem_of_singleton. split.
    + intros [??]. by apply Huniq.
    + by intros ->.
Qed.

Lemma updateHandler_target :
  ∀ h, first (find d items (Tag "h2")) = [h] →
       ∃ m, m ∈ menu ∧ JQ.attr d [m] "data-example" = Some id ∧ below m h = true.
Proof.
  intros h Hh. assert (h ∈ find d items (Tag "h2")) as Hin.
  { destruct (find d items (Tag "h2")); simplify_eq/=. by left. }
  apply find_below in Hin as (m & [Hm Ha]%elem_of_find_And & Hb). eauto.
Qed.

End updateHandler.

(** C7.  Let an AIExample's label field hold the text [s] when its update
    handler runs, and let the menu items be those of the enclosing
    menu-and-editor scope.  If [m] is the one menu item whose identifier is
    the example's, and [h] its heading, then afterwards [h] shows [s],
    nothing is fired, and nothing outside [h] has changed: every element
    that is not [h] or below it keeps its data, and every node off the line
    from the root to [h] keeps its whole subtree.  A menu item
    with another identifier, when menu items are not nested in one another,
    is left exactly as it was.  If no menu item has the example's
    identifier, the handler changes nothing at all. *)
Theorem AIExample_updateHandler_label (x : AIExample.t) (w : world) (s : string) :
  let d := doc w in
  let id := jsString (of_text (JQ.attr d (AIExample.element x) "data-example")) in
  let scope := closest d (AIExample.element x) (Id "openassessment_ai_editor_menu_and_editor") in
  let menu := find d scope (Class "openassessment_ai_example_menu_item") in
  let w' := (AIExample.updateHandler x w).2 in
  JQ.val d (AIExample.labelSel x) = Some s →
  (∀ m h, m ∈ menu → JQ.attr d [m] "data-example" = Some id →
     (∀ m', m' ∈ menu → JQ.attr d [m'] "data-example" = Some id → m' = m) →
     head (find d [m] (Tag "h2")) = Some h →
     shown (doc w') h = Some s
     ∧ fired w' = fired w
     ∧ (∀ q, prefixb h q = false → data (doc w') q = data d q)
     ∧ (∀ q, prefixb h q = false → prefixb q h = false → get q (doc w') = get q d))
  ∧ (∀ m, m ∈ menu → JQ.attr d [m] "data-example" ≠ Some id →
     (∀ m', m' ∈ menu → below m m' = false ∧ below m' m = false) →
     get m (doc w') = get m d)
  ∧ ((∀ m, m ∈ menu → JQ.attr d [m] "data-example" ≠ Some id) → w' = w).
Proof.
  intros d id scope menu w' Hlabel. split_and!.
  - intros m h Hm Ha Huniq Hh. subst w'.
    rewrite (updateHandler_heading x w s Hlabel m h Hm Ha Huniq Hh). simpl.
    split_and!; [|done| |].
    + apply shown_setText. apply (elem_of_find_data d [m] (Tag "h2")).
      destruct (find d [m] (Tag "h2")); simplify_eq/=. by left.
    + intros q Hq. by apply data_update_outside.
    + intros q Hhq Hqh. by apply get_update_diverge.
  - intros m Hm Ha Hflat. subst w'. rewrite (updateHandler_run x w s Hlabel).
    match goal with |- context [first ?hs] => destruct (first hs) as [|h l] eqn:Hh end;
      [by destruct w|].
    assert (l = []) as ->.
    { unfold first in Hh. by repeat case_match; simplify_eq. }
    destruct (updateHandler_target x w h Hh) as (m' & Hm' & Ha' & Hb).
    destruct (Hflat m' Hm') as [Hmm' Hm'm].
    rewrite setText_one. simpl. apply get_update_diverge.
    + destruct (prefixb h m) eqn:Hhm; [|done].
      assert (prefixb m' m = true) as Hpre
        by (eapply prefixb_trans; [by apply below_prefixb|done]).
      unfold below in Hm'm. rewrite Hpre in Hm'm. simpl in Hm'm.
      apply negb_false_iff, bool_decide_eq_true_1 in Hm'm. subst m'. by destruct Ha.
    + destruct (prefixb m h) eqn:Hmh; [|done].
      destruct (prefixb_comparable m m' h Hmh (below_prefixb _ _ Hb)) as [Hpre|Hpre].
      * unfold below in Hmm'. rewrite Hpre in Hmm'. simpl in Hmm'.
        apply negb_false_iff, bool_decide_eq_true_1 in Hmm'. subst m'. by destruct Ha.
      * unfold below in Hm'm. rewrite Hpre in Hm'm. simpl in Hm'm.
        apply negb_false_iff, bool_decide_eq_true_1 in Hm'm. subst m'. by destruct Ha.
  - apply (updateHandler_no_match x w s Hlabel).
Qed.

(** The third example of the sample editor is labelled Foo; the second menu item stays. *)
Lemma AIExample_updateHandler_label_witness :
  let x := AIExample.Make [[1; 2]] [[1; 2; 0; 0]] [] [] in
  let w' := (AIExample.updateHandler x (World ai_editor [])).2 in
  JQ.val ai_editor (AIExample.labelSel x) = Some "Foo"
  ∧ shown (doc w') [0; 2; 0] = Some "Foo"
  ∧ get [0; 1] (doc w') = get [0; 1] ai_editor.
Proof.
  intros x w'.
  assert (JQ.val (doc (World ai_editor [])) (AIExample.labelSel x) = Some "Foo") as Hlabel
    by evaluate.
  split; [exact Hlabel|].
  destruct (AIExample_updateHandler_label x (World ai_editor []) "Foo" Hlabel)
    as (Hone & Hother & _).
  split.
  - eapply (Hone [0; 2] [0; 2; 0]).
    + evaluate.
    + evaluate.
    + intros m' Hm' Ha. cases Hm'; try done; vm_compute in Ha; discriminate Ha.
    + evaluate.
  - apply (Hother [0; 1]).
    + evaluate.
    + evaluate.
    + intros m' Hm'. cases Hm'; by vm_compute.
Defined.

(** * Option labels: [refreshOptionString] *)

(** C8.  [refreshOptionString] on an element of the document makes it
    show: the translation of "Not Selected" when the element's value is the
    empty string; otherwise, when [isNaN] holds of the points attribute, the
    label alone (the translation of "Unnamed Option" standing in for an
    empty label; with no label attribute at all the text stays as it was);
    otherwise what [ngettext] chooses between "label - N point" and
    "label - N points", with the same stand-in for an empty label.  So with
    an empty label, points "5" and a non-empty value, on a page whose
    catalogue leaves "Unnamed Option" as it is and takes the plural for
    "5", the element shows "Unnamed Option - 5 points". *)
Theorem refreshOptionString_text {host : Host} (p : path) (w : world) :
  is_Some (data (doc w) p) →
  let d := doc w in
  let points := JQ.attr d [p] "data-points" in
  let label := JQ.attr d [p] "data-label" in
  let value := JQ.val d [p] in
  let label' := if bool_decide (label = Some "") then Some (gettext "Unnamed Option") else label in
  let singular := jsString (of_text label') +:+ " - " +:+ jsString (of_text points) +:+ " point" in
  let plural := jsString (of_text label') +:+ " - " +:+ jsString (of_text points) +:+ " points" in
  let w' := (ItemUtilities.refreshOptionString [p] w).2 in
  (value = Some "" → shown (doc w') p = Some (gettext "Not Selected"))
  ∧ (value ≠ Some "" → isNaN (of_text points) = true →
       shown (doc w') p = match label' with Some l => Some l | None => shown d p end)
  ∧ (value ≠ Some "" → isNaN (of_text points) = false →
       shown (doc w') p = Some (ngettext singular plural (of_text points)))
  ∧ (value ≠ Some "" → label = Some "" → points = Some "5" →
       isNaN (JStr "5") = false →
       gettext "Unnamed Option" = "Unnamed Option" →
       (∀ one many, ngettext one many (JStr "5") = many) →
       shown (doc w') p = Some "Unnamed Option - 5 points").
Proof.
  intros Hp d points label value label' singular plural w'.
  assert (∀ s, shown (doc (setText (Some s) [p] w).2) p = Some s) as Hset.
  { intros s. rewrite setText_one. simpl. by apply shown_setText. }
  assert (w' = (setText
    (if bool_decide (value = Some "") then Some (gettext "Not Selected")
     else if isNaN (of_text points) then label'
     else Some (ngettext singular plural (of_text points))) [p] w).2) as -> by done.
  split_and!.
  - intros Hv. by rewrite bool_decide_eq_true_2.
  - intros Hv Hn. rewrite bool_decide_eq_false_2, Hn by done. by destruct label'.
  - intros Hv Hn. by rewrite bool_decide_eq_false_2, Hn.
  - intros Hv Hl Hpt Hn Hg Hng. rewrite bool_decide_eq_false_2 by done.
    subst singular plural label'. rewrite Hpt, Hl. simpl. rewrite Hn, Hset, Hng, Hg.
    done.
Qed.

(** The second choice of a sample dropdown: no label, 5 points. *)
Lemma refreshOptionString_text_witness :
  is_Some (data training_example [2; 1])
  ∧ shown (doc (ItemUtilities.refreshOptionString (host := english) [[2; 1]]
                  (World training_example [])).2) [2; 1]
    = Some "Unnamed Option - 5 points".
Proof.
  assert (is_Some (data (doc (World training_example [])) [2; 1])) as Hp by evaluate.
  split; [exact Hp|].
  apply (refreshOptionString_text (host := english) [2; 1] (World training_example []) Hp).
  - evaluate.
  - evaluate.
  - evaluate.
  - reflexivity.
  - reflexivity.
  - reflexivity.
Defined.

(** * More about documents *)

(** ** Paths *)

Lemma prefixb_refl p : prefixb p p = true.
Proof. induction p; simpl; [done|]. by rewrite bool_decide_eq_true_2. Qed.

Lemma prefixb_antisym p q : prefixb p q = true → prefixb q p = true → p = q.
Proof.
  revert q. induction p as [|i p IH]; intros [|j q]; simpl; try done.
  intros [->%bool_decide_eq_true_1 Hpq]%andb_true_iff [_ Hqp]%andb_true_iff.
  f_equal. by apply IH.
Qed.

Lemma below_irrefl p : below p p = false.
Proof. unfold below. by rewrite bool_decide_eq_true_2, andb_false_r. Qed.

Lemma below_trans p q r : below p q = true → below q r = true → below p r = true.
Proof.
  unfold below. intros [Hpq Hne1]%andb_true_iff [Hqr Hne2]%andb_true_iff.
  apply andb_true_iff. split; [by eapply prefixb_trans|].
  apply negb_true_iff, bool_decide_eq_false_2. intros ->.
  apply negb_true_iff, bool_decide_eq_false_1 in Hne1. destruct Hne1.
  by apply prefixb_antisym.
Qed.

Lemma prefixb_split p q : prefixb p q = true → ∃ r, q = p ++ r.
Proof.
  revert q. induction p as [|i p IH]; intros q; [by exists q|].
  destruct q as [|j q]; simpl; [done|].
  intros [->%bool_decide_eq_true_1 (r & ->)%IH]%andb_true_iff. by exists r.
Qed.

Lemma below_split p q : below p q = true → ∃ j r, q = p ++ j :: r.
Proof.
  unfold below. intros [(r & ->)%prefixb_split Hne]%andb_true_iff.
  apply negb_true_iff, bool_decide_eq_false_1 in Hne.
  destruct r as [|j r]; [by rewrite app_nil_r in Hne|]. eauto.
Qed.

Lemma apart_diverge (o o' : path) :
  o ≠ o' → below o o' = false → below o' o = false →
  prefixb o' o = false ∧ prefixb o o' = false.
Proof.
  unfold below. intros Hne H1 H2. split.
  - apply andb_false_iff in H2 as [?|H2]; [done|].
    apply negb_false_iff, bool_decide_eq_true_1 in H2. by destruct Hne.
  - apply andb_false_iff in H1 as [?|H1]; [done|].
    apply negb_false_iff, bool_decide_eq_true_1 in H1. by destruct Hne.
Qed.

(** ** Reading after a write *)

Lemma data_get n p : is_Some (data n p) → is_Some (get p n).
Proof. unfold data. destruct (get p n); [eauto|by intros [? ?]]. Qed.

Lemma data_cons e ks j r :
  data (Elem e ks) (j :: r) = ks !! j ≫= λ k, data k r.
Proof. unfold data. simpl. by destruct (ks !! j). Qed.

Lemma get_app p r n : get (p ++ r) n = get p n ≫= get r.
Proof.
  revert n. induction p as [|i p IH]; intros n; simpl; [done|].
  destruct n as [s|e ks]; [done|]. destruct (ks !! i); simpl; [apply IH|done].
Qed.

Lemma data_update_kids h p n q :
  below p q = false → data (update (on_kids h) p n) q = data n q.
Proof.
  unfold below. intros [Hpre|Heq]%andb_false_iff; [by apply data_update_outside|].
  apply negb_false_iff, bool_decide_eq_true_1 in Heq. subst q.
  unfold data. rewrite get_update_same. by destruct (get p n) as [[s|e ks]|].
Qed.

Lemma update_twice f p n :
  (∀ m, f (f m) = f m) → update f p (update f p n) = update f p n.
Proof.
  intros Hf. revert n. induction p as [|i p IH]; intros n; simpl; [done|].
  destruct n as [s|e ks]; [done|]. f_equal. rewrite list_alter_alter_eq.
  apply list_alter_ext; [|done]. intros k _. apply IH.
Qed.

(** Below an element whose children gave way to a text there is no element. *)
Lemma data_setText_below s p n q :
  below p q = true → data (update (on_kids (λ _, [Text s])) p n) q = None.
Proof.
  intros (j & r & ->)%below_split. unfold data. rewrite get_app, get_update_same.
  destruct (get p n) as [[t|e ks]|]; simpl; [done| |done].
  destruct j as [|j]; simpl; [by destruct r|done].
Qed.

Lemma data_setText_Some s p n q e :
  data (update (on_kids (λ _, [Text s])) p n) q = Some e → data n q = Some e.
Proof.
  destruct (below p q) eqn:Hb.
  - by rewrite data_setText_below.
  - by rewrite data_update_kids.
Qed.

Lemma textContent_Elem e ks :
  textContent (Elem e ks) = foldr (λ k acc, textContent k +:+ acc) "" ks.
Proof. simpl. induction ks as [|k ks IH]; simpl; [done|]. by rewrite IH. Qed.

Lemma textContent_update_data g p n :
  textContent (update (on_data g) p n) = textContent n.
Proof.
  revert n. induction p as [|i p IH]; intros n.
  - by destruct n.
  - destruct n as [s|e ks]; [done|]. simpl update. rewrite !textContent_Elem.
    revert i. induction ks as [|k ks IHks]; intros i; [done|].
    destruct i as [|i]; simpl.
    + by rewrite IH.
    + f_equal. apply IHks.
Qed.

Lemma shown_update_data g p n o : shown (update (on_data g) p n) o = shown n o.
Proof.
  unfold shown. revert p n. induction o as [|j o IH]; intros p n.
  - simpl. by rewrite textContent_update_data.
  - destruct p as [|i p]; destruct n as [s|e ks]; simpl; try done.
    destruct (decide (i = j)) as [->|Hij].
    + rewrite list_lookup_alter_eq. destruct (ks !! j) as [k|]; simpl; [apply IH|done].
    + by rewrite list_lookup_alter_ne.
Qed.

Lemma each_data_cons g p S d :
  each_data g (p :: S) d = each_data g S (update (on_data g) p d).
Proof. done. Qed.

Lemma shown_each_data g S d o : shown (each_data g S d) o = shown d o.
Proof.
  revert d. induction S as [|p S IH]; intros d; [done|].
  by rewrite each_data_cons, IH, shown_update_data.
Qed.

Lemma update_data_comm g h p q n :
  (∀ e, g (h e) = h (g e)) →
  update (on_data g) p (update (on_data h) q n)
  = update (on_data h) q (update (on_data g) p n).
Proof.
  intros Hgh. revert q n. induction p as [|i p IH]; intros q n.
  - destruct q as [|j q]; destruct n as [s|e ks]; simpl; try done. by rewrite Hgh.
  - destruct q as [|j q]; destruct n as [s|e ks]; simpl; try done. f_equal.
    destruct (decide (i = j)) as [->|Hij].
    + rewrite !list_alter_alter_eq. apply list_alter_ext; [|done]. intros k _. apply IH.
    + by apply list_alter_alter_ne.
Qed.

Lemma each_data_update_comm g S p d :
  update (on_data g) p (each_data g S d) = each_data g S (update (on_data g) p d).
Proof.
  revert d. induction S as [|q S IH]; intros d; [done|].
  rewrite !each_data_cons, IH. f_equal. by apply update_data_comm.
Qed.

Lemma each_data_twice g `{!Idem g} S d : each_data g S (each_data g S d) = each_data g S d.
Proof.
  revert d. induction S as [|p S IH]; intros d; [done|].
  rewrite !each_data_cons, each_data_update_comm, IH. f_equal. apply update_twice.
  intros [s|e ks]; simpl; [done|]. by rewrite idem.
Qed.

Lemma hasClass_singleton d q c : JQ.hasClass d [q] c = matches_at d (Class c) q.
Proof. unfold JQ.hasClass. simpl. by rewrite orb_false_r. Qed.

Lemma hasClass_each_data g `{!Idem g} S d q c :
  JQ.hasClass (each_data g S d) [q] c
  = match data d q with
    | Some e => matches (Class c) (if bool_decide (q ∈ S) then g e else e)
    | None => false
    end.
Proof. rewrite hasClass_singleton. by apply matches_at_each_data. Qed.

Lemma attr_each_data_other g `{!Idem g} S d s a :
  (∀ e, attrs (g e) !! a = attrs e !! a) →
  JQ.attr (each_data g S d) [s] a = JQ.attr d [s] a.
Proof.
  intros Hg. rewrite !attr_singleton, data_each_data by done.
  case_bool_decide; [|done]. destruct (data d s); simpl; [apply Hg|done].
Qed.

Lemma attr_write_attr_other a b v S d s :
  a ≠ b → JQ.attr (write_attr a v S d) [s] b = JQ.attr d [s] b.
Proof.
  intros Hab. destruct v; simpl; try done;
    (apply attr_each_data_other; [apply _|]; intros e; simpl;
     by rewrite ?lookup_insert_ne, ?lookup_delete_ne).
Qed.

(** ** Classes *)

Lemma remove_class_gone c e : c ∉ classes (remove_class c e).
Proof.
  simpl. intros Hin. apply list_elem_of_In, filter_In in Hin as [_ Hc].
  by rewrite bool_decide_eq_true_2 in Hc.
Qed.

Lemma remove_add_class c e : c ∉ classes e → remove_class c (add_class c e) = e.
Proof.
  intros Hc. unfold add_class. rewrite bool_decide_eq_false_2 by done.
  unfold remove_class. simpl. destruct e as [t a cs v]. simpl in *. f_equal.
  rewrite List.filter_app. simpl. rewrite bool_decide_eq_true_2 by done. simpl.
  rewrite app_nil_r. induction cs as [|c' cs IH]; [done|]. simpl.
  rewrite bool_decide_eq_false_2 by set_solver. simpl. f_equal. apply IH. set_solver.
Qed.

Lemma remove_class_absent c e : c ∉ classes e → remove_class c e = e.
Proof.
  intros Hc. unfold remove_class. destruct e as [t a cs v]. simpl in *. f_equal.
  induction cs as [|c' cs IH]; [done|]. simpl.
  rewrite bool_decide_eq_false_2 by set_solver. simpl. f_equal. apply IH. set_solver.
Qed.

Lemma marked_false d p e : marked d p = false → data d p = Some e → highlighted ∉ classes e.
Proof.
  unfold marked. rewrite hasClass_singleton. unfold matches_at. intros Hm Hd.
  rewrite Hd in Hm. simpl in Hm. by apply bool_decide_eq_false_1 in Hm.
Qed.

Lemma same_but_classes_refl cs e : same_but_classes cs e e.
Proof. by split_and!. Qed.

Lemma same_but_classes_trans cs e1 e2 e3 :
  same_but_classes cs e1 e2 → same_but_classes cs e2 e3 → same_but_classes cs e1 e3.
Proof.
  intros (? & ? & ? & H12) (? & ? & ? & H23). split_and!; try congruence.
  intros c Hc. by rewrite H23, H12.
Qed.

Lemma same_but_classes_weaken cs cs' e e' :
  cs ⊆ cs' → same_but_classes cs e e' → same_but_classes cs' e e'.
Proof.
  intros Hsub (? & ? & ? & Hc). split_and!; try done.
  intros c Hn. apply Hc. intros Hin. by apply Hn, Hsub.
Qed.

Lemma same_but_add_class c e : same_but_classes [c] e (add_class c e).
Proof.
  unfold add_class. case_bool_decide; [apply same_but_classes_refl|].
  split_and!; try done. simpl. intros c' Hc'. rewrite elem_of_app, list_elem_of_singleton.
  split; [|by left]. intros [?| ->]; [done|]. destruct Hc'. by left.
Qed.

Lemma same_but_remove_class c e : same_but_classes [c] e (remove_class c e).
Proof.
  split_and!; try done. simpl. intros c' Hc'.
  rewrite !list_elem_of_In, filter_In, negb_true_iff, bool_decide_eq_false.
  split; [by intros [? _]|]. intros ?. split; [done|]. intros ->. apply Hc'. by left.
Qed.

(** ** Rewriting all the data at once *)

Lemma map_data_Elem f e ks : map_data f (Elem e ks) = Elem (f [] e) (map_data_kids f 0 ks).
Proof.
  simpl. f_equal. generalize 0. induction ks as [|k ks IH]; intros i; simpl; [done|].
  by rewrite IH.
Qed.

Lemma lookup_map_data_kids f i ks j :
  map_data_kids f i ks !! j = map_data (λ q, f ((i + j) :: q)) <$> ks !! j.
Proof.
  revert i j. induction ks as [|k ks IH]; intros i j; [done|].
  destruct j as [|j]; simpl.
  - by rewrite Nat.add_0_r.
  - rewrite IH. by replace (S i + j) with (i + S j) by lia.
Qed.

Lemma map_data_kids_ext f g ks :
  (∀ j k, ks !! j = Some k → map_data (λ q, f (j :: q)) k = map_data (λ q, g (j :: q)) k) →
  map_data_kids f 0 ks = map_data_kids g 0 ks.
Proof.
  intros Hfg. apply list_eq. intros j. rewrite !lookup_map_data_kids. simpl.
  destruct (ks !! j) as [k|] eqn:Hk; [|done]. simpl. f_equal. by apply Hfg.
Qed.

(** Two rewritings that agree on the elements of the document agree. *)
Lemma map_data_ext f g n :
  (∀ q e, data n q = Some e → f q e = g q e) → map_data f n = map_data g n.
Proof.
  revert f g. induction n as [s|e ks IH] using node_ind; intros f g Hfg; [done|].
  rewrite !map_data_Elem. f_equal; [by apply Hfg|].
  apply map_data_kids_ext. intros j k Hk.
  rewrite Forall_lookup in IH. apply (IH j k Hk).
  intros q e' Hq. apply Hfg. by rewrite data_cons, Hk.
Qed.

Lemma map_data_id n : map_data (λ _ e, e) n = n.
Proof.
  induction n as [s|e ks IH] using node_ind; [done|].
  rewrite map_data_Elem. f_equal. apply list_eq. intros j.
  rewrite lookup_map_data_kids. destruct (ks !! j) as [k|] eqn:Hk; [|done]. simpl.
  f_equal. rewrite Forall_lookup in IH. by apply (IH j k).
Qed.

Lemma update_map_data g p f n :
  update (on_data g) p (map_data f n)
  = map_data (λ q e, if bool_decide (q = p) then g (f q e) else f q e) n.
Proof.
  revert f p. induction n as [s|e ks IH] using node_ind; intros f p.
  - by destruct p.
  - rewrite !map_data_Elem. destruct p as [|i p]; simpl.
    + f_equal. by apply map_data_kids_ext.
    + f_equal. apply list_eq. intros j. rewrite lookup_map_data_kids. simpl.
      rewrite Forall_lookup in IH.
      destruct (decide (i = j)) as [->|Hij].
      * rewrite list_lookup_alter_eq, lookup_map_data_kids. simpl.
        destruct (ks !! j) as [k|] eqn:Hk; [|done]. simpl. f_equal.
        rewrite (IH j k Hk). apply map_data_ext. intros q e' _.
        repeat case_bool_decide; simplify_eq; done.
      * rewrite list_lookup_alter_ne, lookup_map_data_kids by done. simpl.
        destruct (ks !! j) as [k|] eqn:Hk; [|done]. simpl. f_equal.
        apply map_data_ext. intros q e' _. rewrite bool_decide_eq_false_2; [done|].
        congruence.
Qed.

Lemma each_data_after_map_data g `{!Idem g} S f n :
  each_data g S (map_data f n)
  = map_data (λ q e, if bool_decide (q ∈ S) then g (f q e) else f q e) n.
Proof.
  revert f. induction S as [|p S IH]; intros f.
  - apply map_data_ext. intros q e _. rewrite bool_decide_eq_false_2; [done|].
    by intros ?%elem_of_nil.
  - rewrite each_data_cons, update_map_data, IH. apply map_data_ext. intros q e _.
    repeat case_bool_decide; simplify_eq; try done; set_solver.
Qed.

Lemma each_data_map_data g `{!Idem g} S n :
  each_data g S n = map_data (λ q e, if bool_decide (q ∈ S) then g e else e) n.
Proof. rewrite <-(map_data_id n) at 1. by rewrite each_data_after_map_data. Qed.

(** Marking some of the elements of [S] and then unmarking all of them
    restores a document in which none of them was marked. *)
Lemma unmark_mark S F d :
  (∀ p, p ∈ F → p ∈ S) → clean S d → unmark S (mark F d) = d.
Proof.
  intros Hsub Hclean. unfold unmark, mark.
  rewrite (each_data_map_data (add_class highlighted)), each_data_after_map_data by apply _.
  rewrite <-(map_data_id d) at 2. apply map_data_ext. intros q e Hq.
  destruct (bool_decide (q ∈ S)) eqn:HS.
  - apply bool_decide_eq_true_1 in HS.
    pose proof (marked_false d q e (Hclean q HS) Hq) as Hc.
    case_bool_decide; [by apply remove_add_class|by apply remove_class_absent].
  - apply bool_decide_eq_false_1 in HS. rewrite bool_decide_eq_false_2; [done|].
    intros HF. by apply HS, Hsub.
Qed.

(** ** A child leaves *)

Lemma data_remove par i n q :
  is_Some (get (par ++ [i]) n) →
  data (Dom.remove (par ++ [i]) n) q = data n (origin par i q).
Proof.
  revert n q. induction par as [|k par IH]; intros n q Hp.
  - destruct n as [s|e ks]; [by destruct Hp|]. simpl in *.
    destruct q as [|j r]; [done|]. simpl. rewrite !data_cons.
    destruct (i <=? j) eqn:Hij.
    + apply Nat.leb_le in Hij. by rewrite list_lookup_delete_ge.
    + apply Nat.leb_gt in Hij. by rewrite list_lookup_delete_lt.
  - destruct n as [s|e ks]; [by destruct Hp|].
    assert (Dom.remove ((k :: par) ++ [i]) (Elem e ks)
            = Elem e (alter (Dom.remove (par ++ [i])) k ks)) as ->.
    { simpl. by destruct par. }
    simpl in Hp. destruct (ks !! k) as [c|] eqn:Hk; [|by destruct Hp].
    destruct q as [|j q']; [by destruct par|]. simpl.
    case_bool_decide as Hkj.
    + subst j. rewrite !data_cons, list_lookup_alter_eq, Hk. simpl. by apply IH.
    + by rewrite !data_cons, list_lookup_alter_ne.
Qed.

Lemma origin_length par i q : length (origin par i q) = length q.
Proof.
  revert q. induction par as [|k par IH]; intros [|j q]; simpl; try done.
  case_bool_decide; simpl; by rewrite ?IH.
Qed.

Lemma prefixb_origin s par i q :
  prefixb s par = true → prefixb s (origin par i q) = prefixb s q.
Proof.
  revert par q. induction s as [|a s IH]; intros par q Hs; [done|].
  destruct par as [|k par]; [done|]. simpl in Hs.
  apply andb_true_iff in Hs as [->%bool_decide_eq_true_1 Hs].
  destruct q as [|j q]; [done|]. simpl.
  destruct (bool_decide (k = j)) eqn:Hkj; simpl; rewrite Hkj; simpl; [|done]. by rewrite IH.
Qed.

Lemma origin_prefix s par i q :
  prefixb s par = true → origin par i q = s ↔ q = s.
Proof.
  revert par q. induction s as [|a s IH]; intros par q Hs.
  - split.
    + intros Ho. apply (f_equal length) in Ho. rewrite origin_length in Ho.
      by destruct q.
    + intros ->. by destruct par.
  - destruct par as [|k par]; [done|]. simpl in Hs.
    apply andb_true_iff in Hs as [Hak%bool_decide_eq_true_1 Hs]. subst a.
    destruct q as [|j q]; [done|]. simpl.
    case_bool_decide as Hkj; [|done]. subst j.
    split; intros [= Hq]; f_equal; by apply (IH par q Hs).
Qed.

Lemma below_origin s par i q :
  prefixb s par = true → below s (origin par i q) = below s q.
Proof.
  intros Hs. unfold below. rewrite prefixb_origin by done. do 2 f_equal.
  apply bool_decide_ext. split; intros Heq; symmetry; symmetry in Heq;
    by apply (origin_prefix s par i q Hs).
Qed.

Lemma origin_not_removed par i q : origin par i q ≠ par ++ [i].
Proof.
  revert q. induction par as [|k par IH]; intros [|j q]; simpl; try done.
  - destruct (i <=? j) eqn:Hij; intros [= ??]; subst.
    + apply Nat.leb_le in Hij. lia.
    + apply Nat.leb_gt in Hij. lia.
  - case_bool_decide as Hkj; [|intros [= ??]; by destruct Hkj]. intros [= ?]. by eapply IH.
Qed.

Lemma parent_singleton par i : parent [par ++ [i]] = [par].
Proof. unfold parent. simpl. destruct (par ++ [i]) eqn:Hp; [by destruct par|].
  by rewrite <-Hp, removelast_last. Qed.

(** ** Numerals *)

Lemma strip_cr_pretty_N_go x s : strip_cr s = s → strip_cr (pretty_N_go x s) = pretty_N_go x s.
Proof.
  revert s. induction (N.lt_wf_0 x) as [x _ IH]; intros s Hs.
  assert (x = 0 ∨ 0 < x)%N as [->|?] by lia.
  - by rewrite pretty_N_go_0.
  - rewrite pretty_N_go_step by done. apply IH.
    { by apply N.div_lt. }
    simpl. rewrite Hs. unfold pretty_N_char. by repeat case_match.
Qed.

Lemma pretty_N_go_nonempty x s : s ≠ "" → pretty_N_go x s ≠ "".
Proof.
  revert s. induction (N.lt_wf_0 x) as [x _ IH]; intros s Hs.
  assert (x = 0 ∨ 0 < x)%N as [->|?] by lia.
  - by rewrite pretty_N_go_0.
  - rewrite pretty_N_go_step by done. apply IH; [by apply N.div_lt|done].
Qed.

(** A decimal numeral holds no carriage return and is not empty. *)
Lemma strip_cr_pretty (k : nat) : strip_cr (pretty k) = pretty k.
Proof.
  unfold pretty, pretty_nat, pretty, pretty_N. case_decide; [done|].
  by apply strip_cr_pretty_N_go.
Qed.

Lemma pretty_nonempty (k : nat) : pretty k ≠ "".
Proof.
  unfold pretty, pretty_nat, pretty, pretty_N. case_decide; [done|].
  assert (0 < N.of_nat k)%N by lia. rewrite pretty_N_go_step by done.
  by apply pretty_N_go_nonempty.
Qed.

(** ** One step of a loop *)

Lemma forEach_cons {A} (f : A → M unit) a l w :
  forEach f (a :: l) w = forEach f l (f a w).2.
Proof. simpl. unfold mbind, M_bind. by destruct (f a w) as [[] w1]. Qed.

Lemma gets_bind {A B} (f : node → A) (k : A → M B) w : (gets f ≫= k) w = k (f (doc w)) w.
Proof. done. Qed.

Lemma mapEach_gets {A B} (g : node → A → B) (step : A → M B) l w :
  (∀ a, step a w = (g (doc w) a, w)) → mapEach step l w = (map (g (doc w)) l, w).
Proof.
  intros Hstep. induction l as [|a l IH]; [done|].
  simpl. unfold mbind, M_bind. rewrite Hstep, IH. done.
Qed.

(** * The texts of the options: [refreshOptionString] and the add handlers *)

Section refresh.
Context {host : Host}.

(** The text [refreshOptionString] chooses for the element at [p]. *)
Lemma refreshOptionString_run p w :
  ∃ text : option string,
    ItemUtilities.refreshOptionString [p] w = setText text [p] w
    ∧ ∀ w', data (doc w') p = data (doc w) p →
            ItemUtilities.refreshOptionString [p] w' = setText text [p] w'.
Proof.
  unfold ItemUtilities.refreshOptionString, mbind, M_bind, gets. eexists. split; [done|].
  intros w' Hp. cbn beta iota. rewrite !attr_singleton. unfold JQ.val. simpl. by rewrite Hp.
Qed.

Lemma setText_frame text p w q :
  below p q = false → data (doc (setText text [p] w).2) q = data (doc w) q.
Proof.
  intros Hq. destruct text as [s|]; [|done]. rewrite setText_one. simpl.
  by apply data_update_kids.
Qed.

Lemma refreshOptionString_frame p w q :
  below p q = false →
  data (doc (ItemUtilities.refreshOptionString [p] w).2) q = data (doc w) q.
Proof.
  intros Hq. destruct (refreshOptionString_run p w) as (text & -> & _).
  by apply setText_frame.
Qed.

Lemma confined_pure {A} S (m : M A) : pure m → confined S m.
Proof. intros Hm w q _. by rewrite Hm. Qed.

Lemma confined_bind {A B} S (m : M A) (k : A → M B) :
  confined S m → (∀ a, confined S (k a)) → confined S (m ≫= k).
Proof.
  intros Hm Hk w q Hq. unfold mbind, M_bind. specialize (Hm w q Hq).
  destruct (m w) as [a w1]. simpl in *. rewrite <-Hm. by apply Hk.
Qed.

Lemma confined_forEach {A} S (f : A → M unit) l :
  (∀ a, a ∈ l → confined S (f a)) → confined S (forEach f l).
Proof.
  induction l as [|a l IH]; intros Hf; [by apply confined_pure|]. simpl.
  apply confined_bind; [apply Hf; by left|]. intros _. apply IH.
  intros b Hb. apply Hf. by right.
Qed.

Lemma confined_gets_bind {A B} S (f : node → A) (k : A → M B) :
  (∀ d, confined S (k (f d))) → confined S (gets f ≫= k).
Proof. intros Hk w q Hq. unfold mbind, M_bind, gets. by apply Hk. Qed.

Lemma confined_refreshOptionString S e p :
  e ∈ S → below e p = true → confined S (ItemUtilities.refreshOptionString [p]).
Proof.
  intros He Hp w q Hq. apply refreshOptionString_frame.
  destruct (below p q) eqn:Hpq; [|done].
  rewrite <-(Hq e He). symmetry. by eapply below_trans.
Qed.

(** The loop over the options of the dropdowns, shared by the two kinds of
    example. *)
Lemma confined_refresh_loop S cls :
  confined S
    (dropdowns ← gets (λ d, find d S (Class cls));
     forEach (λ p,
         opts ← gets (λ d, find d [p] (Tag "option"));
         forEach (λ q, ItemUtilities.refreshOptionString [q]) opts)
       dropdowns).
Proof.
  apply confined_gets_bind. intros d. apply confined_forEach.
  intros p (e & He & Hp)%find_below. apply confined_gets_bind. intros d'.
  apply confined_forEach. intros o (p' & ->%list_elem_of_singleton & Ho)%find_below.
  apply (confined_refreshOptionString S e); [done|]. by eapply below_trans.
Qed.

End refresh.



Lemma AIExample_addHandler_run {host : Host} x w :
  let w1 := ((dropdowns ← gets (λ d, find d (AIExample.element x)
                                       (Class "openassessment_ai_example_criterion_option"));
              forEach (λ p,
                  opts ← gets (λ d, find d [p] (Tag "option"));
                  forEach (λ q, ItemUtilities.refreshOptionString [q]) opts)
                dropdowns) w).2 in
  AIExample.addHandler x w
  = (tt, World (each_data
                  (put_attr "data-example"
                     (ItemUtilities.createUniqueName (AIExample.element x) "data-example" w1).1)
                  (AIExample.element x) (doc w1))
           (fired w1)).
Proof.
  intros w1. subst w1. unfold AIExample.addHandler. rewrite !gets_bind.
  unfold mbind at 1, M_bind.
  match goal with |- context [let (_, _) := ?m w in _] => destruct (m w) as [[] w1] end.
  unfold mbind, M_bind, ItemUtilities.createUniqueName, gets. by rewrite setAttr_run.
Qed.

(** X2.  [TrainingExample.addHandler] fires nothing and works inside the
    example only: an element that is not strictly below an element of the
    example, the example element itself included, keeps its data.  So does
    [AIExample.addHandler], except that it names the example element. *)
Theorem example_addHandler_confined {host : Host} :
  (∀ (x : TrainingExample.t) (w : world),
     let w' := (TrainingExample.addHandler x w).2 in
     fired w' = fired w
     ∧ ∀ q, (∀ e, e ∈ TrainingExample.element x → below e q = false) →
            data (doc w') q = data (doc w) q)
  ∧ (∀ (x : AIExample.t) (w : world),
     let w' := (AIExample.addHandler x w).2 in
     fired w' = fired w
     ∧ ∀ q, (∀ e, e ∈ AIExample.element x → below e q = false) →
            q ∉ AIExample.element x →
            data (doc w') q = data (doc w) q).
Proof.
  assert (∀ S cls, quiet
    (dropdowns ← gets (λ d, find d S (Class cls));
     forEach (λ p,
         opts ← gets (λ d, find d [p] (Tag "option"));
         forEach (λ q, ItemUtilities.refreshOptionString [q]) opts)
       dropdowns)) as Hquiet.
  { intros S cls. apply quiet_bind; [by apply pure_quiet|]. intros l. apply quiet_forEach.
    intros p. apply quiet_bind; [by apply pure_quiet|]. intros l'. apply quiet_forEach.
    intros q. apply refreshOptionString_quiet. }
  split; intros x w w'.
  - split; [apply Hquiet|].
    intros q Hq. by apply (confined_refresh_loop (TrainingExample.element x)).
  - subst w'. rewrite AIExample_addHandler_run. cbn beta iota zeta delta [snd doc fired].
    split; [apply Hquiet|].
    intros q Hq Hn. rewrite data_each_data by apply _.
    rewrite bool_decide_eq_false_2 by done.
    by apply (confined_refresh_loop (AIExample.element x)).
Qed.

(** On the sample page the heading and the example element keep their data. *)
Lemma example_addHandler_confined_witness :
  let x := TrainingExample.Make [[1]] [[1; 1]; [1; 2]] [[1; 0]] in
  let w' := (TrainingExample.addHandler (host := english) x (World training_page [])).2 in
  data (doc w') [0] = data training_page [0]
  ∧ data (doc w') [1] = data training_page [1].
Proof.
  intros x w'.
  destruct (proj1 (example_addHandler_confined (host := english)) x (World training_page []))
    as [_ Hout].
  split; apply Hout; intros e He; cases He; by vm_compute.
Defined.

Section option_texts.
Context {host : Host} (w0 : world) (Opts : jq).
Hypothesis Hflat : ∀ o o', o ∈ Opts → o' ∈ Opts → below o o' = false.
Hypothesis Hthere : ∀ o, o ∈ Opts → is_Some (data (doc w0) o).

(** The option at [o] shows what [refreshOptionString] alone would have made
    it show. *)
Let Post (o : path) (w : world) : Prop :=
  shown (doc w) o = shown (doc (ItemUtilities.refreshOptionString [o] w0).2) o.

(** The state of the document while the options are being written: what is
    not inside an option is as it was, nothing new has appeared, and every
    option is either as it was or written. *)
Let Inv (w : world) : Prop :=
  (∀ q, (∀ o, o ∈ Opts → below o q = false) → data (doc w) q = data (doc w0) q)
  ∧ (∀ q e, data (doc w) q = Some e → data (doc w0) q = Some e)
  ∧ (∀ o, o ∈ Opts → get o (doc w) = get o (doc w0) ∨ Post o w).

Lemma Inv_start : Inv w0.
Proof. split_and!; [done|done|]. intros o _. by left. Qed.

Lemma refresh_step o' w :
  o' ∈ Opts → Inv w →
  let w' := (ItemUtilities.refreshOptionString [o'] w).2 in
  Inv w' ∧ Post o' w' ∧ ∀ o, o ∈ Opts → Post o w → Post o w'.
Proof.
  intros Ho' (Hout & Hold & Hopts) w'.
  assert (data (doc w) o' = data (doc w0) o') as Hsame.
  { apply Hout. intros o Ho. by apply Hflat. }
  destruct (refreshOptionString_run o' w0) as (text & Hrun0 & Hrun).
  assert (w' = (setText text [o'] w).2) as Hw' by (unfold w'; by rewrite Hrun).
  assert (Post o' w') as Hdone.
  { unfold Post. rewrite Hrun0, Hw'. destruct text as [s|].
    - rewrite !setText_one. simpl. rewrite !shown_setText; [done|by apply Hthere|].
      rewrite Hsame. by apply Hthere.
    - simpl. destruct (Hopts o' Ho') as [Hget|Hpost].
      + unfold shown. by rewrite Hget.
      + unfold Post in Hpost. by rewrite Hrun0 in Hpost. }
  assert (∀ o, o ∈ Opts → o ≠ o' → get o (doc w') = get o (doc w)) as Hother.
  { intros o Ho Hne. rewrite Hw'. destruct text as [s|]; [|done].
    rewrite setText_one. simpl.
    destruct (apart_diverge o o' Hne (Hflat o o' Ho Ho') (Hflat o' o Ho' Ho)) as [H1 H2].
    by apply get_update_diverge. }
  assert (∀ o, o ∈ Opts → Post o w → Post o w') as Hstable.
  { intros o Ho Hpost. destruct (decide (o = o')) as [->|Hne]; [done|].
    unfold Post in *. unfold shown in *. by rewrite Hother. }
  split_and!; [split_and!| done | done].
  - intros q Hq. rewrite <-(Hout q Hq). rewrite Hw'. apply setText_frame. by apply Hq.
  - intros q e. rewrite Hw'. destruct text as [s|]; [|by apply Hold].
    rewrite setText_one. simpl. intros Hq%data_setText_Some. by apply Hold.
  - intros o Ho. destruct (decide (o = o')) as [->|Hne]; [by right|].
    destruct (Hopts o Ho) as [Hget|Hpost]; [left|right].
    + by rewrite Hother.
    + by apply Hstable.
Qed.

Lemma refresh_each l w :
  (∀ o, o ∈ l → o ∈ Opts) → Inv w →
  let w' := (forEach (λ q, ItemUtilities.refreshOptionString [q]) l w).2 in
  Inv w' ∧ (∀ o, o ∈ Opts → Post o w → Post o w') ∧ ∀ o, o ∈ l → Post o w'.
Proof.
  revert w. induction l as [|o' l IH]; intros w Hl HInv w'.
  - split_and!; [done|done|]. by intros o ?%elem_of_nil.
  - subst w'. rewrite forEach_cons.
    destruct (refresh_step o' w) as (HInv1 & Hdone1 & Hstable1); [apply Hl; by left|done|].
    destruct (ItemUtilities.refreshOptionString [o'] w) as [[] w1]. simpl in *.
    destruct (IH w1) as (HInv2 & Hstable2 & Hdone2); [intros o Ho; apply Hl; by right|done|].
    split_and!; [done|by eauto|].
    intros o [->|Ho]%elem_of_cons; [|by apply Hdone2].
    apply Hstable2; [apply Hl; by left|done].
Qed.

Lemma refresh_dropdowns dl w :
  (∀ dd o, dd ∈ dl → o ∈ find (doc w0) [dd] (Tag "option") → o ∈ Opts) →
  Inv w →
  let w' := (forEach (λ p,
                opts ← gets (λ d, find d [p] (Tag "option"));
                forEach (λ q, ItemUtilities.refreshOptionString [q]) opts) dl w).2 in
  Inv w' ∧ (∀ o, o ∈ Opts → Post o w → Post o w')
  ∧ ∀ dd o, dd ∈ dl → o ∈ find (doc w0) [dd] (Tag "option") → Post o w'.
Proof.
  revert w. induction dl as [|dd dl IH]; intros w Hdl HInv w'.
  - split_and!; [done|done|]. by intros dd o ?%elem_of_nil.
  - subst w'. rewrite forEach_cons, gets_bind.
    assert (∀ o, o ∈ find (doc w) [dd] (Tag "option") ↔ o ∈ find (doc w0) [dd] (Tag "option"))
      as Hsame.
    { intros o. rewrite !elem_of_find. unfold matches_at. split.
      - intros [Hm Hb]. split; [|done]. destruct (data (doc w) o) as [e|] eqn:He; [|done].
        destruct HInv as (_ & Hold & _). by rewrite (Hold o e He).
      - intros [Hm Hb]. split; [|done].
        assert (o ∈ Opts) as Ho.
        { apply (Hdl dd); [by left|]. apply elem_of_find. by split. }
        destruct HInv as (Hout & _ & _). rewrite Hout; [done|].
        intros o' Ho'. by apply Hflat. }
    destruct (refresh_each (find (doc w) [dd] (Tag "option")) w) as (HInv1 & Hstable1 & Hdone1);
      [|done|].
    { intros o Ho%Hsame. apply (Hdl dd); [by left|done]. }
    destruct (forEach _ (find (doc w) [dd] (Tag "option")) w) as [[] w1]. simpl in *.
    destruct (IH w1) as (HInv2 & Hstable2 & Hdone2); [|done|].
    { intros dd' o Hdd' Ho. apply (Hdl dd'); [by right|done]. }
    split_and!; [done|by eauto|].
    intros dd' o [->|Hdd']%elem_of_cons Ho; [|by eapply Hdone2].
    apply Hstable2; [apply (Hdl dd); [by left|done]|]. by apply Hdone1, Hsame.
Qed.

End option_texts.

Section add_handlers.
Context {host : Host}.

(** The loop that both kinds of example run over the options of their
    dropdowns. *)
Lemma refresh_loop_texts S cls w :
  let dropdowns := find (doc w) S (Class cls) in
  let options := find (doc w) dropdowns (Tag "option") in
  (∀ o o', o ∈ options → o' ∈ options → below o o' = false) →
  let w' := ((dropdowns ← gets (λ d, find d S (Class cls));
              forEach (λ p,
                  opts ← gets (λ d, find d [p] (Tag "option"));
                  forEach (λ q, ItemUtilities.refreshOptionString [q]) opts)
                dropdowns) w).2 in
  ∀ o, o ∈ options →
       shown (doc w') o = shown (doc (ItemUtilities.refreshOptionString [o] w).2) o.
Proof.
  intros dropdowns options Hflat w' o Ho. subst w'. rewrite gets_bind. fold dropdowns.
  assert (∀ o, o ∈ options → is_Some (data (doc w) o)) as Hthere.
  { intros o'. apply elem_of_find_data. }
  assert (∀ dd o, dd ∈ dropdowns → o ∈ find (doc w) [dd] (Tag "option") → o ∈ options) as Hin.
  { intros dd o' Hdd [Hm (c & ->%list_elem_of_singleton & Hb)]%elem_of_find.
    apply elem_of_find. split; [done|]. by exists dd. }
  destruct (refresh_dropdowns w options Hflat Hthere dropdowns w Hin)
    as (_ & _ & Hdone); [by apply Inv_start|].
  apply elem_of_find in Ho as Ho'. destruct Ho' as [Hm (dd & Hdd & Hb)].
  apply (Hdone dd o Hdd). apply elem_of_find. split; [done|]. exists dd. split; [by left|done].
Qed.

End add_handlers.

(** X3.  After [TrainingExample.addHandler], and likewise after
    [AIExample.addHandler], every [option] element below a dropdown of the
    example shows what [refreshOptionString] alone would have made it show
    in the document the handler started from, provided no [option] of the
    example lies inside another one. *)
Theorem addHandler_option_texts {host : Host} :
  (∀ (x : TrainingExample.t) (w : world),
     let dropdowns := find (doc w) (TrainingExample.element x)
                        (Class "openassessment_training_example_criterion_option") in
     let options := find (doc w) dropdowns (Tag "option") in
     (∀ o o', o ∈ options → o' ∈ options → below o o' = false) →
     ∀ o, o ∈ options →
          shown (doc (TrainingExample.addHandler x w).2) o
          = shown (doc (ItemUtilities.refreshOptionString [o] w).2) o)
  ∧ (∀ (x : AIExample.t) (w : world),
     let dropdowns := find (doc w) (AIExample.element x)
                        (Class "openassessment_ai_example_criterion_option") in
     let options := find (doc w) dropdowns (Tag "option") in
     (∀ o o', o ∈ options → o' ∈ options → below o o' = false) →
     ∀ o, o ∈ options →
          shown (doc (AIExample.addHandler x w).2) o
          = shown (doc (ItemUtilities.refreshOptionString [o] w).2) o).
Proof.
  split; intros x w dropdowns options Hflat o Ho.
  - by apply (refresh_loop_texts (TrainingExample.element x)
                "openassessment_training_example_criterion_option" w Hflat).
  - rewrite <-(refresh_loop_texts (AIExample.element x)
                 "openassessment_ai_example_criterion_option" w Hflat o Ho).
    unfold AIExample.addHandler. rewrite !gets_bind. unfold mbind at 1, M_bind.
    match goal with |- context [let (_, _) := ?m w in _] => destruct (m w) as [[] w1] end.
    unfold mbind, M_bind, ItemUtilities.createUniqueName, gets. rewrite setAttr_run. simpl.
    apply shown_each_data.
Qed.

(** The options of the sample training example after its add handler. *)
Lemma addHandler_option_texts_witness :
  let x := TrainingExample.Make [[]] [[1]; [2]] [[0]] in
  shown (doc (TrainingExample.addHandler (host := english) x (World training_example [])).2) [2; 1]
  = Some "Unnamed Option - 5 points"
  ∧ shown (doc (TrainingExample.addHandler (host := english) x (World training_example [])).2)
      [1; 0]
    = Some "Not Selected".
Proof.
  intros x.
  destruct (addHandler_option_texts (host := english)) as [Htraining _].
  assert (∀ o o',
    o ∈ find training_example (find training_example [[]]
          (Class "openassessment_training_example_criterion_option")) (Tag "option") →
    o' ∈ find training_example (find training_example [[]]
          (Class "openassessment_training_example_criterion_option")) (Tag "option") →
    below o o' = false) as Hflat.
  { intros o o' Ho Ho'. cases Ho; cases Ho'; by vm_compute. }
  split.
  - etrans; [apply (Htraining x (World training_example []) Hflat); evaluate|]. evaluate.
  - etrans; [apply (Htraining x (World training_example []) Hflat); evaluate|]. evaluate.
Defined.

(** * Names, whatever the selection *)

Lemma createUniqueName_loop_taken d sel a fuel index :
  ∃ k : nat, ItemUtilities.createUniqueName_loop d sel a fuel index = pretty k
       ∧ index ≤ k ≤ index + fuel
       ∧ (∀ j : nat, index ≤ j < k → taken d sel a j = true)
       ∧ (k < index + fuel → taken d sel a k = false).
Proof.
  revert index. induction fuel as [|fuel IH]; intros index; simpl.
  - exists index. split_and!; [done|lia..].
  - destruct (length _ =? 0) eqn:Hlen.
    + exists index. split_and!; [done|lia|lia|lia|].
      intros _. unfold taken. by rewrite Hlen.
    + destruct (IH (S index)) as (k & Hk & Hle & Hbelow & Hfree).
      exists k. split_and!; [done|lia|lia| |].
      * intros j Hj. destruct (decide (j = index)) as [->|?]; [|apply Hbelow; lia].
        unfold taken. by rewrite Hlen.
      * intros ?. apply Hfree. lia.
Qed.

Lemma parent_rootless (sel : jq) : (∀ s, s ∈ sel → s = []) → parent sel = [].
Proof.
  intros Hsel. unfold parent. induction sel as [|s sel IH]; [done|]. simpl.
  rewrite (Hsel s) by by left. apply IH. intros s' Hs'. apply Hsel. by right.
Qed.

Lemma createUniqueName_bound sel a w :
  ∃ k : nat, k ≤ S (length sel) ∧ ItemUtilities.createUniqueName sel a w = (pretty k, w).
Proof.
  destruct (createUniqueName_loop_taken (doc w) sel a (S (length sel)) 0)
    as (k & Hk & Hle & _).
  exists k. split; [lia|]. unfold ItemUtilities.createUniqueName, gets. by rewrite Hk.
Qed.

(** X4.  Whatever the selection, [createUniqueName] returns the decimal form
    of a number [k] that is at most the size of the selection plus one, and
    changes nothing.  Every number below [k] is the value of the attribute
    on some element below a parent of the selection; and when [k] is at
    most the size of the selection, [k] itself is the value on none.  At
    the size plus one the loop has ended without a test: that number may be
    taken. *)
Theorem createUniqueName_first_gap (sel : jq) (a : string) (w : world) :
  ∃ k : nat,
    ItemUtilities.createUniqueName sel a w = (pretty k, w)
    ∧ k ≤ S (length sel)
    ∧ (∀ j : nat, j < k → taken (doc w) sel a j = true)
    ∧ (k ≤ length sel → taken (doc w) sel a k = false).
Proof.
  destruct (createUniqueName_loop_taken (doc w) sel a (S (length sel)) 0)
    as (k & Hk & Hle & Hbelow & Hfree).
  exists k. unfold ItemUtilities.createUniqueName, gets. rewrite Hk.
  split_and!; [done|lia| |].
  - intros j Hj. apply Hbelow. lia.
  - intros Hk'. apply Hfree. lia.
Qed.

(** X5.  For a selection none of whose elements has a parent, the empty
    selection in particular, [createUniqueName] returns "0", whatever the
    document holds. *)
Theorem createUniqueName_rootless (sel : jq) (a : string) (w : world) :
  (∀ s, s ∈ sel → s = []) →
  ItemUtilities.createUniqueName sel a w = ("0", w).
Proof.
  intros Hsel. unfold ItemUtilities.createUniqueName, gets. simpl.
  by rewrite (parent_rootless sel Hsel), find_nil.
Qed.

(** The root of the sample rubric, and the empty selection. *)
Lemma createUniqueName_rootless_witness :
  ItemUtilities.createUniqueName [[]] "data-criterion" (World rubric []) = ("0", World rubric [])
  ∧ ItemUtilities.createUniqueName [] "data-criterion" (World rubric []) = ("0", World rubric []).
Proof.
  split; apply createUniqueName_rootless.
  - by intros s ->%list_elem_of_singleton.
  - by intros s ?%elem_of_nil.
Defined.

(** X6.  [AIExampleMenuItem.addHandler] and [AIExample.addHandler] hand the
    one new element to [createUniqueName]: the [data-example] they write on
    it is always "0", "1" or "2", however many examples the editor holds. *)
Theorem AI_names_at_most_two {host : Host} (p : path) (w : world) :
  is_Some (data (doc w) p) →
  (∀ x, AIExampleMenuItem.element x = [p] →
     ∃ k : nat, k ≤ 2
       ∧ JQ.attr (doc (AIExampleMenuItem.addHandler x w).2) [p] "data-example" = Some (pretty k))
  ∧ (∀ x, AIExample.element x = [p] →
     ∃ k : nat, k ≤ 2
       ∧ JQ.attr (doc (AIExample.addHandler x w).2) [p] "data-example" = Some (pretty k)).
Proof.
  intros Hp. split.
  - intros x Hx. unfold AIExampleMenuItem.addHandler, mbind, M_bind. rewrite Hx.
    destruct (createUniqueName_bound [p] "data-example" w) as (k & Hk & ->).
    exists k. split; [done|]. rewrite setAttr_run. simpl. apply attr_put_same; [by left|done].
  - intros x Hx. unfold AIExample.addHandler.
    unfold mbind at 1, M_bind.
    pose proof (confined_refresh_loop (AIExample.element x)
                  "openassessment_ai_example_criterion_option" w p) as Hkeep.
    unfold mbind at 1, M_bind in Hkeep.
    destruct (gets _ w) as [dropdowns w0].
    unfold mbind at 1, M_bind. unfold mbind at 1, M_bind in Hkeep.
    destruct (forEach _ dropdowns w0) as [[] w1]. simpl in Hkeep.
    rewrite Hx in *.
    unfold mbind, M_bind.
    destruct (createUniqueName_bound [p] "data-example" w1) as (k & Hk & ->).
    exists k. split; [done|]. rewrite setAttr_run. simpl. apply attr_put_same; [by left|].
    rewrite Hkeep; [done|]. intros e ->%list_elem_of_singleton. apply below_irrefl.
Qed.

(** The fourth menu item and the fourth example of the sample editor. *)
Lemma AI_names_at_most_two_witness :
  (∃ k : nat, k ≤ 2
     ∧ JQ.attr (doc (AIExampleMenuItem.addHandler (AIExampleMenuItem.Make [[0; 3]] [] [[]])
                       (World ai_editor [])).2) [[0; 3]] "data-example" = Some (pretty k))
  ∧ (∃ k : nat, k ≤ 2
     ∧ JQ.attr (doc (AIExample.addHandler (host := english)
                       (AIExample.Make [[1; 3]] [[1; 3; 0; 0]] [] [])
                       (World ai_editor [])).2) [[1; 3]] "data-example" = Some (pretty k)).
Proof.
  split.
  - assert (is_Some (data (doc (World ai_editor [])) [0; 3])) as Hp by evaluate.
    by apply (proj1 (AI_names_at_most_two (host := english) [0; 3] (World ai_editor []) Hp)).
  - assert (is_Some (data (doc (World ai_editor [])) [1; 3])) as Hp by evaluate.
    by apply (proj2 (AI_names_at_most_two (host := english) [1; 3] (World ai_editor []) Hp)).
Defined.

(** ** The names of criteria, and the criterion of an option *)

Lemma RubricCriterion_addHandler_run c w :
  let d := doc w in
  let criteria := find d (parent (RubricCriterion.element c)) (Class "openassessment_criterion") in
  let name := ItemUtilities.createUniqueName_loop d criteria "data-criterion"
                (S (length criteria)) 0 in
  let d1 := each_data (put_attr "data-criterion" name) (RubricCriterion.element c) d in
  RubricCriterion.addHandler c w
  = (tt, World (each_data (put_attr "value" name)
                  (find d1 (RubricCriterion.element c) (Class "openassessment_criterion_name")) d1)
           (fired w)).
Proof. by destruct w. Qed.

(** X7.  [RubricCriterion.addHandler] fires nothing.  With [name] the name
    generated from the criteria below the parent of the new criterion, it
    writes [name] as [data-criterion] on the criterion and as [value] on
    its name fields.  When those criteria are a sibling set, every other
    criterion keeps its [data-criterion], which differs from [name]. *)
Theorem RubricCriterion_addHandler_names (c : RubricCriterion.t) (w : world) :
  let d := doc w in
  let criteria := find d (parent (RubricCriterion.element c)) (Class "openassessment_criterion") in
  let name := (ItemUtilities.createUniqueName criteria "data-criterion" w).1 in
  let w' := (RubricCriterion.addHandler c w).2 in
  sibling_set d criteria "data-criterion" = true →
  fired w' = fired w
  ∧ (∀ p, p ∈ RubricCriterion.element c → is_Some (data d p) →
          JQ.attr (doc w') [p] "data-criterion" = Some name)
  ∧ (∀ p, p ∈ find d (RubricCriterion.element c) (Class "openassessment_criterion_name") →
          JQ.attr (doc w') [p] "value" = Some name)
  ∧ (∀ s, s ∈ criteria → s ∉ RubricCriterion.element c →
          JQ.attr (doc w') [s] "data-criterion" = JQ.attr d [s] "data-criterion"
          ∧ JQ.attr (doc w') [s] "data-criterion" ≠ Some name).
Proof.
  intros d criteria name w' Hsib. subst w'. rewrite RubricCriterion_addHandler_run.
  cbn beta iota zeta delta [snd doc fired]. fold d criteria.
  change (ItemUtilities.createUniqueName_loop d criteria "data-criterion"
            (S (length criteria)) 0) with name.
  split_and!; [done|..].
  - intros p Hp Hd. rewrite attr_put_other by done. by apply attr_put_same.
  - intros p Hp. apply attr_put_same.
    + rewrite find_each_data; [done|apply _|done].
    + apply elem_of_find_data in Hp as [e He]. rewrite data_each_data by apply _.
      rewrite He. case_bool_decide; simpl; eauto.
  - intros s Hs Hn.
    assert (JQ.attr (each_data (put_attr "value" name)
              (find (each_data (put_attr "data-criterion" name) (RubricCriterion.element c) d)
                 (RubricCriterion.element c) (Class "openassessment_criterion_name"))
              (each_data (put_attr "data-criterion" name) (RubricCriterion.element c) d))
              [s] "data-criterion" = JQ.attr d [s] "data-criterion") as ->.
    { rewrite attr_put_other by done. rewrite !attr_singleton, data_each_data by apply _.
      by rewrite bool_decide_eq_false_2. }
    split; [done|]. intros Ha.
    destruct (createUniqueName_least d criteria "data-criterion" Hsib)
      as (k & Hk & _ & Hfree & _).
    apply Hfree. exists s. split; [done|]. rewrite Ha. f_equal. exact Hk.
Qed.

(** The criterion just inserted in the sample list is named 2; the second keeps 1. *)
Lemma RubricCriterion_addHandler_names_witness :
  let c := (RubricCriterion.new [[2]] (World criteria_list [])).1 in
  let w' := (RubricCriterion.addHandler c (World criteria_list [])).2 in
  JQ.attr (doc w') [[2]] "data-criterion" = Some "2"
  ∧ JQ.attr (doc w') [[2; 0]] "value" = Some "2"
  ∧ JQ.attr (doc w') [[1]] "data-criterion" = Some "1".
Proof.
  intros c w'.
  assert (sibling_set criteria_list
            (find criteria_list (parent (RubricCriterion.element c))
               (Class "openassessment_criterion")) "data-criterion" = true) as Hsib by evaluate.
  destruct (RubricCriterion_addHandler_names c (World criteria_list []) Hsib)
    as (_ & Hname & Hfield & Hothers).
  split_and!.
  - etrans; [apply (Hname [2]); evaluate|]. evaluate.
  - etrans; [apply (Hfield [2; 0]); evaluate|]. evaluate.
  - etrans; [apply (Hothers [1]); evaluate|]. evaluate.
Defined.

Section option_criterion.
Context {host : Host}.

Lemma RubricOption_addHandler_payload o w :
  let d := doc w in
  let scope := closest d (RubricOption.element o) (Class "openassessment_criterion") in
  ∃ label points,
    RubricOption.addHandler o w
    = (tt, World (stamped o d)
             (fired w ++ [Notice "optionAdd"
                [("criterionName", data_ d scope "criterion");
                 ("criterionLabel",
                  of_text (JQ.val d (find d scope (Class "openassessment_criterion_label"))));
                 ("name", JStr (optionName o d));
                 ("label", label);
                 ("points", points)] (stamped o d)])).
Proof.
  destruct w as [d f]. unfold RubricOption.addHandler.
  unfold mbind at 1 2 3 4 5 6 7 8 9 10, M_bind, gets, ItemUtilities.createUniqueName.
  cbn beta iota delta [doc fired]. unfold gets. cbn beta iota delta [doc fired].
  rewrite setAttr_run. cbn beta iota delta [doc fired].
  rewrite setAttr_run. cbn beta iota delta [doc fired].
  rewrite setAttr_run. cbn beta iota delta [doc fired].
  fold (optionName o d). change (write_attr "data-option" (JStr ?n) ?S ?x)
    with (each_data (put_attr "data-option" n) S x).
  change (write_attr "value" (JStr ?n) ?S ?x) with (each_data (put_attr "value" n) S x).
  fold (stamped o d).
  pose proof (RubricOption_getFieldValues_pure o (World (stamped o d) f)) as Hpure.
  destruct (RubricOption.getFieldValues o _) as [fields w1]. simpl in Hpure. subst w1.
  by eexists _, _.
Qed.

Lemma stamped_criterion o d p :
  p ∈ RubricOption.element o →
  JQ.attr (stamped o d) [p] "data-criterion"
  = JQ.attr (write_attr "data-criterion"
               (data_ d (closest d (RubricOption.element o) (Class "openassessment_criterion"))
                  "criterion")
               (RubricOption.element o) d) [p] "data-criterion".
Proof. intros Hp. unfold stamped. by rewrite !attr_put_other. Qed.

End option_criterion.

(** X8.  [RubricOption.addHandler] reads the name of the nearest enclosing
    criterion with [.data('criterion')] and its label from the label field:
    both go into the one notification it fires.  When that name is neither
    [undefined] nor [null] its string form becomes the [data-criterion] of
    the option; when it is [undefined], as it is for an option outside any
    criterion, the option's [data-criterion] stays as it was. *)
Theorem RubricOption_addHandler_criterion {host : Host} (o : RubricOption.t) (p : path)
    (w : world) :
  let d := doc w in
  let scope := closest d (RubricOption.element o) (Class "openassessment_criterion") in
  let criterionName := data_ d scope "criterion" in
  let w' := (RubricOption.addHandler o w).2 in
  p ∈ RubricOption.element o →
  is_Some (data d p) →
  (∃ n, fired w' = fired w ++ [n]
        ∧ payload_field n "criterionName" = Some criterionName
        ∧ payload_field n "criterionLabel"
          = Some (of_text (JQ.val d (find d scope (Class "openassessment_criterion_label")))))
  ∧ (criterionName ≠ JUndefined → criterionName ≠ JNull →
       JQ.attr (doc w') [p] "data-criterion" = Some (jsString criterionName))
  ∧ (criterionName = JUndefined →
       JQ.attr (doc w') [p] "data-criterion" = JQ.attr d [p] "data-criterion")
  ∧ (scope = [] → criterionName = JUndefined).
Proof.
  intros d scope criterionName w' Hp Hd. subst w'.
  destruct (RubricOption_addHandler_payload o w) as (label & points & ->). simpl.
  fold d scope criterionName. split_and!.
  - eexists. split; [done|]. by split.
  - intros Hu Hn. rewrite stamped_criterion by done. fold d scope criterionName.
    destruct criterionName; try done; by apply attr_put_same.
  - intros Hu. rewrite stamped_criterion by done. fold d scope criterionName.
    by rewrite Hu.
  - intros Hs. unfold criterionName. by rewrite Hs.
Qed.

(** The option just inserted in the sample rubric belongs to the criterion 0. *)
Lemma RubricOption_addHandler_criterion_witness :
  let w := World rubric [] in
  let o := (RubricOption.new [[0; 3; 2]] w).1 in
  JQ.attr (doc (RubricOption.addHandler (host := english) o w).2) [[0; 3; 2]] "data-criterion"
  = Some "0".
Proof.
  intros w o.
  assert (is_Some (data (doc w) [0; 3; 2])) as Hd by evaluate.
  destruct (RubricOption_addHandler_criterion (host := english) o [0; 3; 2] w
              ltac:(by left) Hd) as (_ & Hstamp & _).
  etrans; [apply Hstamp; by vm_compute|]. evaluate.
Defined.

(** ** Names read back *)

(** X9.  After [RubricOption.addHandler] has named an option, its
    [removeHandler] and its [updateHandler] each fire exactly one
    notification, "optionRemove" and "optionUpdated", whose "name" is the
    generated name as [.data('option')] reads it back from the
    [data-option] attribute; neither changes the document, and the
    subscriber finds it as it was. *)
Theorem RubricOption_name_read_back {host : Host} (o : RubricOption.t) (p : path) (w : world) :
  let name := optionName o (doc w) in
  let w1 := (RubricOption.addHandler o w).2 in
  RubricOption.element o = [p] →
  is_Some (data (doc w) p) →
  (∃ n, RubricOption.removeHandler o w1 = (tt, World (doc w1) (fired w1 ++ [n]))
        ∧ event n = "optionRemove"
        ∧ payload_field n "name" = Some (dataAttr name)
        ∧ seen n = doc w1)
  ∧ (∃ n, (RubricOption.updateHandler o w1).2 = World (doc w1) (fired w1 ++ [n])
        ∧ event n = "optionUpdated"
        ∧ payload_field n "name" = Some (dataAttr name)
        ∧ seen n = doc w1).
Proof.
  intros name w1 Hel Hp.
  assert (JQ.data_ (doc w1) (RubricOption.element o) "option" = dataAttr name) as Hname.
  { subst w1. destruct (RubricOption_addHandler_run o w) as (n & -> & _). simpl.
    unfold JQ.data_. rewrite Hel.
    change ("data-" +:+ "option") with "data-option".
    rewrite stamped_option; [done|rewrite Hel; by left|done]. }
  split.
  - unfold RubricOption.removeHandler, mbind, M_bind, gets, Notifier.notificationFired.
    eexists. split; [done|]. simpl. by rewrite Hname.
  - unfold RubricOption.updateHandler. unfold mbind at 1, M_bind.
    pose proof (RubricOption_getFieldValues_pure o w1) as Hpure.
    destruct (RubricOption.getFieldValues o w1) as [fields w2]. simpl in Hpure. subst w2.
    unfold mbind, M_bind, gets, Notifier.notificationFired.
    eexists. split; [done|]. simpl. by rewrite Hname.
Qed.

(** The option just inserted in the sample rubric reports the name 1. *)
Lemma RubricOption_name_read_back_witness :
  let w := World rubric [] in
  let o := (RubricOption.new [[0; 3; 2]] w).1 in
  let w1 := (RubricOption.addHandler (host := english) o w).2 in
  ∃ n, RubricOption.removeHandler (host := english) o w1 = (tt, World (doc w1) (fired w1 ++ [n]))
       ∧ event n = "optionRemove"
       ∧ payload_field n "name" = Some (JStr "1").
Proof.
  intros w o w1.
  assert (is_Some (data (doc w) [0; 3; 2])) as Hp by evaluate.
  destruct (RubricOption_name_read_back (host := english) o [0; 3; 2] w eq_refl Hp)
    as [(n & Hrun & Hev & Hname & _) _].
  exists n. split_and!; [exact Hrun|exact Hev|].
  etrans; [exact Hname|]. by vm_compute.
Defined.

Section criterion_reports.
Context {host : Host}.

Lemma RubricCriterion_updateHandler_run c w :
  let d := doc w in
  let nameString := JQ.val d (find d (RubricCriterion.element c)
                                (Class "openassessment_criterion_name")) in
  RubricCriterion.updateHandler c w
  = (tt, World d
           (fired w ++ [Notice "criterionUpdated"
              [("criterionName", if bool_decide (nameString = Some "") then JUndefined
                                 else of_text nameString);
               ("criterionLabel", of_text (JQ.val d (RubricCriterion.labelSel c)))] d])).
Proof.
  intros d nameString. unfold RubricCriterion.updateHandler.
  unfold RubricCriterion.getFieldValues, RubricCriterion.label, RubricCriterion.prompt,
    RubricCriterion.feedback, Fields.stringField.
  assert (pure (Container.getItemValues (T := RubricOption.t)
                  (RubricCriterion.optionContainer c))) as Hpure.
  { unfold Container.getItemValues, Container.getAllItems. effects. }
  specialize (Hpure w).
  unfold mbind, M_bind, gets, Notifier.notificationFired. simpl.
  destruct (Container.getItemValues _ w) as [opts w1]. simpl in *. subst w1.
  fold d. fold nameString. by destruct (bool_decide (nameString = Some "")).
Qed.

Lemma RubricCriterion_named c w p :
  let d := doc w in
  let criteria := find d (parent (RubricCriterion.element c)) (Class "openassessment_criterion") in
  let name := ItemUtilities.createUniqueName_loop d criteria "data-criterion"
                (S (length criteria)) 0 in
  let d1 := doc (RubricCriterion.addHandler c w).2 in
  (p ∈ RubricCriterion.element c → is_Some (data d p) →
     JQ.attr d1 [p] "data-criterion" = Some name)
  ∧ find d1 (RubricCriterion.element c) (Class "openassessment_criterion_name")
    = find d (RubricCriterion.element c) (Class "openassessment_criterion_name")
  ∧ (p ∈ find d (RubricCriterion.element c) (Class "openassessment_criterion_name") →
     ∀ e, data d p = Some e → is_control (tag e) = true → entered e = None →
          JQ.val d1 [p] = Some (strip_cr name)).
Proof.
  intros d criteria name d1. subst d1. rewrite RubricCriterion_addHandler_run.
  cbn beta iota zeta delta [snd doc]. fold d criteria name. split_and!.
  - intros Hp Hd. rewrite attr_put_other by done. by apply attr_put_same.
  - rewrite !find_each_data; [done|apply _|done|apply _|done].
  - intros Hp e He Hc Hent. unfold JQ.val. simpl.
    rewrite data_each_data by apply _.
    rewrite find_each_data by (apply _ || done).
    rewrite bool_decide_eq_true_2 by done.
    rewrite data_each_data, He by apply _.
    unfold prop_value. case_bool_decide; simpl; rewrite Hc, Hent; simpl;
      by rewrite lookup_insert_eq.
Qed.

End criterion_reports.

(** X10.  After [RubricCriterion.addHandler] has named a criterion, its
    [removeHandler] fires exactly one "criterionRemove" whose
    "criterionName" is the generated name as [.data('criterion')] reads it
    back, and, when the first name field of the criterion is a form control
    nobody has typed into, its [updateHandler] fires exactly one
    "criterionUpdated" whose "criterionName" is the generated name, read
    from that field; neither changes the document.  For a criterion whose
    name field holds the empty string, "criterionUpdated" carries
    [undefined] as the name. *)
Theorem RubricCriterion_name_read_back {host : Host} (c : RubricCriterion.t) (p : path)
    (w : world) :
  let d := doc w in
  let criteria := find d (parent (RubricCriterion.element c)) (Class "openassessment_criterion") in
  let name := (ItemUtilities.createUniqueName criteria "data-criterion" w).1 in
  let w1 := (RubricCriterion.addHandler c w).2 in
  RubricCriterion.element c = [p] →
  is_Some (data d p) →
  (∃ n, RubricCriterion.removeHandler c w1 = (tt, World (doc w1) (fired w1 ++ [n]))
        ∧ event n = "criterionRemove"
        ∧ payload_field n "criterionName" = Some (dataAttr name)
        ∧ seen n = doc w1)
  ∧ (∀ q e, head (find d [p] (Class "openassessment_criterion_name")) = Some q →
        data d q = Some e → is_control (tag e) = true → entered e = None →
        ∃ n, RubricCriterion.updateHandler c w1 = (tt, World (doc w1) (fired w1 ++ [n]))
             ∧ event n = "criterionUpdated"
             ∧ payload_field n "criterionName" = Some (JStr name)
             ∧ seen n = doc w1)
  ∧ (∀ w2, JQ.val (doc w2) (find (doc w2) [p] (Class "openassessment_criterion_name")) = Some "" →
        ∃ n, RubricCriterion.updateHandler c w2 = (tt, World (doc w2) (fired w2 ++ [n]))
             ∧ event n = "criterionUpdated"
             ∧ payload_field n "criterionName" = Some JUndefined).
Proof.
  intros d criteria name w1 Hel Hd.
  destruct (createUniqueName_bound criteria "data-criterion" w) as (k & _ & Hk).
  assert (name = pretty k) as Hname by (unfold name; by rewrite Hk).
  assert (JQ.data_ (doc w1) (RubricCriterion.element c) "criterion" = dataAttr name) as Hread.
  { unfold JQ.data_. rewrite Hel. change ("data-" +:+ "criterion") with "data-criterion".
    destruct (RubricCriterion_named c w p) as (Hattr & _).
    fold w1 in Hattr. rewrite Hattr; [done|rewrite Hel; by left|done]. }
  assert (∀ q e, head (find d [p] (Class "openassessment_criterion_name")) = Some q →
            data d q = Some e → is_control (tag e) = true → entered e = None →
            JQ.val (doc w1) (find (doc w1) (RubricCriterion.element c)
                               (Class "openassessment_criterion_name")) = Some name) as Hfield.
  { intros q e Hq He Hc Hent.
    destruct (RubricCriterion_named c w q) as (_ & Hfind & Hval).
    fold w1 d in Hfind, Hval. rewrite Hfind, Hel.
    assert (q ∈ find d [p] (Class "openassessment_criterion_name")) as Hin.
    { destruct (find d [p] _) as [|q' l]; simplify_eq/=. by left. }
    assert (JQ.val (doc w1) (find d [p] (Class "openassessment_criterion_name"))
            = JQ.val (doc w1) [q]) as ->.
    { unfold JQ.val. by destruct (find d [p] _) as [|q' l]; simplify_eq/=. }
    rewrite (Hval ltac:(by rewrite Hel) e He Hc Hent).
    fold criteria.
    change (ItemUtilities.createUniqueName_loop d criteria "data-criterion"
              (S (length criteria)) 0) with name.
    by rewrite Hname, strip_cr_pretty. }
  clearbody w1 name. split_and!.
  - unfold RubricCriterion.removeHandler, mbind, M_bind, gets, Notifier.notificationFired.
    rewrite Hread. by eexists.
  - intros q e Hq He Hc Hent. rewrite RubricCriterion_updateHandler_run.
    cbn zeta. rewrite (Hfield q e Hq He Hc Hent).
    rewrite bool_decide_eq_false_2; [by eexists|].
    intros [= Hempty]. rewrite Hname in Hempty. by apply pretty_nonempty in Hempty.
  - intros w2 Hempty. rewrite RubricCriterion_updateHandler_run.
    cbn zeta. rewrite Hel, Hempty. rewrite bool_decide_eq_true_2 by done. by eexists.
Qed.

(** The criterion just inserted in the sample list reports the name 2. *)
Lemma RubricCriterion_name_read_back_witness :
  let w := World criteria_list [] in
  let c := (RubricCriterion.new [[2]] w).1 in
  let w1 := (RubricCriterion.addHandler c w).2 in
  (∃ n, RubricCriterion.removeHandler (host := english) c w1
        = (tt, World (doc w1) (fired w1 ++ [n]))
        ∧ payload_field n "criterionName" = Some (JStr "2"))
  ∧ (∃ n, RubricCriterion.updateHandler (host := english) c w1
          = (tt, World (doc w1) (fired w1 ++ [n]))
          ∧ payload_field n "criterionName" = Some (JStr "2")).
Proof.
  intros w c w1.
  assert (is_Some (data (doc w) [2])) as Hd by evaluate.
  destruct (RubricCriterion_name_read_back (host := english) c [2] w eq_refl Hd)
    as (Hremove & Hupdate & _).
  split.
  - destruct Hremove as (n & Hrun & _ & Hname & _). exists n. split; [exact Hrun|].
    etrans; [exact Hname|]. by vm_compute.
  - destruct (Hupdate [2; 0] (Edata "input" (list_to_map []) ["openassessment_criterion_name"] None))
      as (n & Hrun & _ & Hname & _); [by vm_compute..|].
    exists n. split; [exact Hrun|]. etrans; [exact Hname|]. by vm_compute.
Defined.

(** ** Names that stay distinct *)

Lemma stamped_other_option {host : Host} o d s :
  s ∉ RubricOption.element o →
  JQ.attr (stamped o d) [s] "data-option" = JQ.attr d [s] "data-option".
Proof.
  intros Hs. unfold stamped. rewrite attr_put_other by done.
  rewrite !attr_singleton, data_each_data by apply _.
  rewrite bool_decide_eq_false_2 by done. rewrite <-!attr_singleton.
  by apply attr_write_attr_other.
Qed.

(** Naming one element with a name none of the others carries keeps the
    names distinct. *)
Lemma distinct_names_fresh d d' sel a p name :
  distinct_names d sel a →
  (∀ s, s ∈ sel → s ≠ p → JQ.attr d' [s] a = JQ.attr d [s] a) →
  (∀ s, s ∈ sel → s ≠ p → JQ.attr d [s] a ≠ Some name) →
  (p ∈ sel → JQ.attr d' [p] a = Some name) →
  distinct_names d' sel a.
Proof.
  intros Hd Hsame Hfresh Hnew s s' v Hs Hs' Ha Ha'.
  destruct (decide (s = p)) as [->|Hsp], (decide (s' = p)) as [->|Hs'p]; [done|..].
  - rewrite Hnew in Ha by done. rewrite Hsame in Ha' by done.
    destruct (Hfresh s' Hs' Hs'p). congruence.
  - rewrite Hnew in Ha' by done. rewrite Hsame in Ha by done.
    destruct (Hfresh s Hs Hsp). congruence.
  - rewrite Hsame in Ha, Ha' by done. by apply (Hd s s' v).
Qed.

(** X11.  Names stay distinct.  Let the options below the parent of a new
    option be a sibling set in which no two options share a [data-option].
    After [RubricOption.addHandler] on the new option no two of them share
    one either.  The same holds of the criteria below the parent of a new
    criterion, [data-criterion] and [RubricCriterion.addHandler]. *)
Theorem addHandler_keeps_names_distinct {host : Host} :
  (∀ (o : RubricOption.t) (p : path) (w : world),
     let d := doc w in
     let options := find d (parent [p]) (Class "openassessment_criterion_option") in
     RubricOption.element o = [p] →
     is_Some (data d p) →
     sibling_set d options "data-option" = true →
     distinct_names d options "data-option" →
     distinct_names (doc (RubricOption.addHandler o w).2) options "data-option")
  ∧ (∀ (c : RubricCriterion.t) (p : path) (w : world),
     let d := doc w in
     let criteria := find d (parent [p]) (Class "openassessment_criterion") in
     RubricCriterion.element c = [p] →
     is_Some (data d p) →
     sibling_set d criteria "data-criterion" = true →
     distinct_names d criteria "data-criterion" →
     distinct_names (doc (RubricCriterion.addHandler c w).2) criteria "data-criterion").
Proof.
  split.
  - intros o p w d options Hel Hp Hsib Hdist.
    destruct (RubricOption_addHandler_run o w) as (n & -> & _). simpl. fold d.
    apply (distinct_names_fresh d _ options "data-option" p (optionName o d)); [done|..].
    + intros s _ Hs. apply stamped_other_option. rewrite Hel. set_solver.
    + intros s Hs _. pose proof (RubricOption_name_fresh o d) as Hfresh.
      rewrite Hel in Hfresh. by apply Hfresh.
    + intros _. apply stamped_option; [rewrite Hel; by left|done].
  - intros c p w d criteria Hel Hp Hsib Hdist.
    rewrite RubricCriterion_addHandler_run. cbn beta iota zeta delta [snd doc].
    rewrite Hel. fold d criteria.
    set (name := ItemUtilities.createUniqueName_loop d criteria "data-criterion"
                   (S (length criteria)) 0).
    apply (distinct_names_fresh d _ criteria "data-criterion" p name); [done|..].
    + intros s _ Hs. rewrite attr_put_other by done.
      rewrite !attr_singleton, data_each_data by apply _.
      rewrite bool_decide_eq_false_2; [done|]. set_solver.
    + intros s Hs _ Ha.
      destruct (createUniqueName_least d criteria "data-criterion" Hsib)
        as (k & Hk & _ & Hfree & _).
      apply Hfree. exists s. split; [done|]. rewrite Ha. f_equal. exact Hk.
    + intros _. rewrite attr_put_other by done. apply attr_put_same; [by left|done].
Qed.

(** The options of the sample rubric carry 0 and 2; the new one is named 1. *)
Lemma addHandler_keeps_names_distinct_witness :
  let w := World rubric [] in
  let o := (RubricOption.new [[0; 3; 2]] w).1 in
  let w' := (RubricOption.addHandler (host := english) o w).2 in
  distinct_names (doc w') [[0; 3; 0]; [0; 3; 1]; [0; 3; 2]] "data-option"
  ∧ map (λ s, JQ.attr (doc w') [s] "data-option") [[0; 3; 0]; [0; 3; 1]; [0; 3; 2]]
    = [Some "0"; Some "2"; Some "1"].
Proof.
  intros w o w'. split; [|by vm_compute].
  assert (is_Some (data (doc w) [0; 3; 2])) as Hp by evaluate.
  assert (sibling_set (doc w)
            (find (doc w) (parent [[0; 3; 2]]) (Class "openassessment_criterion_option"))
            "data-option" = true) as Hsib by evaluate.
  apply (proj1 (addHandler_keeps_names_distinct (host := english)) o [0; 3; 2] w eq_refl Hp Hsib).
  intros s s' v Hs Hs' Ha Ha'.
  cases Hs; cases Hs'; try done; vm_compute in Ha, Ha'; congruence.
Defined.

(** * One of many: [addClassToAllButOne] and the menu of examples *)

Lemma addClassToAllButOne_run el who one c w :
  blind_to c one = true →
  ItemUtilities.addClassToAllButOne el who one c w
  = (tt, World (each_data (remove_class c) (find (doc w) el one)
                  (each_data (add_class c) (find (doc w) el who) (doc w))) (fired w)).
Proof.
  intros Hblind. unfold ItemUtilities.addClassToAllButOne. destruct w as [d f].
  unfold mbind at 1, M_bind, gets. cbn beta iota delta [doc fired].
  unfold mbind at 1, M_bind.
  change (forEach (λ p, addClass c [p])) with (forEach (λ p, modify (each_data (add_class c) [p]))).
  rewrite forEach_each_data. cbn beta iota delta [doc fired].
  unfold mbind, M_bind, gets, removeClass, modify. cbn beta iota delta [doc fired].
  rewrite (find_each_data (add_class c)); [done|]. intros e. by apply matches_add_class.
Qed.

Lemma data_hide_all_but_one c all ones d q :
  data (each_data (remove_class c) ones (each_data (add_class c) all d)) q
  = (λ e, let e1 := if bool_decide (q ∈ all) then add_class c e else e in
          if bool_decide (q ∈ ones) then remove_class c e1 else e1) <$> data d q.
Proof.
  rewrite !data_each_data by apply _. destruct (data d q) as [e|]; simpl.
  - by repeat case_bool_decide.
  - by repeat case_bool_decide.
Qed.

Lemma same_but_hide_all_but_one c (b1 b2 : bool) e :
  same_but_classes [c] e
    (let e1 := if b1 then add_class c e else e in if b2 then remove_class c e1 else e1).
Proof.
  destruct b1, b2; simpl;
    eauto using same_but_classes_refl, same_but_add_class, same_but_remove_class,
      same_but_classes_trans.
Qed.

Lemma hide_all_but_one_twice c A O d :
  each_data (remove_class c) O (each_data (add_class c) A
    (each_data (remove_class c) O (each_data (add_class c) A d)))
  = each_data (remove_class c) O (each_data (add_class c) A d).
Proof.
  rewrite (each_data_map_data (add_class c) A d).
  rewrite !each_data_after_map_data by apply _.
  apply map_data_ext. intros q e _.
  destruct (bool_decide (q ∈ O)), (bool_decide (q ∈ A)); try done.
  - apply remove_add_class, remove_class_gone.
  - apply idem.
  - apply idem.
Qed.

(** X12.  Let the selector of the exempt elements not test the class.
    After [addClassToAllButOne], of the elements found below [element]:
    those matching [dontAddToMe] do not carry the class, also when they
    match [whoToAddTo] as well; those matching [whoToAddTo] only carry it;
    all others keep their data.  Nothing is fired, and no element changes
    in anything but that one class. *)
Theorem addClassToAllButOne_spec (el : jq) (who one : selector) (c : string) (w : world) :
  blind_to c one = true →
  let d := doc w in
  let w' := (ItemUtilities.addClassToAllButOne el who one c w).2 in
  fired w' = fired w
  ∧ (∀ q, q ∈ find d el one → JQ.hasClass (doc w') [q] c = false)
  ∧ (∀ q, q ∈ find d el who → q ∉ find d el one → JQ.hasClass (doc w') [q] c = true)
  ∧ (∀ q, q ∉ find d el who → q ∉ find d el one → data (doc w') q = data d q)
  ∧ (∀ q e, data d q = Some e →
       ∃ e', data (doc w') q = Some e' ∧ same_but_classes [c] e e').
Proof.
  intros Hblind d w'. subst w'. rewrite addClassToAllButOne_run by done. simpl. fold d.
  split_and!; [done|..].
  - intros q Hq. rewrite hasClass_singleton. unfold matches_at.
    rewrite data_hide_all_but_one. destruct (data d q) as [e|]; [|done]. simpl.
    rewrite (bool_decide_eq_true_2 (q ∈ find d el one)) by done.
    apply matches_remove_class_same.
  - intros q Hq Hn. rewrite hasClass_singleton. unfold matches_at.
    rewrite data_hide_all_but_one.
    apply elem_of_find_data in Hq as Hd. destruct Hd as [e He]. rewrite He. simpl.
    rewrite (bool_decide_eq_true_2 (q ∈ find d el who)) by done.
    rewrite (bool_decide_eq_false_2 (q ∈ find d el one)) by done.
    apply matches_add_class_same.
  - intros q Hn1 Hn2. rewrite data_hide_all_but_one.
    rewrite !bool_decide_eq_false_2 by done. by destruct (data d q).
  - intros q e He. rewrite data_hide_all_but_one, He. eexists. split; [done|].
    apply same_but_hide_all_but_one.
Qed.

(** Hiding all panels of the sample screen but the panel of the example 1. *)
Lemma addClassToAllButOne_spec_witness :
  let w' := (ItemUtilities.addClassToAllButOne [[]]
               (Class "openassessment_ai_editor_single_visibility")
               (And (Class "openassessment_ai_example") (Attr "data-example" "1"))
               "is--hidden" (World ai_screen [])).2 in
  JQ.hasClass (doc w') [[1; 2]] "is--hidden" = false
  ∧ JQ.hasClass (doc w') [[1; 1]] "is--hidden" = true
  ∧ JQ.hasClass (doc w') [[1; 0]] "is--hidden" = true
  ∧ data (doc w') [0; 1] = data ai_screen [0; 1].
Proof.
  intros w'.
  destruct (addClassToAllButOne_spec [[]]
              (Class "openassessment_ai_editor_single_visibility")
              (And (Class "openassessment_ai_example") (Attr "data-example" "1"))
              "is--hidden" (World ai_screen []) eq_refl) as (_ & Hone & Hall & Hrest & _).
  split_and!.
  - apply Hone. evaluate.
  - apply Hall; evaluate.
  - apply Hall; evaluate.
  - apply Hrest; evaluate.
Defined.

(** X13.  When neither selector tests the class, a second
    [addClassToAllButOne] with the same arguments changes nothing. *)
Theorem addClassToAllButOne_again (el : jq) (who one : selector) (c : string) (w : world) :
  blind_to c who = true →
  blind_to c one = true →
  let w1 := (ItemUtilities.addClassToAllButOne el who one c w).2 in
  ItemUtilities.addClassToAllButOne el who one c w1 = (tt, w1).
Proof.
  intros Hwho Hone w1. subst w1. rewrite !addClassToAllButOne_run by done. simpl.
  assert (∀ s, blind_to c s = true →
    find (each_data (remove_class c) (find (doc w) el one)
            (each_data (add_class c) (find (doc w) el who) (doc w))) el s
    = find (doc w) el s) as Hfind.
  { intros s Hs. rewrite !find_each_data; [done|apply _| |apply _|].
    - intros e. by apply matches_add_class.
    - intros e. by apply matches_remove_class. }
  rewrite !Hfind by done. by rewrite hide_all_but_one_twice.
Qed.

(** The panels of the sample screen, hidden twice. *)
Lemma addClassToAllButOne_again_witness :
  let hide := ItemUtilities.addClassToAllButOne [[]]
                (Class "openassessment_ai_editor_single_visibility")
                (And (Class "openassessment_ai_example") (Attr "data-example" "1"))
                "is--hidden" in
  hide (hide (World ai_screen [])).2 = (tt, (hide (World ai_screen [])).2).
Proof. intros hide. by apply addClassToAllButOne_again. Defined.

(** X14.  A click on a menu item installed under the name [exampleName]:
    within the menu-and-editor scope, the examples of that name end up not
    hidden and every other single-visibility panel hidden; the menu items
    of that name end up not faded and every other single-visibility menu
    entry faded.  Nothing is fired, and no element changes in anything but
    the classes [is--hidden] and [is--faded]. *)
Theorem AIExampleMenuItem_click_shows_one (exampleName : option string)
    (x : AIExampleMenuItem.t) (w : world) :
  let d := doc w in
  let scope := AIExampleMenuItem.menuAndEditor x in
  let id := jsString (of_text exampleName) in
  let examples := find d scope (And (Class "openassessment_ai_example") (Attr "data-example" id)) in
  let items := find d scope (And (Class "openassessment_ai_example_menu_item")
                                  (Attr "data-example" id)) in
  let w' := (AIExampleMenuItem.click exampleName x w).2 in
  fired w' = fired w
  ∧ (∀ q, q ∈ examples → JQ.hasClass (doc w') [q] "is--hidden" = false)
  ∧ (∀ q, q ∈ find d scope (Class "openassessment_ai_editor_single_visibility") →
          q ∉ examples → JQ.hasClass (doc w') [q] "is--hidden" = true)
  ∧ (∀ q, q ∈ items → JQ.hasClass (doc w') [q] "is--faded" = false)
  ∧ (∀ q, q ∈ find d scope (Class "openassessment_ai_menu_single_visibility") →
          q ∉ items → JQ.hasClass (doc w') [q] "is--faded" = true)
  ∧ (∀ q e, data d q = Some e →
       ∃ e', data (doc w') q = Some e' ∧ same_but_classes ["is--hidden"; "is--faded"] e e').
Proof.
  intros d scope id examples items w'. subst w'. unfold AIExampleMenuItem.click.
  unfold mbind, M_bind. rewrite addClassToAllButOne_run by done.
  rewrite addClassToAllButOne_run by done. cbn beta iota delta [doc fired snd]. fold d scope id.
  set (panels := find d scope (Class "openassessment_ai_editor_single_visibility")).
  fold examples.
  set (d1 := each_data (remove_class "is--hidden") examples
               (each_data (add_class "is--hidden") panels d)).
  assert (∀ s, blind_to "is--hidden" s = true → find d1 scope s = find d scope s) as Hfind.
  { intros s Hs. unfold d1. rewrite !find_each_data; [done|apply _| |apply _|].
    - intros e. by apply matches_add_class.
    - intros e. by apply matches_remove_class. }
  rewrite !Hfind by done. fold items.
  set (tabs := find d scope (Class "openassessment_ai_menu_single_visibility")).
  assert (∀ q c, c ≠ "is--faded" →
    JQ.hasClass (each_data (remove_class "is--faded") items
                   (each_data (add_class "is--faded") tabs d1)) [q] c
    = JQ.hasClass d1 [q] c) as Hkeep.
  { intros q c Hc. rewrite !hasClass_singleton. unfold matches_at.
    rewrite data_hide_all_but_one. destruct (data d1 q) as [e|]; [|done].
    cbn beta zeta iota delta [fmap option_fmap option_map].
    assert (blind_to "is--faded" (Class c) = true) as Hb.
    { simpl. by rewrite bool_decide_eq_false_2. }
    repeat case_bool_decide;
      by rewrite ?(matches_remove_class _ _ _ Hb), ?(matches_add_class _ _ _ Hb). }
  split_and!; [done|..].
  - intros q Hq. rewrite Hkeep by done. unfold d1. rewrite hasClass_singleton.
    unfold matches_at. rewrite data_hide_all_but_one.
    destruct (data d q) as [e|]; [|done]. simpl.
    rewrite (bool_decide_eq_true_2 (q ∈ examples)) by done. apply matches_remove_class_same.
  - intros q Hq Hn. rewrite Hkeep by done. unfold d1. rewrite hasClass_singleton.
    unfold matches_at. rewrite data_hide_all_but_one.
    apply elem_of_find_data in Hq as Hd. destruct Hd as [e He]. rewrite He. simpl.
    rewrite (bool_decide_eq_true_2 (q ∈ panels)), (bool_decide_eq_false_2 (q ∈ examples)) by done.
    apply matches_add_class_same.
  - intros q Hq. rewrite hasClass_singleton. unfold matches_at. rewrite data_hide_all_but_one.
    destruct (data d1 q) as [e|]; [|done]. simpl.
    rewrite (bool_decide_eq_true_2 (q ∈ items)) by done. apply matches_remove_class_same.
  - intros q Hq Hn. rewrite hasClass_singleton. unfold matches_at. rewrite data_hide_all_but_one.
    apply elem_of_find_data in Hq as Hd. destruct Hd as [e He].
    assert (is_Some (data d1 q)) as [e1 He1].
    { unfold d1. rewrite data_hide_all_but_one, He. simpl. eauto. }
    rewrite He1. simpl.
    rewrite (bool_decide_eq_true_2 (q ∈ tabs)), (bool_decide_eq_false_2 (q ∈ items)) by done.
    apply matches_add_class_same.
  - intros q e He. rewrite data_hide_all_but_one. unfold d1.
    rewrite data_hide_all_but_one, He. eexists. split; [done|].
    eapply same_but_classes_trans.
    + apply (same_but_classes_weaken ["is--hidden"]); [set_solver|].
      apply same_but_hide_all_but_one.
    + apply (same_but_classes_weaken ["is--faded"]); [set_solver|].
      apply same_but_hide_all_but_one.
Qed.

(** A click on the second tab of the sample screen. *)
Lemma AIExampleMenuItem_click_shows_one_witness :
  let x := AIExampleMenuItem.Make [[0; 1]] [] [[]] in
  let w' := (AIExampleMenuItem.click (Some "1") x (World ai_screen [])).2 in
  JQ.hasClass (doc w') [[1; 2]] "is--hidden" = false
  ∧ JQ.hasClass (doc w') [[1; 1]] "is--hidden" = true
  ∧ JQ.hasClass (doc w') [[0; 1]] "is--faded" = false
  ∧ JQ.hasClass (doc w') [[0; 0]] "is--faded" = true.
Proof.
  intros x w'.
  destruct (AIExampleMenuItem_click_shows_one (Some "1") x (World ai_screen []))
    as (_ & Hshown & Hhidden & Hbold & Hfaded & _).
  split_and!.
  - apply Hshown. evaluate.
  - apply Hhidden; evaluate.
  - apply Hbold. evaluate.
  - apply Hfaded; evaluate.
Defined.

(** X15.  Constructing an [AIExample] on [el] hides it: every element of
    [el] carries [is--hidden] afterwards, no element changes in anything
    but that class, nothing is fired, and the fields of the item are those
    found below [el]. *)
Theorem AIExample_new_hidden (el : jq) (w : world) :
  let d := doc w in
  let x := (AIExample.new el w).1 in
  let w' := (AIExample.new el w).2 in
  AIExample.element x = el
  ∧ AIExample.criteria x = find d el (Class "openassessment_ai_example_criterion_option")
  ∧ AIExample.answer x = first (find d el (Class "openassessment_ai_example_essay"))
  ∧ fired w' = fired w
  ∧ (∀ p, p ∈ el → is_Some (data d p) → JQ.hasClass (doc w') [p] "is--hidden" = true)
  ∧ (∀ q e, data d q = Some e →
       ∃ e', data (doc w') q = Some e' ∧ same_but_classes ["is--hidden"] e e').
Proof.
  intros d x w'. subst x w'. unfold AIExample.new, mbind, M_bind, gets, addClass, modify.
  cbn beta iota delta [fst snd doc fired AIExample.element AIExample.criteria AIExample.answer
                       mret M_ret].
  fold d.
  assert (∀ s, blind_to "is--hidden" s = true →
            find (each_data (add_class "is--hidden") el d) el s = find d el s) as Hfind.
  { intros s Hs. apply find_each_data; [apply _|]. intros e. by apply matches_add_class. }
  rewrite !Hfind by done. split_and!; [done..| |].
  - intros p Hp [e He]. rewrite hasClass_each_data by apply _. rewrite He.
    rewrite bool_decide_eq_true_2 by done. apply matches_add_class_same.
  - intros q e He. rewrite data_each_data, He by apply _.
    case_bool_decide; simpl; eexists; (split; [done|]).
    + apply same_but_add_class.
    + apply same_but_classes_refl.
Qed.

(** The fourth example of the sample editor. *)
Lemma AIExample_new_hidden_witness :
  JQ.hasClass (doc (AIExample.new [[1; 3]] (World ai_editor [])).2) [[1; 3]] "is--hidden" = true.
Proof.
  destruct (AIExample_new_hidden [[1; 3]] (World ai_editor [])) as (_ & _ & _ & _ & Hhid & _).
  apply Hhid; evaluate.
Defined.

(** ** Removing the paired example *)

Lemma AIExampleMenuItem_removeHandler_run x w :
  let d := doc w in
  let id := jsString (of_text (JQ.attr d (AIExampleMenuItem.element x) "data-example")) in
  let paired := find d (AIExampleMenuItem.menuAndEditor x)
                  (And (Class "openassessment_ai_example") (Attr "data-example" id)) in
  let reveal := (length (find d (parent paired) (Class "openassessment_ai_example")) =? 1)
                || negb (JQ.hasClass d paired "is--hidden") in
  AIExampleMenuItem.removeHandler x w
  = (tt, World (foldr Dom.remove
                  (if reveal
                   then each_data (remove_class "is--hidden")
                          (find d (parent paired) (Id "openassessment_ai_example_editor_background")) d
                   else d) paired) (fired w)).
Proof.
  intros d id paired reveal. unfold AIExampleMenuItem.removeHandler.
  destruct w as [d0 f]. unfold mbind, M_bind, gets. cbn beta iota delta [doc fired].
  simpl in d. subst d. fold id. fold paired. fold reveal.
  destruct reveal; done.
Qed.

(** X16.  When no example of the scope carries the menu item's
    [data-example], [AIExampleMenuItem.removeHandler] changes nothing and
    fires nothing. *)
Theorem AIExampleMenuItem_removeHandler_unpaired (x : AIExampleMenuItem.t) (w : world) :
  let d := doc w in
  let id := jsString (of_text (JQ.attr d (AIExampleMenuItem.element x) "data-example")) in
  (∀ q, q ∈ find d (AIExampleMenuItem.menuAndEditor x) (Class "openassessment_ai_example") →
        JQ.attr d [q] "data-example" ≠ Some id) →
  AIExampleMenuItem.removeHandler x w = (tt, w).
Proof.
  intros d id Hnone. rewrite AIExampleMenuItem_removeHandler_run. fold d id.
  assert (find d (AIExampleMenuItem.menuAndEditor x)
            (And (Class "openassessment_ai_example") (Attr "data-example" id)) = []) as ->.
  { destruct (find d _ (And _ _)) as [|q l] eqn:Hf; [done|].
    assert (q ∈ find d (AIExampleMenuItem.menuAndEditor x)
              (And (Class "openassessment_ai_example") (Attr "data-example" id)))
      as [Hq Ha]%elem_of_find_And by (rewrite Hf; by left).
    by destruct (Hnone q). }
  destruct w as [d0 f]. simpl. f_equal. f_equal.
  rewrite orb_true_r. change (parent []) with ([] : jq). by rewrite find_nil.
Qed.

(** The fourth menu item of the sample editor has no name yet. *)
Lemma AIExampleMenuItem_removeHandler_unpaired_witness :
  let x := AIExampleMenuItem.Make [[0; 3]] [] [[]] in
  AIExampleMenuItem.removeHandler x (World ai_editor []) = (tt, World ai_editor []).
Proof.
  intros x. apply AIExampleMenuItem_removeHandler_unpaired.
  intros q Hq. cases Hq; by vm_compute.
Defined.

(** X17.  Let the scope of the menu item be the one element [s] and let
    exactly one example of the scope carry the item's [data-example]: the
    [i]-th child of the element at [par].  [removeHandler] fires nothing
    and takes that child out: afterwards the element at [q] is the element
    that was at [origin par i q], with its data unchanged but for the
    background; no example of that name is left in the scope.  When the
    example was shown, or was the only example below its parent, every
    element below the parent with the id of the background screen ends up
    not hidden. *)
Theorem AIExampleMenuItem_removeHandler_paired (x : AIExampleMenuItem.t) (w : world)
    (s par : path) (i : nat) :
  let d := doc w in
  let id := jsString (of_text (JQ.attr d (AIExampleMenuItem.element x) "data-example")) in
  let paired := And (Class "openassessment_ai_example") (Attr "data-example" id) in
  let background := Id "openassessment_ai_example_editor_background" in
  let reveal := (length (find d [par] (Class "openassessment_ai_example")) =? 1)
                || negb (JQ.hasClass d [par ++ [i]] "is--hidden") in
  let w' := (AIExampleMenuItem.removeHandler x w).2 in
  AIExampleMenuItem.menuAndEditor x = [s] →
  find d [s] paired = [par ++ [i]] →
  fired w' = fired w
  ∧ (∀ q, data (doc w') q
          = (λ e, if reveal && bool_decide (origin par i q ∈ find d [par] background)
                  then remove_class "is--hidden" e else e) <$> data d (origin par i q))
  ∧ find (doc w') [s] paired = []
  ∧ (reveal = true → ∀ q, q ∈ find (doc w') [par] background →
       JQ.hasClass (doc w') [q] "is--hidden" = false).
Proof.
  intros d id paired background reveal w' Hscope Hpaired.
  assert (is_Some (data d (par ++ [i]))) as Hp.
  { apply (elem_of_find_data d [s] paired). rewrite Hpaired. by left. }
  assert (prefixb s par = true) as Hs.
  { assert (par ++ [i] ∈ find d [s] paired) as Hin by (rewrite Hpaired; by left).
    apply find_below in Hin as (c & ->%list_elem_of_singleton & Hb).
    unfold below in Hb. apply andb_true_iff in Hb as [Hpre Hne].
    apply negb_true_iff, bool_decide_eq_false_1 in Hne.
    revert Hpre Hne. clear. revert par. induction s as [|a s IH]; intros par; [done|].
    destruct par as [|k par]; simpl.
    - rewrite andb_true_iff, bool_decide_eq_true. intros [-> Hs] Hne.
      destruct s; [by destruct Hne|done].
    - rewrite !andb_true_iff, !bool_decide_eq_true. intros [-> Hs] Hne.
      split; [done|]. apply IH; [done|]. intros ->. by destruct Hne. }
  assert (∀ q, data (doc w') q
          = (λ e, if reveal && bool_decide (origin par i q ∈ find d [par] background)
                  then remove_class "is--hidden" e else e) <$> data d (origin par i q)) as Hdata.
  { intros q. subst w'. rewrite AIExampleMenuItem_removeHandler_run.
    cbn beta iota zeta delta [doc snd]. fold d id paired. rewrite Hscope, Hpaired.
    rewrite parent_singleton. fold background. subst reveal.
    cbn beta iota delta [foldr]. destruct (_ || _).
    - rewrite data_remove.
      + rewrite data_each_data by apply _. simpl.
        destruct (bool_decide _); by destruct (data d (origin par i q)).
      + apply data_get. rewrite data_each_data by apply _. destruct Hp as [e ->].
        case_bool_decide; simpl; eauto.
    - rewrite data_remove.
      + simpl. by destruct (data d (origin par i q)).
      + by apply data_get. }
  assert (∀ sel q, blind_to "is--hidden" sel = true →
            matches_at (doc w') sel q = matches_at d sel (origin par i q)) as Hmatch.
  { intros sel q Hb. unfold matches_at. rewrite Hdata.
    destruct (data d (origin par i q)) as [e|]; [|done]. simpl.
    destruct (_ && _); [|done]. by apply matches_remove_class. }
  split_and!.
  - subst w'. by rewrite AIExampleMenuItem_removeHandler_run.
  - exact Hdata.
  - destruct (find (doc w') [s] paired) as [|q l] eqn:Hf; [done|].
    assert (q ∈ find (doc w') [s] paired) as Hq by (rewrite Hf; by left).
    apply elem_of_find in Hq as [Hm (c & Hc%list_elem_of_singleton & Hb)]. subst c.
    rewrite Hmatch in Hm by done. rewrite <-(below_origin s par i q Hs) in Hb.
    assert (origin par i q ∈ find d [s] paired) as Hin.
    { apply elem_of_find. split; [done|]. exists s. split; [by left|done]. }
    rewrite Hpaired in Hin. apply list_elem_of_singleton in Hin.
    by apply origin_not_removed in Hin.
  - intros Hr q Hq. apply elem_of_find in Hq as [Hm (c & Hc%list_elem_of_singleton & Hb)].
    subst c. rewrite Hmatch in Hm by done.
    assert (prefixb par par = true) as Hpp by (clear; induction par; simpl; [done|];
      by rewrite bool_decide_eq_true_2).
    rewrite <-(below_origin par par i q Hpp) in Hb.
    assert (origin par i q ∈ find d [par] background) as Hin.
    { apply elem_of_find. split; [done|]. exists par. split; [by left|done]. }
    rewrite hasClass_singleton. unfold matches_at. rewrite Hdata, Hr.
    rewrite bool_decide_eq_true_2 by done.
    destruct (data d (origin par i q)) as [e|]; [|done]. simpl.
    apply matches_remove_class_same.
Qed.

(** Removing the example 0 of the sample screen, which is shown: the
    background appears. *)
Lemma AIExampleMenuItem_removeHandler_paired_witness :
  let x := AIExampleMenuItem.Make [[0; 0]] [] [[]] in
  let w' := (AIExampleMenuItem.removeHandler x (World ai_screen [])).2 in
  find ai_screen [[]] (And (Class "openassessment_ai_example") (Attr "data-example" "0"))
  = [[1; 1]]
  ∧ find (doc w') [[]] (And (Class "openassessment_ai_example") (Attr "data-example" "0")) = []
  ∧ JQ.hasClass (doc w') [[1; 0]] "is--hidden" = false.
Proof.
  intros x w'.
  assert (find ai_screen [[]] (And (Class "openassessment_ai_example") (Attr "data-example" "0"))
          = [[1; 1]]) as Hpaired by evaluate.
  split; [exact Hpaired|].
  destruct (AIExampleMenuItem_removeHandler_paired x (World ai_screen []) [] [1] 1 eq_refl Hpaired)
    as (_ & _ & Hgone & Hback).
  split; [exact Hgone|].
  apply Hback; evaluate.
Defined.

(** * The examples: validation and field values *)

Lemma AIExample_validate_run x w :
  AIExample.validate x w
  = (forallb (λ p, negb (unselected (doc w) p)) (AIExample.criteria x),
     World (mark (List.filter (unselected (doc w)) (AIExample.criteria x)) (doc w)) (fired w)).
Proof.
  apply (TrainingExample_validate_run
           (TrainingExample.Make (AIExample.element x) (AIExample.criteria x) (AIExample.answer x))).
Qed.

Lemma AIExample_validationErrors_run x w :
  AIExample.validationErrors x w
  = (map (λ _, AIExample_message) (List.filter (marked (doc w)) (AIExample.criteria x)), w).
Proof.
  unfold AIExample.validationErrors.
  cut (∀ l errors,
    foldEach (λ errors p,
      gets (λ d, JQ.hasClass d [p] highlighted) ≫= λ hasError : bool,
      mret (if hasError then errors ++ [AIExample_message] else errors)) errors l w
    = (errors ++ map (λ _, AIExample_message) (List.filter (marked (doc w)) l), w)).
  { intros Hcut. apply (Hcut (AIExample.criteria x) []). }
  induction l as [|p l IH]; intros errors.
  - simpl. run. by rewrite app_nil_r.
  - simpl. run. fold (marked (doc w) p). destruct (marked (doc w) p); simpl.
    + rewrite IH. by rewrite <-app_assoc.
    + by rewrite IH.
Qed.

Lemma AIExample_clearValidationErrors_run x w :
  AIExample.clearValidationErrors x w
  = (tt, World (unmark (AIExample.criteria x) (doc w)) (fired w)).
Proof. unfold AIExample.clearValidationErrors. apply forEach_each_data. Qed.

Lemma marked_after_validate S d p :
  marked (mark (List.filter (unselected d) S) d) p
  = marked d p || (bool_decide (p ∈ S) && unselected d p).
Proof.
  rewrite marked_mark. f_equal.
  destruct (unselected d p) eqn:Hp.
  - rewrite andb_true_r. rewrite (bool_decide_eq_true_2 (is_Some _)), andb_true_r
      by by apply unselected_data.
    apply bool_decide_ext. rewrite !list_elem_of_In, filter_In. tauto.
  - rewrite andb_false_r. rewrite bool_decide_eq_false_2; [done|].
    rewrite list_elem_of_In, filter_In. rewrite Hp. by intros [_ ?].
Qed.

(** X18.  [AIExample.validate] returns false exactly when one of the
    example's dropdowns has the empty value.  It fires nothing and marks
    exactly the failing dropdowns.  [validationErrors] changes nothing and
    returns one message per marked dropdown; after
    [clearValidationErrors] it returns none. *)
Theorem AIExample_validate_marks (x : AIExample.t) (w : world) :
  let d := doc w in
  let w' := (AIExample.validate x w).2 in
  ((AIExample.validate x w).1 = false
     ↔ ∃ p, p ∈ AIExample.criteria x ∧ JQ.prop d [p] = Some "")
  ∧ fired w' = fired w
  ∧ (∀ p, marked (doc w') p
          = marked d p || (bool_decide (p ∈ AIExample.criteria x) && unselected d p))
  ∧ (∀ w'', AIExample.validationErrors x w''
            = (map (λ _, AIExample_message)
                 (List.filter (marked (doc w'')) (AIExample.criteria x)), w''))
  ∧ (∀ w'', (AIExample.validationErrors x (AIExample.clearValidationErrors x w'').2).1 = []).
Proof.
  intros d w'. subst d w'. rewrite AIExample_validate_run. simpl. split_and!.
  - rewrite forallb_negb_false. unfold unselected. by setoid_rewrite bool_decide_eq_true.
  - done.
  - apply marked_after_validate.
  - apply AIExample_validationErrors_run.
  - intros w''. rewrite AIExample_clearValidationErrors_run, AIExample_validationErrors_run.
    simpl. by rewrite clean_filter by apply clean_unmark.
Qed.

Lemma validate_twice S d :
  forallb (λ p, negb (unselected (mark (List.filter (unselected d) S) d) p)) S
  = forallb (λ p, negb (unselected d p)) S
  ∧ mark (List.filter (unselected (mark (List.filter (unselected d) S) d)) S)
      (mark (List.filter (unselected d) S) d)
    = mark (List.filter (unselected d) S) d.
Proof.
  split.
  - generalize (List.filter (unselected d) S). intros T.
    induction S as [|p S IH]; simpl; [done|]. by rewrite unselected_mark, IH.
  - rewrite (filter_ext _ (unselected d)) by (intros p; apply unselected_mark).
    apply each_data_twice, _.
Qed.

(** X19.  For a [TrainingExample] and for an [AIExample], [validate] run on
    its own result returns the same verdict and leaves the document as the
    first run left it. *)
Theorem validate_twice_is_once :
  (∀ (x : TrainingExample.t) (w : world),
     TrainingExample.validate x (TrainingExample.validate x w).2 = TrainingExample.validate x w)
  ∧ (∀ (x : AIExample.t) (w : world),
     AIExample.validate x (AIExample.validate x w).2 = AIExample.validate x w).
Proof.
  split; intros x w.
  - rewrite !TrainingExample_validate_run. simpl.
    destruct (validate_twice (TrainingExample.criteria x) (doc w)) as [-> ->]. done.
  - rewrite !AIExample_validate_run. simpl.
    destruct (validate_twice (AIExample.criteria x) (doc w)) as [-> ->]. done.
Qed.

(** X20.  For a [TrainingExample] and for an [AIExample] none of whose
    dropdowns is marked, [validate] followed by [clearValidationErrors]
    gives back the document it started from, whatever the verdict. *)
Theorem validate_then_clear :
  (∀ (x : TrainingExample.t) (w : world),
     (∀ p, p ∈ TrainingExample.criteria x → marked (doc w) p = false) →
     (TrainingExample.clearValidationErrors x (TrainingExample.validate x w).2).2 = w)
  ∧ (∀ (x : AIExample.t) (w : world),
     (∀ p, p ∈ AIExample.criteria x → marked (doc w) p = false) →
     (AIExample.clearValidationErrors x (AIExample.validate x w).2).2 = w).
Proof.
  split; intros x w Hclean.
  - rewrite TrainingExample_validate_run, TrainingExample_clearValidationErrors_run. simpl.
    rewrite unmark_mark; [by destruct w| |done].
    intros p [Hp _]%list_elem_of_In%filter_In. by apply list_elem_of_In.
  - rewrite AIExample_validate_run, AIExample_clearValidationErrors_run. simpl.
    rewrite unmark_mark; [by destruct w| |done].
    intros p [Hp _]%list_elem_of_In%filter_In. by apply list_elem_of_In.
Qed.

(** The sample training example fails validation; the marks are then cleared. *)
Lemma validate_then_clear_witness :
  let x := TrainingExample.Make [[]] [[1]; [2]] [[0]] in
  let w := World training_example [] in
  (TrainingExample.validate x w).1 = false
  ∧ (TrainingExample.clearValidationErrors x (TrainingExample.validate x w).2).2 = w.
Proof.
  intros x w. split; [evaluate|].
  apply (proj1 validate_then_clear x w).
  intros p Hp. cases Hp; by vm_compute.
Defined.

Section field_values.
Context {host : Host}.

Lemma TrainingExample_getFieldValues_run x w :
  TrainingExample.getFieldValues x w
  = (JObj [("answer", JV (of_text (JQ.prop (doc w) (TrainingExample.answer x))));
           ("options_selected", JArr (map (selection (doc w)) (TrainingExample.criteria x)))],
     w).
Proof.
  unfold TrainingExample.getFieldValues. unfold mbind at 1, M_bind.
  by rewrite (mapEach_gets selection).
Qed.

Lemma AIExample_getFieldValues_run x w :
  AIExample.getFieldValues x w
  = (JObj [("answer", JV (of_text (JQ.prop (doc w) (AIExample.answer x))));
           ("label", JV (of_text (JQ.prop (doc w) (AIExample.labelSel x))));
           ("options_selected", JArr (map (selection (doc w)) (AIExample.criteria x)))],
     w).
Proof.
  unfold AIExample.getFieldValues. unfold mbind at 1, M_bind.
  by rewrite (mapEach_gets selection).
Qed.

Lemma all_selected d S :
  forallb (λ p, negb (unselected d p)) S = true
  ↔ ∀ o, o ∈ map (selection d) S → field o "option" ≠ JStr "".
Proof.
  rewrite forallb_forall. setoid_rewrite list_elem_of_fmap. split.
  - intros Hall o (p & -> & Hp). apply list_elem_of_In, Hall in Hp.
    apply negb_true_iff, bool_decide_eq_false_1 in Hp.
    change (field (selection d p) "option") with (of_text (JQ.prop d [p])).
    destruct (JQ.prop d [p]); simpl; congruence.
  - intros Hall p Hp%list_elem_of_In. apply negb_true_iff, bool_decide_eq_false_2.
    intros Hempty. apply (Hall (selection d p)); [by exists p|].
    change (field (selection d p) "option") with (of_text (JQ.prop d [p])).
    by rewrite Hempty.
Qed.

End field_values.

(** X21.  [getFieldValues] of a [TrainingExample] and of an [AIExample]
    changes nothing.  It reports the value of the answer field (and, for an
    AI example, of the label field) and under [options_selected], in
    document order, one object per dropdown with its [data-criterion] and
    its value.  [validate] accepts the example exactly when none of these
    objects has the empty string as its [option]. *)
Theorem getFieldValues_options_selected {host : Host} :
  (∀ (x : TrainingExample.t) (w : world),
     let r := TrainingExample.getFieldValues x w in
     r.2 = w
     ∧ field r.1 "answer" = of_text (JQ.prop (doc w) (TrainingExample.answer x))
     ∧ options_selected r.1 = map (selection (doc w)) (TrainingExample.criteria x)
     ∧ ((TrainingExample.validate x w).1 = true
        ↔ ∀ o, o ∈ options_selected r.1 → field o "option" ≠ JStr ""))
  ∧ (∀ (x : AIExample.t) (w : world),
     let r := AIExample.getFieldValues x w in
     r.2 = w
     ∧ field r.1 "answer" = of_text (JQ.prop (doc w) (AIExample.answer x))
     ∧ field r.1 "label" = of_text (JQ.prop (doc w) (AIExample.labelSel x))
     ∧ options_selected r.1 = map (selection (doc w)) (AIExample.criteria x)
     ∧ ((AIExample.validate x w).1 = true
        ↔ ∀ o, o ∈ options_selected r.1 → field o "option" ≠ JStr "")).
Proof.
  split; intros x w r; subst r.
  - rewrite TrainingExample_getFieldValues_run, TrainingExample_validate_run.
    split_and!; [done..|]. apply all_selected.
  - rewrite AIExample_getFieldValues_run, AIExample_validate_run.
    split_and!; [done..|]. apply all_selected.
Qed.

(** X22.  [AIExample.updateHandler] fires nothing, and every element of the
    document it leaves was there before with the same data: it rewrites no
    attribute, class or value.  When the value of the label field cannot be
    read, because there is no label field, it changes nothing at all. *)
Theorem AIExample_updateHandler_frame (x : AIExample.t) (w : world) :
  let w' := (AIExample.updateHandler x w).2 in
  fired w' = fired w
  ∧ (∀ q e, data (doc w') q = Some e → data (doc w) q = Some e)
  ∧ (JQ.val (doc w) (AIExample.labelSel x) = None → w' = w).
Proof.
  intros w'. subst w'. unfold AIExample.updateHandler, mbind, M_bind, gets.
  cbn beta iota. destruct (JQ.val (doc w) (AIExample.labelSel x)) as [s|]; [|done].
  split_and!; [done| |done].
  intros q e. match goal with |- context [first ?hs] => destruct (first hs) as [|h l] eqn:Hh end;
    [done|].
  assert (l = []) as ->.
  { unfold first in Hh. by repeat case_match; simplify_eq. }
  rewrite setText_one. simpl. apply data_setText_Some.
Qed.

(** An example without a label field. *)
Lemma AIExample_updateHandler_frame_witness :
  (AIExample.updateHandler (AIExample.Make [[1; 2]] [] [] []) (World ai_editor [])).2
  = World ai_editor [].
Proof.
  destruct (AIExample_updateHandler_frame (AIExample.Make [[1; 2]] [] [] []) (World ai_editor []))
    as (_ & _ & Hnone).
  by apply Hnone.
Defined.

(** * The name key of the field values *)

(** X23.  [getFieldValues] of a [RubricOption] and of a [RubricCriterion]
    changes nothing and carries the label the label field holds.  The
    object has no [name] key when the name field holds the empty string,
    as it does for an item the server has not named yet; otherwise [name]
    is what the name field holds. *)
Theorem getFieldValues_name_key {host : Host} :
  (∀ (o : RubricOption.t) (w : world),
     let d := doc w in
     let nameString := JQ.val d (find d (RubricOption.element o)
                                   (Class "openassessment_criterion_option_name")) in
     let r := RubricOption.getFieldValues o w in
     r.2 = w
     ∧ field r.1 "name" = (if bool_decide (nameString = Some "") then JUndefined
                           else of_text nameString)
     ∧ field r.1 "label"
       = of_text (JQ.val d (find d (RubricOption.element o)
                              (Class "openassessment_criterion_option_label"))))
  ∧ (∀ (c : RubricCriterion.t) (w : world),
     let d := doc w in
     let nameString := JQ.val d (find d (RubricCriterion.element c)
                                   (Class "openassessment_criterion_name")) in
     let r := RubricCriterion.getFieldValues c w in
     r.2 = w
     ∧ field r.1 "name" = (if bool_decide (nameString = Some "") then JUndefined
                           else of_text nameString)
     ∧ field r.1 "label" = of_text (JQ.val d (RubricCriterion.labelSel c))).
Proof.
  split.
  - intros o w d nameString r. subst r.
    unfold RubricOption.getFieldValues, RubricOption.label, RubricOption.explanation,
      RubricOption.points, Fields.stringField, IntField.get, mbind, M_bind, gets.
    simpl. fold d. fold nameString. split_and!; [done| |].
    + by destruct (bool_decide (nameString = Some "")).
    + by destruct (bool_decide (nameString = Some "")).
  - intros c w d nameString r. subst r.
    unfold RubricCriterion.getFieldValues, RubricCriterion.label, RubricCriterion.prompt,
      RubricCriterion.feedback, Fields.stringField.
    assert (pure (Container.getItemValues (T := RubricOption.t)
                    (RubricCriterion.optionContainer c))) as Hpure.
    { unfold Container.getItemValues, Container.getAllItems. effects. }
    specialize (Hpure w).
    unfold mbind, M_bind, gets. simpl.
    destruct (Container.getItemValues _ w) as [opts w1]. simpl in *. subst w1.
    fold d. fold nameString. split_and!; [done| |].
    + by destruct (bool_decide (nameString = Some "")).
    + by destruct (bool_decide (nameString = Some "")).
Qed.
